(** * CourseQuest Lite: the search, ask, compare and ingestion routes

    A shallow embedding of the backend routes of the repository
    ([routes/ask.js], [routes/courses.js], [routes/compare.js],
    [routes/ingest.js]) and of the state of the pages that call them
    ([App.jsx], [ComparePage.jsx], [SearchPage.jsx], [Filters.jsx]), and
    the properties of the natural-language filter extractor, the query
    builders, the pagination arithmetic, the comparison aggregator, the
    ingestion loop and the requests of the pages.

    Conventions of the embedding.
    - JavaScript text is a [string] of 8-bit characters (the UTF-8 bytes of
      the text).  Character classes, [toLowerCase], [trim] and [length] are
      the ASCII ones, so the embedding is exact on ASCII text.
    - JavaScript numbers are the type [number]: [NaN], the two infinities
      and the finite values, which are exact rationals kept in lowest
      terms.  The operations compute exactly; the sign of zero is not
      modelled.  The code computes with doubles, so the operations are
      those of the code where the code does not round: on integers below
      [2^53] in absolute value.  [Js.to_double] is the double nearest to
      a number; it shows where the code leaves the exact arithmetic, and
      the properties about numbers name the range they are stated for.
    - A JavaScript object used as a dictionary is a [gmap string value].
    - The row store is outside the routes.  The search routes see it as a
      pair of functions (count, rows); the compare route's query is
      interpreted over a table of rows. *)

From Stdlib Require Import Ascii String ZArith QArith Qround Qreduction Qcanon Lia Lqa.
From stdpp Require Import base option list sorting strings pretty gmap.

Open Scope string_scope.

(** ** JavaScript primitives *)

Module Js.

(** *** Characters *)

Definition is_digit (c : ascii) : bool :=
  let n := Ascii.nat_of_ascii c in (48 <=? n)%nat && (n <=? 57)%nat.

(** [\s] restricted to ASCII: tab, line feed, vertical tab, form feed,
    carriage return and space. *)
Definition is_space (c : ascii) : bool :=
  let n := Ascii.nat_of_ascii c in
  ((9 <=? n)%nat && (n <=? 13)%nat) || (n =? 32)%nat.

Definition lower (c : ascii) : ascii :=
  let n := Ascii.nat_of_ascii c in
  if (65 <=? n)%nat && (n <=? 90)%nat then Ascii.ascii_of_nat (n + 32) else c.

Definition upper (c : ascii) : ascii :=
  let n := Ascii.nat_of_ascii c in
  if (97 <=? n)%nat && (n <=? 122)%nat then Ascii.ascii_of_nat (n - 32) else c.

Definition digit_value (c : ascii) : Z :=
  (Z.of_nat (Ascii.nat_of_ascii c) - 48)%Z.

(** Value of a hexadecimal digit, when [c] is one. *)
Definition hex_value (c : ascii) : option Z :=
  let n := Ascii.nat_of_ascii c in
  if is_digit c then Some (Z.of_nat n - 48)%Z
  else if (97 <=? n)%nat && (n <=? 102)%nat then Some (Z.of_nat n - 87)%Z
  else if (65 <=? n)%nat && (n <=? 70)%nat then Some (Z.of_nat n - 55)%Z
  else None.

(** *** Strings *)

Fixpoint toLowerCase (s : string) : string :=
  match s with
  | EmptyString => EmptyString
  | String c t => String (lower c) (toLowerCase t)
  end.

Fixpoint toUpperCase (s : string) : string :=
  match s with
  | EmptyString => EmptyString
  | String c t => String (upper c) (toUpperCase t)
  end.

Fixpoint trimStart (s : string) : string :=
  match s with
  | String c t => if is_space c then trimStart t else s
  | EmptyString => EmptyString
  end.

Fixpoint trimEnd (s : string) : string :=
  match s with
  | EmptyString => EmptyString
  | String c t =>
      let t' := trimEnd t in
      if is_space c && String.eqb t' "" then "" else String c t'
  end.

Definition trim (s : string) : string := trimEnd (trimStart s).

Fixpoint startsWith (p s : string) : bool :=
  match p, s with
  | EmptyString, _ => true
  | String a p', String b s' => Ascii.eqb a b && startsWith p' s'
  | String _ _, EmptyString => false
  end.

(** [s.includes(p)] *)
Fixpoint includes (s p : string) : bool :=
  startsWith p s ||
  match s with
  | EmptyString => false
  | String _ t => includes t p
  end.

(** [s.replace(/c/g, '')] for a single character [c]. *)
Fixpoint remove_char (c : ascii) (s : string) : string :=
  match s with
  | EmptyString => EmptyString
  | String a t => if Ascii.eqb a c then remove_char c t else String a (remove_char c t)
  end.

(** [s.split(/\s+/)]: [gap] says that the previous character was white
    space, [acc] is the piece being read. *)
Fixpoint split_ws_from (gap : bool) (acc : string) (s : string) : list string :=
  match s with
  | EmptyString => [acc]
  | String c t =>
      if is_space c
      then (if gap then split_ws_from true "" t else acc :: split_ws_from true "" t)
      else split_ws_from false (acc +:+ String c "") t
  end.

Definition split_ws (s : string) : list string := split_ws_from false "" s.

(** [s.split(',')] *)
Fixpoint split_char_from (sep : ascii) (acc : string) (s : string) : list string :=
  match s with
  | EmptyString => [acc]
  | String c t =>
      if Ascii.eqb c sep then acc :: split_char_from sep "" t
      else split_char_from sep (acc +:+ String c "") t
  end.

Definition split_char (sep : ascii) (s : string) : list string :=
  split_char_from sep "" s.

(** [xs.join(sep)] *)
Definition join (sep : string) (xs : list string) : string := String.concat sep xs.

(** [xs.includes(w)] on an array of strings. *)
Definition array_includes (xs : list string) (w : string) : bool :=
  existsb (String.eqb w) xs.

(** *** Numbers *)

Inductive number : Type :=
| NaN
| Inf (negative : bool)
| Num (q : Q).

Definition of_Z (z : Z) : number := Num (inject_Z z).

Definition isNaN (x : number) : bool :=
  match x with NaN => true | _ => false end.

Definition Qltb (a b : Q) : bool := negb (Qle_bool b a).

(** [x < y] *)
Definition lt (x y : number) : bool :=
  match x, y with
  | NaN, _ | _, NaN => false
  | Inf true, Inf true => false
  | Inf true, _ => true
  | _, Inf true => false
  | Inf false, _ => false
  | _, Inf false => true
  | Num a, Num b => Qltb a b
  end.

(** [x > y] *)
Definition gt (x y : number) : bool := lt y x.

Definition neg (x : number) : number :=
  match x with
  | NaN => NaN
  | Inf b => Inf (negb b)
  | Num q => Num (Qred (- q)%Q)
  end.

Definition add (x y : number) : number :=
  match x, y with
  | NaN, _ | _, NaN => NaN
  | Inf a, Inf b => if Bool.eqb a b then Inf a else NaN
  | Inf a, _ => Inf a
  | _, Inf b => Inf b
  | Num a, Num b => Num (Qred (a + b)%Q)
  end.

Definition sub (x y : number) : number := add x (neg y).

Definition Qsign_neg (q : Q) : bool := Qltb q 0%Q.
Definition Qis_zero (q : Q) : bool := Qeq_bool q 0%Q.

Definition mul (x y : number) : number :=
  match x, y with
  | NaN, _ | _, NaN => NaN
  | Inf a, Inf b => Inf (xorb a b)
  | Inf a, Num q | Num q, Inf a =>
      if Qis_zero q then NaN else Inf (xorb a (Qsign_neg q))
  | Num a, Num b => Num (Qred (a * b)%Q)
  end.

Definition div (x y : number) : number :=
  match x, y with
  | NaN, _ | _, NaN => NaN
  | Inf _, Inf _ => NaN
  | Inf a, Num q => Inf (xorb a (Qsign_neg q))
  | Num _, Inf _ => Num 0%Q
  | Num a, Num b =>
      if Qis_zero b then (if Qis_zero a then NaN else Inf (Qsign_neg a))
      else Num (Qred (a / b)%Q)
  end.

(** [Math.ceil] *)
Definition Math_ceil (x : number) : number :=
  match x with
  | Num q => of_Z (Qceiling q)
  | _ => x
  end.

(** [Math.round]: the nearest integer, ties towards plus infinity. *)
Definition Math_round (x : number) : number :=
  match x with
  | Num q => of_Z (Qfloor (q + (1 # 2))%Q)
  | _ => x
  end.

(** [Math.min(x, y)] and [Math.max(x, y)] *)
Definition Math_min (x y : number) : number :=
  if isNaN x || isNaN y then NaN else if lt y x then y else x.

Definition Math_max (x y : number) : number :=
  if isNaN x || isNaN y then NaN else if lt x y then y else x.

(** [Number.isInteger] *)
Definition isInteger (x : number) : bool :=
  match x with
  | Num q => Qeq_bool q (inject_Z (Qfloor q))
  | _ => false
  end.

(** Truthiness of a number: neither zero nor [NaN]. *)
Definition number_truthy (x : number) : bool :=
  match x with
  | NaN => false
  | Inf _ => true
  | Num q => negb (Qis_zero q)
  end.

(** *** Doubles *)

(** [2^e] *)
Definition pow2 (e : Z) : Q :=
  match e with
  | Zneg p => 1 # (2 ^ p)%positive
  | _ => inject_Z (2 ^ e)
  end.

(** The integer nearest to [q], the even one on a tie. *)
Definition round_half_even (q : Q) : Z :=
  let f := Qfloor q in
  match (q - inject_Z f ?= 1 # 2)%Q with
  | Lt => f
  | Gt => (f + 1)%Z
  | Eq => if Z.even f then f else (f + 1)%Z
  end.

(** The exponent of the power of two at or below [a], for [a > 0]. *)
Definition binade (a : Q) : Z :=
  let e := (Z.log2 (Qnum a) - Z.log2 (Zpos (Qden a)))%Z in
  if Qle_bool (pow2 e) a then e else (e - 1)%Z.

(** The double nearest to [x] (IEEE 754 binary64, round to nearest, ties
    to the even significand): 53 significant bits, the last place no
    finer than [2^-1074], and an infinity from [2^1024] on. *)
Definition to_double (x : number) : number :=
  match x with
  | Num q =>
      if Qis_zero q then x
      else
        let a := (if Qsign_neg q then - q else q)%Q in
        let s := Z.max (binade a - 52) (-1074) in
        let r := (inject_Z (round_half_even (a / pow2 s)) * pow2 s)%Q in
        if Qle_bool (pow2 1024) r then Inf (Qsign_neg q)
        else Num (Qred (if Qsign_neg q then - r else r))
  | _ => x
  end.

(** *** Parsing numbers *)

(** Reads the longest run of decimal digits in front of [s]: the value
    read so far, the number of digits, and what is left. *)
Fixpoint read_digits (acc : Z) (n : nat) (s : string) : Z * nat * string :=
  match s with
  | String c t =>
      if is_digit c then read_digits (10 * acc + digit_value c)%Z (S n) t
      else (acc, n, s)
  | EmptyString => (acc, n, s)
  end.

Fixpoint read_hex (acc : Z) (n : nat) (s : string) : Z * nat * string :=
  match s with
  | String c t =>
      match hex_value c with
      | Some d => read_hex (16 * acc + d)%Z (S n) t
      | None => (acc, n, s)
      end
  | EmptyString => (acc, n, s)
  end.

(** An optional sign in front of [s]. *)
Definition read_sign (s : string) : bool * string :=
  match s with
  | String "-" t => (true, t)
  | String "+" t => (false, t)
  | _ => (false, s)
  end.

Definition signed (negative : bool) (z : Z) : Z :=
  if negative then (- z)%Z else z.

(** [parseInt(s)] with no radix.  The value is the exact one: it is the
    value of the code for integers below [2^53] in absolute value. *)
Definition parseInt (s : string) : number :=
  let '(negative, s1) := read_sign (trimStart s) in
  let '(v, n, _) :=
    if startsWith "0x" s1 || startsWith "0X" s1
    then read_hex 0%Z 0%nat (String.substring 2 (String.length s1 - 2) s1)
    else read_digits 0%Z 0%nat s1 in
  match n with
  | O => NaN
  | S _ => of_Z (signed negative v)
  end.

(** The exponent part [e±ddd] of a decimal literal; absent when no digit
    follows. *)
Definition read_exponent (s : string) : Z :=
  match s with
  | String c t =>
      if Ascii.eqb (lower c) "e" then
        let '(negative, t1) := read_sign t in
        let '(v, n, _) := read_digits 0%Z 0%nat t1 in
        match n with O => 0%Z | S _ => signed negative v end
      else 0%Z
  | EmptyString => 0%Z
  end.

(** [m * 10^e] as a rational. *)
Definition scale10 (m e : Z) : Q :=
  match e with
  | Zneg p => Qred (inject_Z m / inject_Z (10 ^ Zpos p)%Z)%Q
  | _ => inject_Z (m * 10 ^ e)%Z
  end.

(** [parseFloat(s)]: the longest prefix of the trimmed text that is a
    decimal literal.  The value is the exact one, of which the code has
    the nearest double. *)
Definition parseFloat (s : string) : number :=
  let '(negative, s1) := read_sign (trimStart s) in
  if startsWith "Infinity" s1 then Inf negative else
  let '(ip, ni, s2) := read_digits 0%Z 0%nat s1 in
  let '(m, nf, s3) :=
    match s2 with
    | String "." t =>
        let '(m, nf, s3) := read_digits ip 0%nat t in
        match ni, nf with
        | O, O => (ip, O, s2)
        | _, _ => (m, nf, s3)
        end
    | _ => (ip, O, s2)
    end in
  match ni, nf with
  | O, O => NaN
  | _, _ => Num (scale10 (signed negative m) (read_exponent s3 - Z.of_nat nf)%Z)
  end.

End Js.

(** ** Regular expressions

    The patterns of the routes use literals, character classes,
    alternation, greedy quantifiers and capturing groups.  [run] is the
    backtracking matcher of the language: alternatives are tried from left
    to right, a quantifier takes as many iterations as it can before it
    gives one back, and an iteration that reads nothing is refused. *)

Module Regex.

Inductive regex : Type :=
| Eps
| Cls (p : ascii -> bool)
| Seq (r1 r2 : regex)
| Alt (r1 r2 : regex)
| Star (r : regex)
| Cap (n : nat) (r : regex).

(** What the groups captured, latest first. *)
Definition captures := list (nat * string).

Fixpoint group (cs : captures) (n : nat) : option string :=
  match cs with
  | [] => None
  | (m, w) :: cs' => if Nat.eqb m n then Some w else group cs' n
  end.

(** The text read between the suffixes [s] and [s']. *)
Definition consumed (s s' : string) : string :=
  String.substring 0 (String.length s - String.length s') s.

(** A matcher takes the continuation of the match, the text left and
    the captures so far. *)
Definition matcher : Type :=
  (string -> captures -> option captures) -> string -> captures -> option captures.

(** The greedy iteration of [body]: one more iteration first, provided
    it reads something, the continuation otherwise.  An iteration shortens
    the text, so [fuel] at least the length of the text is enough. *)
Fixpoint iterate (body : matcher) (k : string -> captures -> option captures)
    (fuel : nat) (s : string) (cs : captures) {struct fuel} : option captures :=
  match fuel with
  | O => k s cs
  | S fuel' =>
      match body (fun s' cs' =>
                    if (String.length s' <? String.length s)%nat
                    then iterate body k fuel' s' cs' else None) s cs with
      | Some out => Some out
      | None => k s cs
      end
  end.

Fixpoint run (r : regex) : matcher :=
  fun k s cs =>
  match r with
  | Eps => k s cs
  | Cls p =>
      match s with
      | String c t => if p c then k t cs else None
      | EmptyString => None
      end
  | Seq r1 r2 => run r1 (run r2 k) s cs
  | Alt r1 r2 =>
      match run r1 k s cs with
      | Some out => Some out
      | None => run r2 k s cs
      end
  | Star r1 => iterate (run r1) k (String.length s) s cs
  | Cap n r1 => run r1 (fun s' cs' => k s' ((n, consumed s s') :: cs')) s cs
  end.

(** [text.match(r)] without the global flag: the captures of the leftmost
    match, [None] when there is none. *)
Fixpoint exec (r : regex) (s : string) : option captures :=
  match run r (fun _ cs => Some cs) s [] with
  | Some cs => Some cs
  | None =>
      match s with
      | String _ t => exec r t
      | EmptyString => None
      end
  end.

(** [/^r$/.test(text)] *)
Definition test_whole (r : regex) (s : string) : bool :=
  match run r (fun s' cs => if String.eqb s' "" then Some cs else None) s [] with
  | Some _ => true
  | None => false
  end.

(** Pattern syntax. *)
Definition chr (c : ascii) : regex := Cls (Ascii.eqb c).

(** A character under the [i] flag. *)
Definition chr_i (c : ascii) : regex :=
  Cls (fun b => Ascii.eqb (Js.lower b) (Js.lower c)).

Fixpoint lit (s : string) : regex :=
  match s with
  | EmptyString => Eps
  | String c t => Seq (chr c) (lit t)
  end.

Fixpoint lit_i (s : string) : regex :=
  match s with
  | EmptyString => Eps
  | String c t => Seq (chr_i c) (lit_i t)
  end.

(** [r1|r2|...|rn] *)
Fixpoint alts (rs : list regex) : regex :=
  match rs with
  | [] => Cls (fun _ => false)
  | [r] => r
  | r :: rs' => Alt r (alts rs')
  end.

Definition opt (r : regex) : regex := Alt r Eps.
Definition plus (r : regex) : regex := Seq r (Star r).
Definition digit : regex := Cls Js.is_digit.
Definition space : regex := Cls Js.is_space.

(** The words a pattern accepts, with the captures it leaves; an
    iteration of a quantifier reads at least one character. *)
Inductive Matches : regex -> string -> captures -> captures -> Prop :=
| MEps cs : Matches Eps "" cs cs
| MCls p c cs : p c = true -> Matches (Cls p) (String c "") cs cs
| MSeq r1 r2 w1 w2 cs cs1 cs2 :
    Matches r1 w1 cs cs1 -> Matches r2 w2 cs1 cs2 ->
    Matches (Seq r1 r2) (w1 +:+ w2) cs cs2
| MAltL r1 r2 w cs cs' : Matches r1 w cs cs' -> Matches (Alt r1 r2) w cs cs'
| MAltR r1 r2 w cs cs' : Matches r2 w cs cs' -> Matches (Alt r1 r2) w cs cs'
| MStarNil r cs : Matches (Star r) "" cs cs
| MStarCons r w1 w2 cs cs1 cs2 :
    w1 <> "" ->
    Matches r w1 cs cs1 -> Matches (Star r) w2 cs1 cs2 ->
    Matches (Star r) (w1 +:+ w2) cs cs2
| MCap n r w cs cs' :
    Matches r w cs cs' -> Matches (Cap n r) w cs ((n, w) :: cs').

End Regex.

(** ** Values, filter maps and query specs *)

(** The JavaScript values the routes put in filter maps and parameter
    lists. *)
Inductive value : Type :=
| VNull
| VStr (s : string)
| VNum (x : Js.number).

(** A JavaScript object used as a dictionary from keys to values. *)
Abbreviation filter_map := (gmap string value).

(** [if (v)] on a value of the object, [undefined] when the key is absent. *)
Definition truthy (v : option value) : bool :=
  match v with
  | None | Some VNull => false
  | Some (VStr s) => negb (String.eqb s "")
  | Some (VNum x) => Js.number_truthy x
  end.

(** [v !== undefined] *)
Definition defined (v : option value) : bool :=
  match v with None => false | Some _ => true end.

Module Sql.

(** A predicate fragment is a template literal: text with references to
    the positional placeholders [$n]. *)
Inductive piece : Type :=
| Txt (s : string)
| Ph (n : nat).

Definition fragment := list piece.

Fixpoint placeholders (f : fragment) : list nat :=
  match f with
  | [] => []
  | Txt _ :: f' => placeholders f'
  | Ph n :: f' => n :: placeholders f'
  end.

(** The distinct placeholders the fragments refer to. *)
Definition distinct_placeholders (fs : list fragment) : list nat :=
  remove_dups (concat (map placeholders fs)).

Definition render_piece (p : piece) : string :=
  match p with
  | Txt s => s
  | Ph n => "$" +:+ pretty n
  end.

Definition render (f : fragment) : string :=
  String.concat "" (map render_piece f).

(** [conditions.length > 0 ? `WHERE ${conditions.join(' AND ')}` : ''] *)
Definition whereClause (conditions : list fragment) : string :=
  match conditions with
  | [] => ""
  | _ => "WHERE " +:+ String.concat " AND " (map render conditions)
  end.

(** A query parameter: a value, or the template [`%${v}%`] around one. *)
Inductive param : Type :=
| Plain (v : value)
| Like (v : value).

(** The state of the loop-free builder both search routes share:
    [conditions], [queryParams] and [paramCounter]. *)
Record builder : Type := Builder {
  conditions : list fragment;
  queryParams : list param;
  paramCounter : nat
}.

Definition start : builder := Builder [] [] 1.

(** [conditions.push(`...`); queryParams.push(v); paramCounter++] where
    the template [t] is instantiated at the current counter. *)
Definition push (t : nat -> fragment) (v : param) (b : builder) : builder :=
  Builder (conditions b ++ [t (paramCounter b)])
          (queryParams b ++ [v])
          (S (paramCounter b)).

(** [if (c) { push }] *)
Definition push_if (c : bool) (t : nat -> fragment) (v : param) (b : builder) : builder :=
  if c then push t v b else b.

(** [`col op $n`] *)
Definition cmp (lhs : string) (n : nat) : fragment := [Txt lhs; Ph n].

(** [`(course_name ILIKE $n OR department ILIKE $n)`] *)
Definition text_search (n : nat) : fragment :=
  [Txt "(course_name ILIKE "; Ph n; Txt " OR department ILIKE "; Ph n; Txt ")"].

(** The COUNT query and the SELECT query built from one builder. *)
Record count_query : Type := CountQuery {
  count_where : list fragment;
  count_params : list param
}.

Record select_query : Type := SelectQuery {
  select_where : list fragment;
  order_by : string;
  limit_placeholder : nat;
  offset_placeholder : nat;
  select_params : list param
}.

End Sql.

(** A validated numeric parameter or a numeric column: [null] or a
    number. *)
Abbreviation nullable := (option Js.number).

(** A row of the [courses] table as the driver returns it: the numeric
    columns hold a number or [null]. *)
Record course : Type := Course {
  course_id : string;
  course_name : string;
  department : option string;
  level : string;
  delivery_mode : string;
  credits : nullable;
  duration_weeks : nullable;
  rating : nullable;
  tuition_fee_inr : nullable;
  year_offered : nullable
}.

(** The row store as the search routes use it: [None] is a failed
    query, which throws an error with the message [failure]. *)
Record store : Type := Store {
  run_count : Sql.count_query -> option Js.number;
  run_select : Sql.select_query -> option (list course);
  failure : string
}.

(** [ToNumber] of a nullable number used in arithmetic: [null] is zero. *)
Definition to_number (v : nullable) : Js.number :=
  match v with
  | None => Js.of_Z 0
  | Some x => x
  end.

(** A nullable number as a value. *)
Definition to_value (v : nullable) : value :=
  match v with
  | None => VNull
  | Some x => VNum x
  end.

(** Page metadata of a search response. *)
Record page_meta : Type := PageMeta {
  total_count : Js.number;
  page : nullable;
  per_page : nullable;
  total_pages : Js.number;
  has_next_page : bool;
  has_prev_page : bool
}.

(** The envelope of a search response. *)
Record search_response : Type := SearchResponse {
  data : list course;
  meta : page_meta
}.

(** What a route answers: the JSON of a [200], a [400] with its [error]
    (the [message] next to it is left out), or a [500]. *)
Inductive reply (A : Type) : Type :=
| Ok (body : A)
| BadRequest (error : string)
| ServerError.

Arguments Ok {A} body.
Arguments BadRequest {A} error.
Arguments ServerError {A}.

(** The pagination arithmetic both search routes write out:
    [Math.ceil(totalCount / perPage)], [(page - 1) * perPage] and the
    two flags. *)
Definition totalPages (totalCount perPage : Js.number) : Js.number :=
  Js.Math_ceil (Js.div totalCount perPage).

Definition offset (page perPage : Js.number) : Js.number :=
  Js.mul (Js.sub page (Js.of_Z 1)) perPage.



Definition make_meta (totalCount : Js.number) (page perPage : nullable) : page_meta :=
  let pages := totalPages totalCount (to_number perPage) in
  PageMeta totalCount page perPage pages
           (Js.lt (to_number page) pages)
           (Js.gt (to_number page) (Js.of_Z 1)).

(** ** The free-text route: [POST /api/ask] *)

Module Ask.

Import Regex.

(** *** Vocabulary *)

Definition deliveryModePatterns : list (string * list string) :=
  [ ("online", ["online"; "remote"; "virtual"; "digital"; "web-based"; "internet"; "distance"]);
    ("offline", ["offline"; "physical"; "in-person"; "campus"; "classroom"; "face-to-face"; "onsite"; "on-campus"]);
    ("hybrid", ["hybrid"; "blended"; "mixed"; "combined"; "flexible"]) ].

Definition levelPatterns : list (string * list string) :=
  [ ("UG", ["undergraduate"; "ug"; "bachelor"; "bachelors"; "bachelor's";
            "btech"; "bsc"; "ba"; "bcom"; "undergrad"; "under-graduate"]);
    ("PG", ["postgraduate"; "pg"; "graduate"; "master"; "masters"; "master's";
            "mtech"; "msc"; "ma"; "mcom"; "mba"; "post-graduate"; "postgrad"]) ].

Definition departmentKeywords : list (string * list string) :=
  [ ("Computer Science", ["computer"; "programming"; "software"; "coding"; "algorithm"; "data"; "ai"; "ml"; "tech"; "cs"; "it"]);
    ("Management", ["management"; "business"; "mba"; "leadership"; "strategy"; "operations"; "mgt"]);
    ("Electrical Engineering", ["electrical"; "electronics"; "circuit"; "power"; "signal"; "ee"; "eee"]);
    ("Arts", ["arts"; "literature"; "philosophy"; "history"; "creative"; "humanities"]);
    ("Design", ["design"; "graphic"; "ui"; "ux"; "visual"; "creative"; "art"]);
    ("Law", ["law"; "legal"; "constitutional"; "criminal"; "commercial"; "judiciary"]);
    ("Medicine", ["medicine"; "medical"; "health"; "anatomy"; "clinical"; "doctor"; "healthcare"]);
    ("Commerce", ["commerce"; "finance"; "accounting"; "economics"; "trade"; "business"]) ].

Definition stopWords : list string :=
  [ "i"; "want"; "to"; "find"; "search"; "for"; "show"; "me"; "get"; "list"; "of";
    "courses"; "course"; "in"; "with"; "that"; "are"; "is"; "and"; "or"; "the";
    "a"; "an"; "some"; "all"; "any"; "can"; "you"; "please"; "help" ].

(** [Object.values(table).flat()] *)
Definition flat_values (table : list (string * list string)) : list string :=
  concat (map snd table).

Definition allPatternWords : list string :=
  flat_values deliveryModePatterns ++
  flat_values levelPatterns ++
  flat_values departmentKeywords ++
  [ "rating"; "rated"; "star"; "stars"; "credit"; "credits";
    "fee"; "fees"; "cost"; "costs"; "price"; "year" ].

(** The loop over the entries of a keyword table: the first family with
    a keyword that the text includes, then [break]. *)
Fixpoint first_family (table : list (string * list string)) (text : string) : option string :=
  match table with
  | [] => None
  | (name, patterns) :: table' =>
      if existsb (Js.includes text) patterns then Some name
      else first_family table' text
  end.

(** *** Pattern syntax shared by the rules *)

Definition spaces : regex := Star space.
Definition words_i (ws : list string) : regex := alts (map lit_i ws).

(** [(?:rs\.?|inr|₹)?] *)
Definition currency : regex :=
  opt (alts [Seq (lit_i "rs") (opt (chr ".")); lit_i "inr"; lit_i "₹"]).

(** [\d+(?:,\d+)*] *)
Definition amount : regex := Seq (plus digit) (Star (Seq (chr ",") (plus digit))).

(** [\d+(?:\.\d+)?] *)
Definition decimal : regex := Seq (plus digit) (opt (Seq (chr ".") (plus digit))).

(** [(?:and|to|-)] *)
Definition range_word : regex := words_i ["and"; "to"; "-"].

(** [(?:rating|rated|stars?)] *)
Definition rating_word : regex :=
  alts [lit_i "rating"; lit_i "rated"; Seq (lit_i "star") (opt (chr_i "s"))].

(** [credits?] *)
Definition credits_word : regex := Seq (lit_i "credit") (opt (chr_i "s")).

(** [match[n]]; every group of the patterns below lies outside the
    alternatives and quantifiers of its pattern, so a match defines it. *)
Definition capture (m : captures) (n : nat) : string :=
  default "" (group m n).

(** [parseInt(match[n].replace(/,/g, ''))] *)
Definition capture_amount (m : captures) (n : nat) : Js.number :=
  Js.parseInt (Js.remove_char "," (capture m n)).

Definition rule : Type := regex * (captures -> filter_map).

(** The loop over the rules of a category: the first pattern that
    matches is applied with [Object.assign], then [break]. *)
Fixpoint apply_first (rules : list rule) (text : string) (filters : filter_map) : filter_map :=
  match rules with
  | [] => filters
  | (re, handler) :: rules' =>
      match exec re text with
      | Some m => handler m ∪ filters
      | None => apply_first rules' text filters
      end
  end.

(** *** Step 3: fee constraints *)

Definition fee_under : regex :=
  Seq (words_i ["under"; "below"; "less than"; "cheaper than"; "maximum"; "max"; "up to"])
      (Seq spaces (Seq currency (Seq spaces (Cap 1 amount)))).

Definition fee_above : regex :=
  Seq (words_i ["above"; "over"; "more than"; "greater than"; "minimum"; "min"; "at least"])
      (Seq spaces (Seq currency (Seq spaces (Cap 1 amount)))).

Definition fee_between : regex :=
  Seq (words_i ["between"; "from"])
      (Seq spaces (Seq currency (Seq spaces (Seq (Cap 1 amount)
      (Seq spaces (Seq range_word (Seq spaces (Seq currency (Seq spaces (Cap 2 amount)))))))))).

Definition fee_exact : regex :=
  Seq (alts [lit_i "exactly"; Seq (lit_i "cost") (opt (chr_i "s"));
             Seq (lit_i "fee") (opt (chr_i "s"));
             Seq (lit_i "price") (Seq (opt (chr_i "d")) (lit_i " at"))])
      (Seq spaces (Seq currency (Seq spaces (Cap 1 amount)))).

Definition fee_between_handler (m : captures) : filter_map :=
  let fee1 := capture_amount m 1 in
  let fee2 := capture_amount m 2 in
  {[ "min_fee" := VNum (Js.Math_min fee1 fee2);
     "max_fee" := VNum (Js.Math_max fee1 fee2) ]}.

Definition feeRegexes : list rule :=
  [ (fee_under, fun m => {[ "max_fee" := VNum (capture_amount m 1) ]});
    (fee_above, fun m => {[ "min_fee" := VNum (capture_amount m 1) ]});
    (fee_between, fee_between_handler);
    (fee_exact, fun m =>
       let fee := capture_amount m 1 in
       {[ "min_fee" := VNum fee; "max_fee" := VNum fee ]}) ].

(** *** Step 4: rating constraints *)

Definition rating_above : regex :=
  Seq rating_word (Seq spaces
    (Seq (words_i ["above"; "over"; "more than"; "greater than"; "at least"])
         (Seq spaces (Cap 1 decimal)))).

Definition rating_below : regex :=
  Seq rating_word (Seq spaces
    (Seq (words_i ["below"; "under"; "less than"; "maximum"; "max"])
         (Seq spaces (Cap 1 decimal)))).

Definition rating_between : regex :=
  Seq rating_word (Seq spaces (Seq (words_i ["between"; "from"])
    (Seq spaces (Seq (Cap 1 decimal)
    (Seq spaces (Seq range_word (Seq spaces (Cap 2 decimal)))))))).

Definition rating_bare : regex :=
  Seq (Cap 1 decimal) (Seq spaces
    (alts [lit_i "star"; Seq (lit_i "star") (opt (chr_i "s")); lit_i "rating"; lit_i "rated"])).

Definition rating_between_handler (m : captures) : filter_map :=
  let rating1 := Js.parseFloat (capture m 1) in
  let rating2 := Js.parseFloat (capture m 2) in
  {[ "min_rating" := VNum (Js.Math_min rating1 rating2);
     "max_rating" := VNum (Js.Math_max rating1 rating2) ]}.

Definition ratingRegexes : list rule :=
  [ (rating_above, fun m => {[ "min_rating" := VNum (Js.parseFloat (capture m 1)) ]});
    (rating_below, fun m => {[ "max_rating" := VNum (Js.parseFloat (capture m 1)) ]});
    (rating_between, rating_between_handler);
    (rating_bare, fun m => {[ "min_rating" := VNum (Js.parseFloat (capture m 1)) ]}) ].

(** *** Step 5: credits constraints *)

Definition credits_bare : regex :=
  Seq (Cap 1 (plus digit)) (Seq spaces credits_word).

Definition credits_between : regex :=
  Seq (words_i ["between"; "from"])
      (Seq spaces (Seq (Cap 1 (plus digit)) (Seq spaces (Seq range_word
      (Seq spaces (Seq (Cap 2 (plus digit)) (Seq spaces credits_word))))))).

Definition credits_at_least : regex :=
  Seq (words_i ["at least"; "minimum"; "min"])
      (Seq spaces (Seq (Cap 1 (plus digit)) (Seq spaces credits_word))).

Definition credits_at_most : regex :=
  Seq (words_i ["at most"; "maximum"; "max"; "up to"])
      (Seq spaces (Seq (Cap 1 (plus digit)) (Seq spaces credits_word))).

Definition credits_bare_handler (m : captures) : filter_map :=
  let credits := Js.parseInt (capture m 1) in
  {[ "min_credits" := VNum credits; "max_credits" := VNum credits ]}.

Definition credits_between_handler (m : captures) : filter_map :=
  let credits1 := Js.parseInt (capture m 1) in
  let credits2 := Js.parseInt (capture m 2) in
  {[ "min_credits" := VNum (Js.Math_min credits1 credits2);
     "max_credits" := VNum (Js.Math_max credits1 credits2) ]}.

Definition creditRegexes : list rule :=
  [ (credits_bare, credits_bare_handler);
    (credits_between, credits_between_handler);
    (credits_at_least, fun m => {[ "min_credits" := VNum (Js.parseInt (capture m 1)) ]});
    (credits_at_most, fun m => {[ "max_credits" := VNum (Js.parseInt (capture m 1)) ]}) ].

(** *** Step 7: year, [/(?:year|in)\s*(20\d{2})/] *)

Definition year_pattern : regex :=
  Seq (alts [lit "year"; lit "in"])
      (Seq spaces (Cap 1 (Seq (lit "20") (Seq digit digit)))).

(** *** Step 8: the free-text residue *)

Definition is_search_term (word : string) : bool :=
  if Js.array_includes stopWords word then false
  else if test_whole (plus digit) word then false
  else if (String.length word <=? 2)%nat then false
  else negb (Js.array_includes allPatternWords word).

(** *** The extractor *)

Definition set_family (key : string) (table : list (string * list string))
    (text : string) (filters : filter_map) : filter_map :=
  match first_family table text with
  | Some name => <[ key := VStr name ]> filters
  | None => filters
  end.

Definition set_year (text : string) (filters : filter_map) : filter_map :=
  match exec year_pattern text with
  | Some m => <[ "year_offered" := VNum (Js.parseInt (capture m 1)) ]> filters
  | None => filters
  end.

Definition set_search_terms (text : string) (filters : filter_map) : filter_map :=
  match filter is_search_term (Js.split_ws text) with
  | [] => filters
  | searchTerms => <[ "q" := VStr (Js.join " " searchTerms) ]> filters
  end.

Definition parseNaturalLanguageQuery (question : string) : filter_map :=
  let lowerQuestion := Js.trim (Js.toLowerCase question) in
  let filters := set_family "delivery_mode" deliveryModePatterns lowerQuestion ∅ in
  let filters := set_family "level" levelPatterns lowerQuestion filters in
  let filters := apply_first feeRegexes lowerQuestion filters in
  let filters := apply_first ratingRegexes lowerQuestion filters in
  let filters := apply_first creditRegexes lowerQuestion filters in
  let filters := set_family "department" departmentKeywords lowerQuestion filters in
  let filters := set_year lowerQuestion filters in
  set_search_terms lowerQuestion filters.

End Ask.

(** *** Running the filters: [executeFilteredQuery] *)

Module AskQuery.

Import Sql.

Definition build_where (filters : filter_map) : builder :=
  let b := start in
  let b := push_if (truthy (filters !! "q")) text_search
             (Like (default VNull (filters !! "q"))) b in
  let b := push_if (truthy (filters !! "department")) (cmp "department ILIKE ")
             (Like (default VNull (filters !! "department"))) b in
  let b := push_if (truthy (filters !! "level")) (cmp "level = ")
             (Plain (default VNull (filters !! "level"))) b in
  let b := push_if (truthy (filters !! "delivery_mode")) (cmp "delivery_mode = ")
             (Plain (default VNull (filters !! "delivery_mode"))) b in
  let b := push_if (truthy (filters !! "year_offered")) (cmp "year_offered = ")
             (Plain (default VNull (filters !! "year_offered"))) b in
  let b := push_if (defined (filters !! "min_fee")) (cmp "tuition_fee_inr >= ")
             (Plain (default VNull (filters !! "min_fee"))) b in
  let b := push_if (defined (filters !! "max_fee")) (cmp "tuition_fee_inr <= ")
             (Plain (default VNull (filters !! "max_fee"))) b in
  let b := push_if (defined (filters !! "min_rating")) (cmp "rating >= ")
             (Plain (default VNull (filters !! "min_rating"))) b in
  let b := push_if (defined (filters !! "max_rating")) (cmp "rating <= ")
             (Plain (default VNull (filters !! "max_rating"))) b in
  let b := push_if (defined (filters !! "min_credits")) (cmp "credits >= ")
             (Plain (default VNull (filters !! "min_credits"))) b in
  let b := push_if (defined (filters !! "max_credits")) (cmp "credits <= ")
             (Plain (default VNull (filters !! "max_credits"))) b in
  b.

Definition countQuery (b : builder) : count_query :=
  CountQuery (conditions b) (queryParams b).

(** The SELECT query: the same fragments, the fixed order, and
    [LIMIT $n OFFSET $n+1] with [perPage] and [offset] appended. *)
Definition mainQuery (b : builder) (page perPage : Js.number) : select_query :=
  SelectQuery (conditions b) "rating DESC, course_name ASC"
              (paramCounter b) (paramCounter b + 1)
              (queryParams b ++ [Plain (VNum perPage); Plain (VNum (offset page perPage))]).

(** [row.rating.toString()], in the conversion of the rows for display,
    throws on a row whose rating is [null]. *)
Definition displayable (rows : list course) : bool :=
  forallb (fun row => bool_decide (is_Some (rating row))) rows.

(** [None] is the error the function throws: when a query fails, and
    when a row cannot be converted for display.  The rows are passed on
    as the store returns them; what the conversion makes of their fields
    is left out. *)
Definition executeFilteredQuery (db : store) (filters : filter_map)
    (page perPage : Js.number) : option search_response :=
  let b := build_where filters in
  totalCount ← run_count db (countQuery b);
  rows ← run_select db (mainQuery b page perPage);
  if displayable rows
  then Some (SearchResponse rows (make_meta totalCount (Some page) (Some perPage)))
  else None.

End AskQuery.

(** *** The handler *)

Module AskRoute.

(** A field of the JSON body. *)
Inductive json : Type :=
| JUndefined
| JNull
| JBool (b : bool)
| JNumber (z : Z)
| JString (s : string).

(** [parseInt(v)]: the text of [v] is parsed; the text of an integer
    that a number holds exactly is its decimal writing (an integer from
    [10^21] on is written with an exponent, which is not modelled: the
    properties are stated below [2^53]), the texts of [null], [undefined]
    and the booleans have no digit in front. *)
Definition parseInt_json (v : json) : Js.number :=
  match v with
  | JNumber z => Js.of_Z z
  | JString s => Js.parseInt s
  | _ => Js.NaN
  end.

(** [x || d] on numbers. *)
Definition or_default (x d : Js.number) : Js.number :=
  if Js.number_truthy x then x else d.

(** The default of a destructured field applies when it is [undefined]. *)
Definition with_default (v d : json) : json :=
  match v with JUndefined => d | _ => v end.

Definition pageNum (page : json) : Js.number :=
  Js.Math_max (Js.of_Z 1)
    (or_default (parseInt_json (with_default page (JNumber 1))) (Js.of_Z 1)).

Definition perPage (per_page : json) : Js.number :=
  Js.Math_min (Js.of_Z 100)
    (Js.Math_max (Js.of_Z 1)
       (or_default (parseInt_json (with_default per_page (JNumber 10))) (Js.of_Z 10))).

(** [question] is the text of the body, [None] when the field is
    missing. *)
Definition ask (db : store) (question : option string) (page per_page : json)
    : reply search_response :=
  match question with
  | None | Some "" => BadRequest "Missing question"
  | Some text =>
      let filters := Ask.parseNaturalLanguageQuery text in
      match AskQuery.executeFilteredQuery db filters (pageNum page) (perPage per_page) with
      | Some result => Ok result
      | None => ServerError
      end
  end.

End AskRoute.

(** ** The explicit-parameter route: [GET /api/courses] *)

Module Courses.

Import Sql.

(** The query string: every parameter is absent or a text.  (A
    parameter given twice or with brackets, which reaches the handler as
    an array or an object, is outside the embedding.) *)
Record query : Type := Query {
  q : option string;
  department : option string;
  level : option string;
  delivery_mode : option string;
  min_fee : option string;
  max_fee : option string;
  min_rating : option string;
  max_rating : option string;
  min_credits : option string;
  max_credits : option string;
  min_duration_weeks : option string;
  max_duration_weeks : option string;
  year_offered : option string;
  page : option string;
  per_page : option string;
  sort_by : option string;
  sort_dir : option string
}.

(** The errors the two validators throw; each message starts with
    [Invalid]. *)
Inductive invalid : Type :=
| MustBeNumber (name : string)
| MustBeInteger (name : string)
| MustBeAtLeast (name : string) (min : Js.number)
| MustBeAtMost (name : string) (max : Js.number).

(** A computation that returns or throws. *)
Inductive outcome (A : Type) : Type :=
| Return (a : A)
| Throw (e : invalid).

Arguments Return {A} a.
Arguments Throw {A} e.

Definition bind {A B : Type} (f : A -> outcome B) (m : outcome A) : outcome B :=
  match m with
  | Return a => f a
  | Throw e => Throw e
  end.

#[local] Instance outcome_bind : MBind outcome := @bind.

(** The range checks the two validators share. *)
Definition check_range (num : Js.number) (name : string) (min max : nullable)
    : outcome nullable :=
  match min with
  | Some lo => if Js.lt num lo then Throw (MustBeAtLeast name lo) else
      match max with
      | Some hi => if Js.gt num hi then Throw (MustBeAtMost name hi) else Return (Some num)
      | None => Return (Some num)
      end
  | None =>
      match max with
      | Some hi => if Js.gt num hi then Throw (MustBeAtMost name hi) else Return (Some num)
      | None => Return (Some num)
      end
  end.

Definition validateNumber (value : option string) (name : string) (min max : nullable)
    : outcome nullable :=
  match value with
  | None | Some "" => Return None
  | Some text =>
      let num := Js.parseFloat text in
      if Js.isNaN num then Throw (MustBeNumber name)
      else check_range num name min max
  end.

Definition validateInteger (value : option string) (name : string) (min max : nullable)
    : outcome nullable :=
  match value with
  | None | Some "" => Return None
  | Some text =>
      let num := Js.parseInt text in
      if Js.isNaN num || negb (Js.isInteger (Js.parseFloat text))
      then Throw (MustBeInteger name)
      else check_range num name min max
  end.

Record validated : Type := Validated {
  v_min_fee : nullable;
  v_max_fee : nullable;
  v_min_rating : nullable;
  v_max_rating : nullable;
  v_min_credits : nullable;
  v_max_credits : nullable;
  v_min_duration_weeks : nullable;
  v_max_duration_weeks : nullable;
  v_year_offered : nullable;
  v_page : nullable;
  v_per_page : nullable
}.

Definition num (z : Z) : nullable := Some (Js.of_Z z).

(** The defaults of the destructured parameters; a default number
    reaches the validator as its text. *)
Definition page_or_default (r : query) : option string :=
  Some (default "1" (page r)).

Definition per_page_or_default (r : query) : option string :=
  Some (default "10" (per_page r)).

Definition sort_by_or_default (r : query) : string := default "course_id" (sort_by r).
Definition sort_dir_or_default (r : query) : string := default "asc" (sort_dir r).

(** Step 2: the object literal [validatedParams], field after field. *)
Definition validate (r : query) : outcome validated :=
  a ← validateNumber (min_fee r) "min_fee" (num 0) None;
  b ← validateNumber (max_fee r) "max_fee" (num 0) None;
  c ← validateNumber (min_rating r) "min_rating" (num 0) (num 5);
  d ← validateNumber (max_rating r) "max_rating" (num 0) (num 5);
  e ← validateInteger (min_credits r) "min_credits" (num 1) None;
  f ← validateInteger (max_credits r) "max_credits" (num 1) None;
  g ← validateInteger (min_duration_weeks r) "min_duration_weeks" (num 1) None;
  h ← validateInteger (max_duration_weeks r) "max_duration_weeks" (num 1) None;
  i ← validateInteger (year_offered r) "year_offered" (num 1900) (num 2100);
  j ← validateInteger (page_or_default r) "page" (num 1) None;
  k ← validateInteger (per_page_or_default r) "per_page" (num 1) (num 100);
  Return (Validated a b c d e f g h i j k).

(** Step 3: the enumerations. *)
Definition validLevels : list string := ["UG"; "PG"].
Definition validDeliveryModes : list string := ["online"; "offline"; "hybrid"].
Definition validSortColumns : list string :=
  ["rating"; "tuition_fee_inr"; "credits"; "duration_weeks"; "course_id"; "course_name"; "year_offered"].
Definition validSortDirections : list string := ["asc"; "desc"].

(** [if (s)] on an optional text. *)
Definition present (s : option string) : bool :=
  match s with
  | None | Some "" => false
  | Some _ => true
  end.

Definition text (s : option string) : string := default "" s.

(** The first enumeration that refuses the request, with the error of
    its [400]. *)
Definition check_enums (r : query) : option string :=
  if present (level r) && negb (Js.array_includes validLevels (Js.toUpperCase (text (level r))))
  then Some "Invalid level parameter"
  else if present (delivery_mode r) &&
          negb (Js.array_includes validDeliveryModes (Js.toLowerCase (text (delivery_mode r))))
  then Some "Invalid delivery_mode parameter"
  else if negb (String.eqb (sort_by_or_default r) "") &&
          negb (Js.array_includes validSortColumns (sort_by_or_default r))
  then Some "Invalid sort_by parameter"
  else if negb (String.eqb (sort_dir_or_default r) "") &&
          negb (Js.array_includes validSortDirections (Js.toLowerCase (sort_dir_or_default r)))
  then Some "Invalid sort_dir parameter"
  else None.

(** Step 4: the WHERE clause. *)
Definition build_where (r : query) (v : validated) : builder :=
  let b := start in
  let b := push_if (present (q r) && negb (String.eqb (Js.trim (text (q r))) ""))
             text_search (Like (VStr (Js.trim (text (q r))))) b in
  let b := push_if (present (department r) && negb (String.eqb (Js.trim (text (department r))) ""))
             (cmp "department ILIKE ") (Plain (VStr (Js.trim (text (department r))))) b in
  let b := push_if (present (level r)) (cmp "level = ")
             (Plain (VStr (Js.toUpperCase (text (level r))))) b in
  let b := push_if (present (delivery_mode r)) (cmp "delivery_mode = ")
             (Plain (VStr (Js.toLowerCase (text (delivery_mode r))))) b in
  let b := push_if (present (year_offered r)) (cmp "year_offered = ")
             (Plain (to_value (v_year_offered v))) b in
  let b := push_if (bool_decide (v_min_fee v <> None)) (cmp "tuition_fee_inr >= ")
             (Plain (to_value (v_min_fee v))) b in
  let b := push_if (bool_decide (v_max_fee v <> None)) (cmp "tuition_fee_inr <= ")
             (Plain (to_value (v_max_fee v))) b in
  let b := push_if (bool_decide (v_min_rating v <> None)) (cmp "rating >= ")
             (Plain (to_value (v_min_rating v))) b in
  let b := push_if (bool_decide (v_max_rating v <> None)) (cmp "rating <= ")
             (Plain (to_value (v_max_rating v))) b in
  let b := push_if (bool_decide (v_min_credits v <> None)) (cmp "credits >= ")
             (Plain (to_value (v_min_credits v))) b in
  let b := push_if (bool_decide (v_max_credits v <> None)) (cmp "credits <= ")
             (Plain (to_value (v_max_credits v))) b in
  let b := push_if (bool_decide (v_min_duration_weeks v <> None)) (cmp "duration_weeks >= ")
             (Plain (to_value (v_min_duration_weeks v))) b in
  let b := push_if (bool_decide (v_max_duration_weeks v <> None)) (cmp "duration_weeks <= ")
             (Plain (to_value (v_max_duration_weeks v))) b in
  b.

Definition countQuery (b : builder) : count_query :=
  CountQuery (conditions b) (queryParams b).

(** Step 8: [ORDER BY ${sort_by} ${sort_dir.toUpperCase()}] and
    [LIMIT $n OFFSET $n+1], with [per_page] and [offset] appended. *)
Definition mainQuery (r : query) (v : validated) (b : builder) : select_query :=
  SelectQuery (conditions b)
              (sort_by_or_default r +:+ " " +:+ Js.toUpperCase (sort_dir_or_default r))
              (paramCounter b) (paramCounter b + 1)
              (queryParams b ++
               [Plain (to_value (v_per_page v));
                Plain (VNum (offset (to_number (v_page v)) (to_number (v_per_page v))))]).

(** The queries the handler sends for a request it accepts, or the
    [400] it answers before any query. *)
Definition compile (r : query) : reply (validated * count_query * select_query) :=
  match validate r with
  | Throw _ => BadRequest "Validation Error"
  | Return v =>
      match check_enums r with
      | Some error => BadRequest error
      | None =>
          let b := build_where r v in
          Ok (v, countQuery b, mainQuery r v b)
      end
  end.

(** The [catch] of the handler: an error whose message contains
    [Invalid] is answered [400], any other [500]. *)
Definition caught (message : string) : reply search_response :=
  if Js.includes message "Invalid" then BadRequest "Validation Error" else ServerError.

Definition courses (db : store) (r : query) : reply search_response :=
  match compile r with
  | BadRequest error => BadRequest error
  | ServerError => ServerError
  | Ok (v, count, main) =>
      match run_count db count with
      | None => caught (failure db)
      | Some totalCount =>
          match run_select db main with
          | None => caught (failure db)
          | Some rows =>
              Ok (SearchResponse rows (make_meta totalCount (v_page v) (v_per_page v)))
          end
      end
  end.

(** A request with no parameter. *)
Definition no_params : query :=
  Query None None None None None None None None None None None None None None None None None.

End Courses.

(** ** The comparison route: [GET /api/compare] *)

Module Compare.

(** [set.add(x)]: a set keeps its elements in insertion order and
    adding an element it has changes nothing. *)
Definition Set_add (set : list string) (x : string) : list string :=
  if Js.array_includes set x then set else set ++ [x].

(** [[...new Set(xs)]] *)
Definition new_Set (xs : list string) : list string := fold_left Set_add xs [].

(** Step 2: [ids.split(',').map(id => id.trim()).filter(id => id !== '')] *)
Definition parse_ids (ids : string) : list string :=
  filter (fun id => id <> "") (map Js.trim (Js.split_char "," ids)).

(** The value of [CASE course_id WHEN $1 THEN 1 ... ELSE n+1 END] when
    the parameters are [ids] and the first branch is numbered [from]. *)
Fixpoint case_rank (from : nat) (ids : list string) (id : string) : nat :=
  match ids with
  | [] => from
  | x :: ids' => if String.eqb id x then from else case_rank (S from) ids' id
  end.

(** Step 4 and 5: the rows of the table whose [course_id] is one of the
    parameters, in the order of the CASE expression. *)
Definition rank_le (ids : list string) (a b : course) : Prop :=
  (case_rank 1 ids (course_id a) <= case_rank 1 ids (course_id b))%nat.

#[global] Instance rank_le_dec ids a b : Decision (rank_le ids a b).
Proof. unfold rank_le. apply _. Defined.

Definition run_query (table : list course) (uniqueIds : list string) : list course :=
  merge_sort (rank_le uniqueIds)
    (filter (fun c => course_id c ∈ uniqueIds) table).

(** *** Insights *)

Record stats : Type := Stats {
  min : nullable;
  max : nullable;
  avg : nullable
}.

Record comparison_insights : Type := Insights {
  fee_range : stats;
  rating_range : stats;
  credits_range : stats;
  levels : list string;
  delivery_modes : list string;
  departments : list string
}.

(** [.filter(x => x !== null && x !== undefined && !isNaN(x))] *)
Definition numeric_values (xs : list nullable) : list Js.number :=
  omap (fun x => match x with
                 | Some v => if Js.isNaN v then None else Some v
                 | None => None
                 end) xs.

(** [Math.min(...xs)], [Math.max(...xs)] and [xs.reduce((a, b) => a + b, 0)] *)
Definition Math_min_all (xs : list Js.number) : Js.number :=
  fold_left Js.Math_min xs (Js.Inf false).

Definition Math_max_all (xs : list Js.number) : Js.number :=
  fold_left Js.Math_max xs (Js.Inf true).

Definition sum_all (xs : list Js.number) : Js.number :=
  fold_left Js.add xs (Js.of_Z 0).

Definition count_of (xs : list Js.number) : Js.number :=
  Js.of_Z (Z.of_nat (length xs)).

(** [Math.round(sum / n)] *)
Definition round_unit (xs : list Js.number) : Js.number :=
  Js.Math_round (Js.div (sum_all xs) (count_of xs)).

(** [Math.round((sum / n) * 10) / 10] *)
Definition round_tenth (xs : list Js.number) : Js.number :=
  Js.div (Js.Math_round (Js.mul (Js.div (sum_all xs) (count_of xs)) (Js.of_Z 10)))
         (Js.of_Z 10).

(** The same expression with the rounding of the doubles after every
    operation, on the doubles nearest to the values. *)
Definition round_tenth_in_doubles (xs : list Js.number) : Js.number :=
  let sum := fold_left (fun a b => Js.to_double (Js.add a b)) (map Js.to_double xs) (Js.of_Z 0) in
  Js.to_double
    (Js.div (Js.Math_round
               (Js.to_double (Js.mul (Js.to_double (Js.div sum (count_of xs))) (Js.of_Z 10))))
            (Js.of_Z 10)).

Definition range_of (average : list Js.number -> Js.number) (xs : list Js.number) : stats :=
  match xs with
  | [] => Stats None None None
  | _ => Stats (Some (Math_min_all xs)) (Some (Math_max_all xs)) (Some (average xs))
  end.

(** [.filter(Boolean)] on texts. *)
Definition nonempty (xs : list string) : list string :=
  filter (fun x => x <> "") xs.

Definition generateComparisonInsights (courses : list course) : comparison_insights :=
  let fees := numeric_values (map tuition_fee_inr courses) in
  let ratings := numeric_values (map rating courses) in
  let credits := numeric_values (map credits courses) in
  Insights (range_of round_unit fees)
           (range_of round_tenth ratings)
           (range_of round_tenth credits)
           (new_Set (nonempty (map level courses)))
           (new_Set (nonempty (map delivery_mode courses)))
           (new_Set (nonempty (omap department courses))).

(** *** The handler *)

(** [comparison_date], the time of the request, is left out. *)
Record comparison_meta : Type := Meta {
  requested_count : nat;
  found_count : nat;
  missing_count : nat
}.

Record response : Type := Response {
  courses : list course;
  missing_ids : list string;
  meta : comparison_meta;
  insights : option comparison_insights
}.

(** The handler over the table that the query reads.  (A query that
    throws, which the handler answers with a [500], is outside the
    embedding: the properties are about the requests that are refused
    and about the answers to a query that succeeds.) *)
Definition compare (table : list course) (ids : option string) : reply response :=
  match ids with
  | None | Some "" => BadRequest "Missing required parameter"
  | Some ids =>
      let courseIds := parse_ids ids in
      if (length courseIds =? 0)%nat then BadRequest "Invalid IDs format"
      else if (4 <? length courseIds)%nat then BadRequest "Too many course IDs"
      else if (0 <? length (filter (fun id => id = "") courseIds))%nat
      then BadRequest "Invalid IDs format"
      else
        let uniqueIds := new_Set courseIds in
        let foundCourses := run_query table uniqueIds in
        let foundIds := map course_id foundCourses in
        let missingIds := filter (fun id => negb (Js.array_includes foundIds id)) uniqueIds in
        let comparisonMeta := Meta (length uniqueIds) (length foundCourses) (length missingIds) in
        let insights :=
          if (1 <? length foundCourses)%nat
          then Some (generateComparisonInsights foundCourses) else None in
        Ok (Response foundCourses missingIds comparisonMeta insights)
  end.

End Compare.

(** ** The ingestion route: [POST /api/ingest]

    The uploaded file is read by the CSV library; the route sees the
    records, one object a line, from the column names of the header to
    the texts of the line.  The upsert statement is interpreted over the
    table of rows.  The store can refuse a row (a value that does not fit
    its column, a constraint): [accepts] says which rows it takes. *)

Module Ingest.

Abbreviation record := (gmap string string).

(** [!row[field] || row[field].trim() === ''] *)
Definition blank (row : record) (field : string) : bool :=
  match row !! field with
  | None | Some "" => true
  | Some text => String.eqb (Js.trim text) ""
  end.

Definition requiredFields : list string :=
  ["course_id"; "course_name"; "level"; "delivery_mode"].

(** Step 6: [requiredFields.filter(field => ...)] *)
Definition missingFields (row : record) : list string :=
  filter (fun field => blank row field = true) requiredFields.

(** [row.field.trim()] on a required field. *)
Definition required (row : record) (field : string) : string :=
  Js.trim (default "" (row !! field)).

(** [row.field ? f(row.field) : null] *)
Definition optional {A : Type} (f : string -> A) (row : record) (field : string) : option A :=
  match row !! field with
  | None | Some "" => None
  | Some text => Some (f text)
  end.

(** Step 7: the row to store. *)
Definition courseData (row : record) : course :=
  Course (required row "course_id")
         (required row "course_name")
         (optional Js.trim row "department")
         (required row "level")
         (required row "delivery_mode")
         (optional Js.parseInt row "credits")
         (optional Js.parseInt row "duration_weeks")
         (optional Js.parseFloat row "rating")
         (optional Js.parseInt row "tuition_fee_inr")
         (optional Js.parseInt row "year_offered").

(** Step 8: [INSERT ... ON CONFLICT (course_id) DO UPDATE SET ...
    RETURNING action].  The row of the table with the [course_id] of [c]
    takes every column of [c]; when there is none, [c] is added. *)
Inductive action : Type :=
| Inserted
| Updated.

Fixpoint upsert (table : list course) (c : course) : list course * action :=
  match table with
  | [] => ([c], Inserted)
  | r :: table' =>
      if String.eqb (course_id r) (course_id c) then (c :: table', Updated)
      else let '(t, a) := upsert table' c in (r :: t, a)
  end.

(** An entry of [failedRows]: the line of the file, and what went wrong
    (the required fields that are missing, or the error of the store,
    whose message is left out). *)
Inductive row_error : Type :=
| MissingRequired (fields : list string)
| RowError.

Record failure : Type := Failure {
  row : nat;
  error : row_error;
  data : record
}.

(** The counters of step 3. *)
Record counters : Type := Counters {
  inserted : nat;
  updated : nat;
  failed : nat;
  failedRows : list failure
}.

Definition fail (c : counters) (f : failure) : counters :=
  Counters (inserted c) (updated c) (S (failed c)) (failedRows c ++ [f])%list.

Definition count (c : counters) (a : action) : counters :=
  match a with
  | Inserted => Counters (S (inserted c)) (updated c) (failed c) (failedRows c)
  | Updated => Counters (inserted c) (S (updated c)) (failed c) (failedRows c)
  end.

(** Steps 5 to 10: the body of the loop for the record [i]. *)
Definition step (accepts : course -> bool) (st : list course * counters) (i : nat)
    (row : record) : list course * counters :=
  let '(table, c) := st in
  let rowNumber := (i + 2)%nat in
  let missing := missingFields row in
  if (0 <? length missing)%nat
  then (table, fail c (Failure rowNumber (MissingRequired missing) row))
  else
    let data := courseData row in
    if accepts data then
      let '(table', a) := upsert table data in (table', count c a)
    else (table, fail c (Failure rowNumber RowError row)).

(** [for (let i = 0; i < records.length; i++)], from the record [i] on. *)
Fixpoint process (accepts : course -> bool) (st : list course * counters) (i : nat)
    (records : list record) : list course * counters :=
  match records with
  | [] => st
  | row :: rest => process accepts (step accepts st i row) (S i) rest
  end.

(** Step 11: the summary.  Its [inserted], [updated] and [failed] are
    the counters. *)
Record response : Type := Response {
  counts : counters;
  total_processed : nat;
  failed_rows : option (list failure)
}.

Definition respond (total : nat) (c : counters) : response :=
  Response c total
    (if (0 <? failed c)%nat && (0 <? length (failedRows c))%nat
     then Some (take 10 (failedRows c)) else None).

(** Step 1: [!ingestToken || ingestToken !== expectedToken] refuses. *)
Definition authorised (ingestToken expectedToken : option string) : bool :=
  match ingestToken with
  | None | Some "" => false
  | Some token => bool_decide (expectedToken = Some token)
  end.

(** What the request carries as its upload.  The middleware
    [upload.single('csv')] runs in front of the handler: it refuses, among
    others, a file that is neither of type [text/csv] nor named [*.csv],
    a file of more than 10 MB and a file in another field than [csv], and
    hands its error to the error handler of the application.  Otherwise the handler
    sees no file, a file the CSV library cannot read, or the records of
    the file. *)
Inductive upload : Type :=
| Refused
| NoFile
| Unreadable
| Parsed (records : list record).

(** The answers: [401], [400], [500] (of the handler, or of the error
    handler of the application) and the [200] with its summary. *)
Inductive answer : Type :=
| Unauthorized
| MissingFile
| Failed
| Completed (body : response).

(** The middleware and the handler: the table they leave and what is
    answered. *)
Definition ingest (accepts : course -> bool) (expectedToken ingestToken : option string)
    (file : upload) (table : list course) : list course * answer :=
  match file with
  | Refused => (table, Failed)
  | _ =>
      if negb (authorised ingestToken expectedToken) then (table, Unauthorized)
      else
        match file with
        | Refused | Unreadable => (table, Failed)
        | NoFile => (table, MissingFile)
        | Parsed records =>
            let '(table', c) := process accepts (table, Counters 0 0 0 []) 0 records in
            (table', Completed (respond (length records) c))
        end
  end.

End Ingest.

(** ** The pages that call the routes *)

(** The comparison list of [App.jsx].  Each call sees the list of the
    latest render. *)
Module CompareProvider.

(** The new list and the result of the call. *)
Definition addToCompare (compareList : list string) (courseId : string)
    : list string * bool :=
  if negb (Js.array_includes compareList courseId) && (length compareList <? 5)%nat
  then ((compareList ++ [courseId])%list, true)
  else (compareList, false).

Definition removeFromCompare (compareList : list string) (courseId : string) : list string :=
  filter (fun id => id <> courseId) compareList.

Definition clearCompare (compareList : list string) : list string := [].

Definition isInCompare (compareList : list string) (courseId : string) : bool :=
  Js.array_includes compareList courseId.

Definition maxReached (compareList : list string) : bool :=
  (5 <=? length compareList)%nat.

(** What a user does to the list. *)
Inductive event : Type :=
| Add (courseId : string)
| Remove (courseId : string)
| Clear.

Definition handle (compareList : list string) (e : event) : list string :=
  match e with
  | Add courseId => fst (addToCompare compareList courseId)
  | Remove courseId => removeFromCompare compareList courseId
  | Clear => clearCompare compareList
  end.

(** The list after the events, from the empty list of the first
    render. *)
Definition after (events : list event) : list string := fold_left handle events [].

End CompareProvider.

(** [ComparePage.jsx]: what the page writes after [ids=] in the address
    of its request when the list is not empty, [compareList.join(',')].
    The text is not encoded: it reaches the route as it is when it is
    made of characters that an address carries unchanged. *)
Module ComparePage.

Definition fetchComparisonData (compareList : list string) : option string :=
  match compareList with
  | [] => None
  | _ => Some (Js.join "," compareList)
  end.

End ComparePage.

(** [AskAIPage]: the body [handleSubmit] posts to [/api/ask], nothing
    when the query is blank. *)
Module AskAIPage.

Record body : Type := Body {
  question : string;
  page : AskRoute.json;
  per_page : AskRoute.json
}.

Definition handleSubmit (query : string) (page : Z) : option body :=
  if String.eqb (Js.trim query) "" then None
  else Some (Body (Js.trim query) (AskRoute.JNumber page) (AskRoute.JNumber 10)).

(** The route's answer to the body. *)
Definition post (db : store) (b : body) : reply search_response :=
  AskRoute.ask db (Some (question b)) (page b) (per_page b).

End AskAIPage.

(** [Filters.jsx] and [SearchPage.jsx]: a filters object is the list of
    its entries, in the order of its keys. *)
Module SearchPage.

Definition ITEMS_PER_PAGE : Z := 10.

(** [value && value.toString().trim() !== ''] *)
Definition applied (value : string) : bool :=
  negb (String.eqb value "") && negb (String.eqb (Js.trim value) "").

(** [Object.values(filtersObj).some(...)] *)
Definition hasFiltersApplied (filtersObj : list (string * string)) : bool :=
  existsb (fun entry => applied (snd entry)) filtersObj.

(** The name of the backend parameter for a filter key. *)
Definition param_name (key : string) : string :=
  if String.eqb key "search" then "q"
  else if String.eqb key "credits_min" then "min_credits"
  else if String.eqb key "credits_max" then "max_credits"
  else if String.eqb key "duration_weeks_min" then "min_duration_weeks"
  else if String.eqb key "duration_weeks_max" then "max_duration_weeks"
  else if String.eqb key "rating_min" then "min_rating"
  else if String.eqb key "rating_max" then "max_rating"
  else if String.eqb key "tuition_fee_inr_min" then "min_fee"
  else if String.eqb key "tuition_fee_inr_max" then "max_fee"
  else key.

(** The entries of the [URLSearchParams] object, in the order they are
    appended. *)
Definition buildQueryParams (filtersObj : list (string * string)) (page : Z)
    : list (string * string) :=
  (map (fun entry => (param_name (fst entry), snd entry))
       (filter (fun entry => applied (snd entry) = true) filtersObj)
   ++ [("page", pretty page); ("per_page", pretty ITEMS_PER_PAGE)])%list.

(** [handlePageChange]: the current page after a request for [page]. *)
Definition handlePageChange (currentPage totalPages page : Z) : Z :=
  if (1 <=? page)%Z && (page <=? totalPages)%Z then page else currentPage.

End SearchPage.

Module Filters.

(** [DEFAULT_OPTIONS]: what the drop-down lists offer. *)
Definition departments : list string :=
  ["Computer Science"; "Management"; "Electrical Engineering"; "Arts"; "Design";
   "Law"; "Medicine"; "Commerce"].
Definition levels : list string := ["UG"; "PG"].
Definition delivery_modes : list string := ["online"; "offline"; "hybrid"].

(** The state of the component on its first render. *)
Definition initialFilters : list (string * string) :=
  [("q", ""); ("department", ""); ("level", ""); ("delivery_mode", "");
   ("year_offered", ""); ("min_credits", ""); ("max_credits", "");
   ("min_duration_weeks", ""); ("max_duration_weeks", ""); ("min_rating", "");
   ("max_rating", ""); ("min_fee", ""); ("max_fee", "")].

(** [handleFilterChange]: [{ ...filters, [key]: value }], the value of
    [key] replaced in its place, or the entry added at the end. *)
Fixpoint handleFilterChange (filters : list (string * string)) (key value : string)
    : list (string * string) :=
  match filters with
  | [] => [(key, value)]
  | (k, v) :: rest =>
      if String.eqb k key then (k, value) :: rest
      else (k, v) :: handleFilterChange rest key value
  end.

(** [clearFilters]: every key of the state, with the empty text. *)
Definition clearFilters (filters : list (string * string)) : list (string * string) :=
  map (fun entry => (fst entry, "")) filters.

End Filters.

(** * Vocabulary of the properties *)

Open Scope list_scope.




Section BuilderVocabulary.

Import Sql.

(** A template that refers to the current placeholder and to no other. *)
Definition single (t : nat -> fragment) : Prop :=
  forall n, remove_dups (placeholders (t n)) = [n].

(** The builder invariant: the counter is one past the parameters, and
    the fragments refer to the placeholders [1 .. length queryParams], in
    this order. *)
Definition aligned (b : builder) : Prop :=
  paramCounter b = S (length (queryParams b)) /\
  distinct_placeholders (conditions b) = seq 1 (length (queryParams b)).

(** The builder starts with the fragment [f] and the parameter [v]. *)
Definition headed (f : fragment) (v : param) (b : builder) : Prop :=
  exists cs ps, conditions b = f :: cs /\ queryParams b = v :: ps.

(** The SELECT query [main] built from [b] with the pagination values
    [limit] and [skip]. *)
Definition select_aligned (b : builder) (main : select_query) (limit skip : value) : Prop :=
  select_where main = conditions b /\
  select_params main = (queryParams b ++ [Plain limit; Plain skip])%list /\
  length (select_params main) = (length (distinct_placeholders (select_where main)) + 2)%nat /\
  distinct_placeholders (select_where main) = seq 1 (length (queryParams b)) /\
  limit_placeholder main = (length (queryParams b) + 1)%nat /\
  offset_placeholder main = (length (queryParams b) + 2)%nat.

End BuilderVocabulary.

(** The request [r] without its [q] parameter. *)
Definition without_q (r : Courses.query) : Courses.query :=
  Courses.Query None (Courses.department r) (Courses.level r) (Courses.delivery_mode r)
    (Courses.min_fee r) (Courses.max_fee r) (Courses.min_rating r) (Courses.max_rating r)
    (Courses.min_credits r) (Courses.max_credits r)
    (Courses.min_duration_weeks r) (Courses.max_duration_weeks r)
    (Courses.year_offered r) (Courses.page r) (Courses.per_page r)
    (Courses.sort_by r) (Courses.sort_dir r).

(** The [q] parameter of [r] is populated: present and not blank. *)
Definition q_populated (r : Courses.query) : bool :=
  Courses.present (Courses.q r) && negb (String.eqb (Js.trim (Courses.text (Courses.q r))) "").

(** The text of the scenario. *)
Definition scenario_text : string :=
  "online postgraduate management courses rated above 4".

(** The filter map the scenario expects. *)
Definition scenario_claimed : filter_map :=
  {[ "delivery_mode" := VStr "online";
     "level" := VStr "PG";
     "department" := VStr "Management";
     "min_rating" := VNum (Js.of_Z 4) ]}.

(** The filter map the extractor returns: [above 4] is also read as a
    fee, and [above] is kept as a search term. *)
Definition scenario_extracted : filter_map :=
  {[ "delivery_mode" := VStr "online";
     "level" := VStr "PG";
     "department" := VStr "Management";
     "min_rating" := VNum (Js.of_Z 4);
     "min_fee" := VNum (Js.of_Z 4);
     "q" := VStr "above" ]}.

(** The position of the first occurrence of [x] in [l]; the length of
    [l] when there is none. *)
Fixpoint first_index (l : list string) (x : string) : nat :=
  match l with
  | [] => 0
  | y :: l' => if decide (x = y) then 0 else S (first_index l' x)
  end.

(** [x] is listed in [ids] no later than [y]. *)
Definition listed_before (ids : list string) (x y : string) : Prop :=
  first_index ids x <= first_index ids y.

(** A small table, stored in the order 1, 2, 3. *)
Definition sample_row (id : string) (fee score size : Z) : course :=
  Course id ("Course " +:+ id) (Some "Design") "UG" "online"
         (Some (Js.of_Z size)) (Some (Js.of_Z 12)) (Some (Js.of_Z score))
         (Some (Js.of_Z fee)) (Some (Js.of_Z 2024)).

Definition sample_table : list course :=
  [sample_row "1" 100 4 3; sample_row "2" 201 5 4; sample_row "3" 50 3 4].



(** A store with [t] rows that match and an empty page. *)
Definition sample_store (t : Z) : store :=
  Store (fun _ => Some (Js.of_Z t)) (fun _ => Some []) "connection refused".

(** A filter set and a request with a populated [q]. *)
Definition sample_filters : filter_map :=
  {[ "q" := VStr "python"; "max_fee" := VNum (Js.of_Z 50000) ]}.

Definition sample_query : Courses.query :=
  Courses.Query (Some " python ") None (Some "ug") None None (Some "50000") None None
                None None None None None (Some "2") (Some "10") None None.


(** The builder holds the fragments [credits >= $n] and
    [credits <= $n+1], next to each other, with the parameters [lo] and
    [hi] at the positions [n] and [n+1]. *)
Definition carries_credit_bounds (b : Sql.builder) (lo hi : Js.number) : Prop :=
  exists pre post ppre ppost n,
    Sql.conditions b =
      pre ++ [Sql.cmp "credits >= " n; Sql.cmp "credits <= " (S n)] ++ post /\
    Sql.queryParams b =
      ppre ++ [Sql.Plain (VNum lo); Sql.Plain (VNum hi)] ++ ppost /\
    n = S (length ppre).

(** The request [min_credits=10&max_credits=4]. *)
Definition reversed_credits : Courses.query :=
  Courses.Query None None None None None None None None (Some "10") (Some "4")
                None None None None None None None.





(** The sum and the arithmetic mean of [qs]. *)
Definition Qsum (qs : list Q) : Q := foldr Qplus 0%Q qs.

Definition mean (qs : list Q) : Q :=
  (Qsum qs / inject_Z (Z.of_nat (length qs)))%Q.



(** [a] is a multiple of one tenth, at most one twentieth away from
    [m]: [m] rounded to one decimal place, to either side on a tie. *)
Definition rounded_to_tenth (a m : Q) : Prop :=
  exists z : Z, (a == inject_Z z / 10)%Q /\ (m - (1 # 20) <= a /\ a <= m + (1 # 20))%Q.




Section PatternVocabulary.

Import Regex.

(** [r] has no capturing group. *)
Fixpoint no_group (r : regex) : bool :=
  match r with
  | Eps | Cls _ => true
  | Seq r1 r2 | Alt r1 r2 => no_group r1 && no_group r2
  | Star r1 => no_group r1
  | Cap _ _ => false
  end.

(** The character [c] is accepted by a class of [r]. *)
Fixpoint in_alphabet (r : regex) (c : ascii) : bool :=
  match r with
  | Eps => false
  | Cls p => p c
  | Seq r1 r2 | Alt r1 r2 => in_alphabet r1 c || in_alphabet r2 c
  | Star r1 | Cap _ r1 => in_alphabet r1 c
  end.

(** Every character of [s] satisfies [p]. *)
Fixpoint all_chars (p : ascii -> bool) (s : string) : bool :=
  match s with
  | EmptyString => true
  | String c t => p c && all_chars p t
  end.

(** A matcher that depends on its continuation only through the
    results of the continuation. *)
Definition extensional (body : matcher) : Prop :=
  forall k k' s cs, (forall s' cs', k s' cs' = k' s' cs') -> body k s cs = body k' s cs.

End PatternVocabulary.

(** [lo] and [hi] are the lesser and the greater of [x] and [y]. *)
Definition ordered_pair (x y lo hi : Q) : Prop :=
  (lo = x \/ lo = y) /\ (hi = x \/ hi = y) /\
  (lo <= x /\ lo <= y /\ x <= hi /\ y <= hi /\ lo <= hi)%Q.

(** The key [k] is not among the keys the handlers of [rules] set. *)
Definition untouched (rules : list Ask.rule) (k : string) : Prop :=
  Forall (fun rule : Ask.rule => forall m, snd rule m !! k = None) rules.

(** A question with a fee, a rating and a credits range, each given
    with the greater bound first. *)
Definition ranges_question : string :=
  "between 80000 and 40000 rated between 4.5 and 3 from 6 to 3 credits".

(** The keys of a raw filter map. *)
Definition filter_keys : list string :=
  ["delivery_mode"; "level"; "min_fee"; "max_fee"; "min_rating"; "max_rating";
   "min_credits"; "max_credits"; "department"; "year_offered"; "q"].

(** A keyword of [patterns] occurs in [text]. *)
Definition mentions (text : string) (patterns : list string) : Prop :=
  exists p, p ∈ patterns /\ Js.includes text p = true.

(** [name] is the first family of [table] with a keyword in [text]. *)
Definition first_mentioned (text : string) (table : list (string * list string))
    (name : string) : Prop :=
  exists before patterns after,
    table = before ++ (name, patterns) :: after /\
    mentions text patterns /\
    Forall (fun family => ~ mentions text (snd family)) before.

(** No family of [table] has a keyword in [text]. *)
Definition unmentioned (text : string) (table : list (string * list string)) : Prop :=
  Forall (fun family => ~ mentions text (snd family)) table.
(** [w] is a number: a non-empty run of digits. *)
Definition is_number (w : string) : Prop :=
  w <> "" /\ all_chars Js.is_digit w = true.

Section QueryVocabulary.

Import Sql.

(** The builder state is in step: as many fragments as parameters, and
    the counter one past them. *)
Definition synced (b : builder) : Prop :=
  length (conditions b) = length (queryParams b) /\
  paramCounter b = S (length (queryParams b)).

(** The builder holds the predicate [t], written for the placeholder of
    its position, with the parameter [p] at the same position. *)
Definition binds (b : builder) (t : nat -> fragment) (p : param) : Prop :=
  exists i, conditions b !! i = Some (t (S i)) /\ queryParams b !! i = Some p.

(** The predicate and the parameter that [executeFilteredQuery] has
    for a key of the filter map and its value. *)
Definition predicate_of (key : string) (v : value) : option ((nat -> fragment) * param) :=
  if String.eqb key "q" then Some (text_search, Like v)
  else if String.eqb key "department" then Some (cmp "department ILIKE ", Like v)
  else if String.eqb key "level" then Some (cmp "level = ", Plain v)
  else if String.eqb key "delivery_mode" then Some (cmp "delivery_mode = ", Plain v)
  else if String.eqb key "year_offered" then Some (cmp "year_offered = ", Plain v)
  else if String.eqb key "min_fee" then Some (cmp "tuition_fee_inr >= ", Plain v)
  else if String.eqb key "max_fee" then Some (cmp "tuition_fee_inr <= ", Plain v)
  else if String.eqb key "min_rating" then Some (cmp "rating >= ", Plain v)
  else if String.eqb key "max_rating" then Some (cmp "rating <= ", Plain v)
  else if String.eqb key "min_credits" then Some (cmp "credits >= ", Plain v)
  else if String.eqb key "max_credits" then Some (cmp "credits <= ", Plain v)
  else None.

End QueryVocabulary.
(** A validated parameter is absent, or a whole number from [lo] up to
    [hi] when there is a [hi]. *)
Definition whole_in (lo : Z) (hi : option Z) (x : nullable) : Prop :=
  match x with
  | None => True
  | Some y =>
      exists z, y = Js.of_Z z /\ (lo <= z)%Z /\
                match hi with Some h => (z <= h)%Z | None => True end
  end.



(** The errors of the [400] answers of the courses route. *)
Definition courses_errors : list string :=
  ["Validation Error"; "Invalid level parameter"; "Invalid delivery_mode parameter";
   "Invalid sort_by parameter"; "Invalid sort_dir parameter"].

(** An ASCII character: on these the case mappings of the embedding are
    those of JavaScript. *)
Definition is_ascii (c : ascii) : bool := (Ascii.nat_of_ascii c <? 128)%nat.

(** [w] is a keyword of a family of the table. *)
Definition keyword_of (table : list (string * list string)) (w : string) : Prop :=
  exists name ws, (name, ws) ∈ table /\ w ∈ ws.

(** The words about numbers that the residue drops besides the keywords
    of the tables. *)
Definition generic_words : list string :=
  ["rating"; "rated"; "star"; "stars"; "credit"; "credits";
   "fee"; "fees"; "cost"; "costs"; "price"; "year"].

(** A store whose queries fail with the error [message]. *)
Definition failing_store (message : string) : store :=
  Store (fun _ => None) (fun _ => None) message.

(** The request [r] without its [department] parameter. *)
Definition without_department (r : Courses.query) : Courses.query :=
  Courses.Query (Courses.q r) None (Courses.level r) (Courses.delivery_mode r)
    (Courses.min_fee r) (Courses.max_fee r) (Courses.min_rating r) (Courses.max_rating r)
    (Courses.min_credits r) (Courses.max_credits r)
    (Courses.min_duration_weeks r) (Courses.max_duration_weeks r)
    (Courses.year_offered r) (Courses.page r) (Courses.per_page r)
    (Courses.sort_by r) (Courses.sort_dir r).

(** The [department] parameter of [r] is populated. *)
Definition department_populated (r : Courses.query) : bool :=
  Courses.present (Courses.department r) &&
  negb (String.eqb (Js.trim (Courses.text (Courses.department r))) "").

(** A parameter that holds [null]. *)
Definition is_null (p : Sql.param) : Prop :=
  p = Sql.Plain VNull \/ p = Sql.Like VNull.
(** A character that is no comma. *)
Definition no_comma (c : ascii) : bool := negb (Ascii.eqb c ",").

(** An id as the comparison route reads it from its [ids] parameter:
    not empty, with no white space around it and with no comma. *)
Definition clean_id (id : string) : Prop :=
  id <> "" /\ Js.trim id = id /\ all_chars no_comma id = true.

(** A character that an address carries as it is: a letter, a digit or
    one of [-], [.], [_] and [~]. *)
Definition is_unreserved (c : ascii) : bool :=
  let n := Ascii.nat_of_ascii c in
  ((48 <=? n)%nat && (n <=? 57)%nat) || ((65 <=? n)%nat && (n <=? 90)%nat) ||
  ((97 <=? n)%nat && (n <=? 122)%nat) ||
  (n =? 45)%nat || (n =? 46)%nat || (n =? 95)%nat || (n =? 126)%nat.

(** An id made of such characters: the text the page writes after
    [ids=] is then the text the route receives. *)
Definition plain_id (id : string) : Prop :=
  id <> "" /\ all_chars is_unreserved id = true.

(** The three errors of the comparison route. *)
Definition compare_errors : list string :=
  ["Missing required parameter"; "Invalid IDs format"; "Too many course IDs"].

(** [out] lists the distinct elements of [src] once each, in the order
    of their first occurrence in [src]. *)
Definition distinct_in_order (out src : list string) : Prop :=
  NoDup out /\ (forall x, x ∈ out <-> x ∈ src) /\
  StronglySorted lt (first_index src <$> out).
(** A record of an uploaded file is rejected: a required field is
    missing, or the store refuses its row. *)
Definition rejected (accepts : course -> bool) (r : Ingest.record) : bool :=
  negb (bool_decide (Ingest.missingFields r = [])) || negb (accepts (Ingest.courseData r)).

(** The rows of the records that are not rejected, in the order of
    the file. *)
Definition stored (accepts : course -> bool) (records : list Ingest.record) : list course :=
  Ingest.courseData <$> filter (fun r => rejected accepts r = false) records.

(** What [failedRows] holds for the records, when they start at the
    index [i]: for every rejected record its line (the header is line 1),
    what is wrong with it, and the record. *)
Definition rejection (r : Ingest.record) : Ingest.row_error :=
  if bool_decide (Ingest.missingFields r = []) then Ingest.RowError
  else Ingest.MissingRequired (Ingest.missingFields r).

Fixpoint failures (accepts : course -> bool) (i : nat) (records : list Ingest.record)
    : list Ingest.failure :=
  match records with
  | [] => []
  | r :: rest =>
      (if rejected accepts r then [Ingest.Failure (i + 2) (rejection r) r] else [])
      ++ failures accepts (S i) rest
  end.

(** The last of [rows] with the id [id]. *)
Definition latest (rows : list course) (id : string) : option course :=
  last (filter (fun c => course_id c = id) rows).
(** A small file: a row, a row without its name, and the first row
    again with another name. *)
Definition sample_record (id name : string) : Ingest.record :=
  {[ "course_id" := id; "course_name" := name; "level" := "UG";
     "delivery_mode" := "online"; "credits" := "4" ]}.

Definition sample_file : list Ingest.record :=
  [sample_record "CS101" "Algorithms"; sample_record "CS102" "";
   sample_record " CS101 " "Algorithms II"].

(** A store that takes every row. *)
Definition accept_all (c : course) : bool := true.
(** The names of the parameters the courses route reads. *)
Definition courses_parameters : list string :=
  ["q"; "department"; "level"; "delivery_mode"; "min_fee"; "max_fee"; "min_rating";
   "max_rating"; "min_credits"; "max_credits"; "min_duration_weeks";
   "max_duration_weeks"; "year_offered"; "page"; "per_page"; "sort_by"; "sort_dir"].

(** The pagination entries that end every query of the search page. *)
Definition page_entries (page : Z) : list (string * string) :=
  [("page", pretty page); ("per_page", "10")].

(** * Properties *)


(** ** Arithmetic of integer-valued numbers *)

Section NumberFacts.

Import Js.

Lemma Qred_inject_Z (z : Z) : Qred (inject_Z z) = inject_Z z.
Proof. apply Qred_identity. simpl. apply Z.gcd_1_r. Qed.

Lemma Qred_integer (q : Q) (z : Z) : (q == inject_Z z)%Q -> Qred q = inject_Z z.
Proof. intros H. rewrite (Qred_complete _ _ H). apply Qred_inject_Z. Qed.


Lemma add_of_Z (a b : Z) : add (of_Z a) (of_Z b) = of_Z (a + b).
Proof.
  unfold add, of_Z. f_equal. apply Qred_integer. unfold Qeq. simpl. lia.
Qed.


Lemma Qltb_spec (a b : Q) : Qltb a b = true <-> (a < b)%Q.
Proof.
  unfold Qltb. rewrite negb_true_iff, <- not_true_iff_false, Qle_bool_iff.
  split; [apply Qnot_le_lt | apply Qlt_not_le].
Qed.

Lemma lt_of_Z (a b : Z) : lt (of_Z a) (of_Z b) = true <-> (a < b)%Z.
Proof. unfold lt, of_Z. rewrite Qltb_spec, <- Zlt_Qlt. reflexivity. Qed.

Lemma lt_of_Z_bool (a b : Z) : lt (of_Z a) (of_Z b) = bool_decide (a < b)%Z.
Proof.
  apply eq_true_iff_eq. rewrite lt_of_Z, bool_decide_eq_true. reflexivity.
Qed.

Lemma Qis_zero_inject_Z (z : Z) : Qis_zero (inject_Z z) = bool_decide (z = 0%Z).
Proof.
  apply eq_true_iff_eq. unfold Qis_zero. rewrite Qeq_bool_iff, bool_decide_eq_true.
  unfold Qeq. simpl. lia.
Qed.




End NumberFacts.

(** ** Where the doubles of the code are exact *)

Section Doubles.

Import Js.









End Doubles.

Section DoubleDivision.

Import Js.

Lemma pow2_pos (e : Z) : (0 < pow2 e)%Q.
Proof.
  destruct e as [|p|p]; cbn [pow2]; [reflexivity| |reflexivity].
  change 0%Q with (inject_Z 0). rewrite <- Zlt_Qlt. apply Z.pow_pos_nonneg; lia.
Qed.









End DoubleDivision.

(** ** Pagination (C6) *)





(** ** Placeholders and parameters (C1) *)

Section BuilderFacts.

Import Sql.

Lemma remove_dups_app_disjoint (l1 l2 : list nat) :
  (forall x, x ∈ l1 -> x ∉ l2) ->
  remove_dups (l1 ++ l2) = remove_dups l1 ++ remove_dups l2.
Proof.
  induction l1 as [|x l1 IH]; intros Hdis; [reflexivity|].
  simpl. assert (Hx : x ∉ l2) by (apply Hdis; left).
  rewrite IH by (intros y Hy; apply Hdis; right; exact Hy).
  destruct (decide_rel elem_of x (l1 ++ l2)) as [Hin|Hout];
    destruct (decide_rel elem_of x l1) as [Hin'|Hout']; try reflexivity.
  - apply elem_of_app in Hin as [?|?]; contradiction.
  - exfalso. apply Hout, elem_of_app. left. exact Hin'.
Qed.

Lemma single_cmp (lhs : string) : single (cmp lhs).
Proof. intros n. reflexivity. Qed.

Lemma single_text_search : single text_search.
Proof.
  intros n. unfold text_search. simpl.
  destruct (decide_rel elem_of n [n]) as [_|Hout]; [reflexivity|].
  exfalso. apply Hout. left.
Qed.

Lemma aligned_start : aligned start.
Proof. split; reflexivity. Qed.

Lemma aligned_push (t : nat -> fragment) (v : param) (b : builder) :
  single t -> aligned b -> aligned (push t v b).
Proof.
  intros Ht [Hc Hd]. split; simpl.
  - rewrite length_app. simpl. lia.
  - unfold distinct_placeholders in *. rewrite map_app, concat_app. simpl.
    rewrite app_nil_r, length_app, remove_dups_app_disjoint.
    + rewrite Hd, Ht, Hc. simpl. rewrite Nat.add_1_r, seq_S. reflexivity.
    + intros x Hx Hx'.
      apply elem_of_remove_dups in Hx. rewrite Hd in Hx. apply elem_of_seq in Hx.
      apply elem_of_remove_dups in Hx'. rewrite Ht in Hx'.
      apply list_elem_of_singleton in Hx'. lia.
Qed.

Lemma aligned_push_if (c : bool) (t : nat -> fragment) (v : param) (b : builder) :
  single t -> aligned b -> aligned (push_if c t v b).
Proof. destruct c; [apply aligned_push | auto]. Qed.

Lemma headed_push_if (f : fragment) (p : param) (c : bool) (t : nat -> fragment)
    (v : param) (b : builder) :
  headed f p b -> headed f p (push_if c t v b).
Proof.
  intros (cs & ps & Hc & Hp). destruct c; [|exists cs, ps; auto].
  exists (cs ++ [t (paramCounter b)]), (ps ++ [v]). simpl. rewrite Hc, Hp. auto.
Qed.

Lemma params_push_if (c : bool) (t : nat -> fragment) (v : param) (b : builder) :
  length (queryParams (push_if c t v b)) =
  (length (queryParams b) + (if c then 1 else 0))%nat.
Proof. destruct c; simpl; [rewrite length_app; reflexivity | lia]. Qed.

Lemma select_aligned_intro (b : builder) (main : select_query) (limit skip : value) :
  aligned b ->
  select_where main = conditions b ->
  select_params main = (queryParams b ++ [Plain limit; Plain skip])%list ->
  limit_placeholder main = paramCounter b ->
  offset_placeholder main = (paramCounter b + 1)%nat ->
  select_aligned b main limit skip.
Proof.
  intros [Hc Hd] Hw Hp Hl Ho. unfold select_aligned.
  rewrite Hw, Hp, Hd, Hl, Ho, Hc, length_app, length_seq. simpl.
  repeat split; lia.
Qed.

End BuilderFacts.

Create HintDb builder.

#[local] Hint Resolve single_cmp single_text_search aligned_start aligned_push_if : builder.

Lemma ask_build_where_aligned (filters : filter_map) :
  aligned (AskQuery.build_where filters).
Proof. unfold AskQuery.build_where. cbv zeta. auto 20 with builder. Qed.

Lemma courses_build_where_aligned (r : Courses.query) (v : Courses.validated) :
  aligned (Courses.build_where r v).
Proof. unfold Courses.build_where. cbv zeta. auto 20 with builder. Qed.

(** C1.  For every filter set, on the free-text route and on the
    explicit-parameter route, the parameters of the SELECT query are the
    parameters of the fragments followed by the limit and then the offset;
    their number is the number of distinct placeholders of the fragments
    plus two; the fragments refer to the placeholders [1..k] and the limit
    and offset to [k+1] and [k+2].  A populated [q] gives the fragment
    [(course_name ILIKE $1 OR department ILIKE $1)], whose two sides share
    placeholder 1, and exactly one parameter. *)
Theorem select_parameters_match_placeholders :
  (forall (filters : filter_map) (page perPage : Js.number),
      let b := AskQuery.build_where filters in
      select_aligned b (AskQuery.mainQuery b page perPage)
        (VNum perPage) (VNum (offset page perPage)) /\
      (truthy (filters !! "q") = true ->
       exists v, filters !! "q" = Some v /\
         headed (Sql.text_search 1) (Sql.Like v) b /\
         Sql.placeholders (Sql.text_search 1) = [1; 1]%nat /\
         length (Sql.queryParams b) =
         S (length (Sql.queryParams (AskQuery.build_where (delete "q" filters)))))) /\
  (forall (r : Courses.query) (v : Courses.validated),
      let b := Courses.build_where r v in
      select_aligned b (Courses.mainQuery r v b)
        (to_value (Courses.v_per_page v))
        (VNum (offset (to_number (Courses.v_page v)) (to_number (Courses.v_per_page v)))) /\
      (q_populated r = true ->
       headed (Sql.text_search 1) (Sql.Like (VStr (Js.trim (Courses.text (Courses.q r))))) b /\
       Sql.placeholders (Sql.text_search 1) = [1; 1]%nat /\
       length (Sql.queryParams b) =
       S (length (Sql.queryParams (Courses.build_where (without_q r) v))))).
Proof.
  split.
  - intros filters page perPage b. split.
    + apply select_aligned_intro; try reflexivity. apply ask_build_where_aligned.
    + intros Hq. destruct (filters !! "q") as [v|] eqn:Ev; [|discriminate].
      exists v. split; [reflexivity|]. split; [|split; [reflexivity|]].
      * subst b. unfold AskQuery.build_where. cbv zeta. rewrite Ev, Hq.
        do 10 apply headed_push_if. exists [], []. split; reflexivity.
      * subst b. unfold AskQuery.build_where. cbv zeta.
        rewrite !params_push_if, lookup_delete_eq, !lookup_delete_ne by done.
        rewrite Ev, Hq. simpl. lia.
  - intros r v b. split.
    + apply select_aligned_intro; try reflexivity. apply courses_build_where_aligned.
    + intros Hq. split; [|split; [reflexivity|]].
      * subst b. unfold Courses.build_where. cbv zeta. fold (q_populated r). rewrite Hq.
        do 12 apply headed_push_if. exists [], []. split; reflexivity.
      * subst b. unfold Courses.build_where. cbv zeta. fold (q_populated r).
        rewrite !params_push_if, Hq. simpl. lia.
Qed.

(** ** The extractor on the scenario text (C2) *)

(** C2, as stated, fails: the extractor sets two more keys. *)
Lemma scenario_has_other_keys :
  Ask.parseNaturalLanguageQuery scenario_text <> scenario_claimed /\
  Ask.parseNaturalLanguageQuery scenario_text !! "min_fee" = Some (VNum (Js.of_Z 4)) /\
  Ask.parseNaturalLanguageQuery scenario_text !! "q" = Some (VStr "above") /\
  scenario_claimed !! "min_fee" = None /\
  scenario_claimed !! "q" = None.
Proof.
  split; [|repeat split; vm_compute; reflexivity].
  intros H. apply (f_equal (fun m : filter_map => m !! "q")) in H.
  vm_compute in H. discriminate.
Qed.

(** C2, amended.  For the scenario text the extractor returns exactly
    the delivery mode, the level, the department and the minimum rating
    of the scenario, together with [min_fee = 4] and [q = "above"]. *)
Theorem scenario_extraction :
  Ask.parseNaturalLanguageQuery scenario_text = scenario_extracted.
Proof. vm_compute. reflexivity. Qed.

(** ** The comparison route (C3, C8, C10) *)

#[local] Instance rank_le_transitive ids : Transitive (Compare.rank_le ids).
Proof. intros a b c. unfold Compare.rank_le. lia. Qed.

#[local] Instance rank_le_total ids : Total (Compare.rank_le ids).
Proof. intros a b. unfold Compare.rank_le. lia. Qed.

Section CompareFacts.

Import Compare.

Lemma array_includes_spec (xs : list string) (w : string) :
  Js.array_includes xs w = true <-> w ∈ xs.
Proof.
  unfold Js.array_includes. rewrite existsb_exists. split.
  - intros (x & Hin & Heq). apply String.eqb_eq in Heq. subst.
    apply list_elem_of_In. exact Hin.
  - intros Hin. exists w. split; [apply list_elem_of_In, Hin | apply String.eqb_refl].
Qed.

Lemma array_includes_false (xs : list string) (w : string) :
  Js.array_includes xs w = false <-> w ∉ xs.
Proof. rewrite <- array_includes_spec. destruct (Js.array_includes xs w); naive_solver. Qed.

Lemma new_Set_snoc (l : list string) (x : string) :
  new_Set (l ++ [x]) = Set_add (new_Set l) x.
Proof. unfold new_Set. rewrite fold_left_app. reflexivity. Qed.

Lemma elem_of_new_Set (l : list string) (x : string) : x ∈ new_Set l <-> x ∈ l.
Proof.
  induction l as [|y l IH] using rev_ind; [reflexivity|].
  rewrite new_Set_snoc, elem_of_app, list_elem_of_singleton, <- IH. unfold Set_add.
  destruct (Js.array_includes (new_Set l) y) eqn:E.
  - apply array_includes_spec in E. split; [auto|]. intros [H|H]; [exact H | subst; exact E].
  - rewrite elem_of_app, list_elem_of_singleton. reflexivity.
Qed.

Lemma NoDup_new_Set (l : list string) : NoDup (new_Set l).
Proof.
  induction l as [|y l IH] using rev_ind; [constructor|].
  rewrite new_Set_snoc. unfold Set_add.
  destruct (Js.array_includes (new_Set l) y) eqn:E; [exact IH|].
  apply array_includes_false in E. apply NoDup_app. repeat split; auto.
  - intros x Hx Hx'. apply list_elem_of_singleton in Hx'. subst. contradiction.
  - apply NoDup_singleton.
Qed.

Lemma length_new_Set (l : list string) : length (new_Set l) <= length l.
Proof.
  induction l as [|y l IH] using rev_ind; [reflexivity|].
  rewrite new_Set_snoc, length_app. unfold Set_add. simpl.
  destruct (Js.array_includes (new_Set l) y); [|rewrite length_app; simpl]; lia.
Qed.

Lemma first_index_lt (l : list string) (x : string) :
  x ∈ l -> first_index l x < length l.
Proof.
  induction l as [|y l IH]; intros Hx; [inversion Hx|]. simpl.
  destruct (decide (x = y)); [lia|].
  apply elem_of_cons in Hx as [?|Hx]; [contradiction|]. specialize (IH Hx). lia.
Qed.

Lemma first_index_app_l (l k : list string) (x : string) :
  x ∈ l -> first_index (l ++ k) x = first_index l x.
Proof.
  induction l as [|y l IH]; intros Hx; [inversion Hx|]. simpl.
  destruct (decide (x = y)); [reflexivity|].
  apply elem_of_cons in Hx as [?|Hx]; [contradiction|]. rewrite IH; auto.
Qed.

Lemma first_index_app_r (l k : list string) (x : string) :
  x ∉ l -> first_index (l ++ k) x = length l + first_index k x.
Proof.
  induction l as [|y l IH]; intros Hx; [reflexivity|]. simpl.
  apply not_elem_of_cons in Hx as [Hne Hx].
  destruct (decide (x = y)); [contradiction|]. rewrite IH; auto.
Qed.

(** [new_Set] keeps the first occurrence of every element: its elements
    are listed by increasing position of their first occurrence. *)
Lemma new_Set_first_occurrence (l : list string) :
  StronglySorted lt (first_index l <$> new_Set l).
Proof.
  induction l as [|y l IH] using rev_ind; [constructor|].
  assert (Hsame : first_index (l ++ [y]) <$> new_Set l = first_index l <$> new_Set l).
  { apply list_fmap_ext. intros i x Hx. apply first_index_app_l.
    rewrite <- elem_of_new_Set. eapply list_elem_of_lookup_2, Hx. }
  rewrite new_Set_snoc. unfold Set_add.
  destruct (Js.array_includes (new_Set l) y) eqn:E.
  - rewrite Hsame. exact IH.
  - apply array_includes_false in E. rewrite elem_of_new_Set in E.
    rewrite fmap_app, Hsame. apply StronglySorted_app. split; [|split].
    + intros a b Ha Hb. apply list_elem_of_fmap in Ha as (x & -> & Hx).
      apply list_elem_of_singleton in Hb. subst b.
      rewrite first_index_app_r by exact E. simpl.
      destruct (decide (y = y)); [|contradiction].
      rewrite elem_of_new_Set in Hx. pose proof (first_index_lt l x Hx). lia.
    + exact IH.
    + repeat constructor.
Qed.

Lemma case_rank_first_index (from : nat) (ids : list string) (id : string) :
  case_rank from ids id = from + first_index ids id.
Proof.
  revert from. induction ids as [|x ids IH]; intros from; simpl; [lia|].
  destruct (String.eqb_spec id x); destruct (decide (id = x)); try contradiction; [lia|].
  rewrite IH. lia.
Qed.

Lemma first_index_inj (l : list string) (x y : string) :
  x ∈ l -> first_index l x = first_index l y -> x = y.
Proof.
  induction l as [|z l IH]; intros Hx Heq; [inversion Hx|]. simpl in Heq.
  destruct (decide (x = z)), (decide (y = z)); try congruence.
  apply elem_of_cons in Hx as [?|Hx]; [contradiction|].
  apply IH; [exact Hx | lia].
Qed.

Lemma run_query_Permutation (table : list course) (ids : list string) :
  run_query table ids ≡ₚ filter (fun c => course_id c ∈ ids) table.
Proof. apply merge_sort_Permutation. Qed.

Lemma elem_of_run_query (table : list course) (ids : list string) (c : course) :
  c ∈ run_query table ids <-> c ∈ table /\ course_id c ∈ ids.
Proof. rewrite run_query_Permutation, list_elem_of_filter. tauto. Qed.

(** The rows come back by increasing position of their identifier among
    the parameters. *)
Lemma run_query_sorted (table : list course) (ids : list string) :
  StronglySorted le (first_index ids <$> (course_id <$> run_query table ids)).
Proof.
  rewrite <- list_fmap_compose.
  apply StronglySorted_fmap with (R1 := rank_le ids).
  - intros a b. unfold rank_le. rewrite !case_rank_first_index. simpl. lia.
  - apply StronglySorted_merge_sort; apply _.
Qed.

(** What the handler answers when it accepts the request. *)
Lemma compare_Ok (table : list course) (ids : string) (resp : response) :
  compare table (Some ids) = Ok resp ->
  let uniqueIds := new_Set (parse_ids ids) in
  0 < length (parse_ids ids) <= 4 /\
  courses resp = run_query table uniqueIds /\
  missing_ids resp =
    filter (fun id => negb (Js.array_includes (course_id <$> courses resp) id)) uniqueIds /\
  meta resp = Meta (length uniqueIds) (length (courses resp)) (length (missing_ids resp)) /\
  insights resp =
    (if (1 <? length (courses resp))%nat
     then Some (generateComparisonInsights (courses resp)) else None).
Proof.
  unfold compare. destruct ids as [|a ids']; [discriminate|].
  set (ids := String a ids').
  destruct (Nat.eqb_spec (length (parse_ids ids)) 0); [discriminate|].
  destruct (Nat.ltb_spec 4 (length (parse_ids ids))); [discriminate|].
  destruct (0 <? length (filter _ (parse_ids ids)))%nat; [discriminate|].
  intros Hok. injection Hok as <-. simpl. repeat split; lia.
Qed.

Lemma compare_too_many (table : list course) (ids : string) :
  compare table (Some ids) = BadRequest "Too many course IDs" <->
  4 < length (parse_ids ids).
Proof.
  unfold compare. destruct ids as [|a ids']; [split; [discriminate | simpl; lia]|].
  set (ids := String a ids').
  destruct (Nat.eqb_spec (length (parse_ids ids)) 0) as [E|E];
    [split; [discriminate | lia]|].
  destruct (Nat.ltb_spec 4 (length (parse_ids ids))); [split; auto|].
  destruct (0 <? length (filter _ (parse_ids ids)))%nat; split; try discriminate; lia.
Qed.

End CompareFacts.

Section CompareOrder.

Import Compare.

Lemma StronglySorted_filter {A} (R : relation A) (P : A -> Prop)
    `{forall x, Decision (P x)} (l : list A) :
  StronglySorted R l -> StronglySorted R (filter P l).
Proof.
  induction 1 as [|x l Hl IH Hx]; [constructor|].
  rewrite filter_cons. destruct (decide (P x)); [|exact IH].
  constructor; [exact IH|].
  apply Forall_forall. intros y Hy. apply list_elem_of_filter in Hy as [_ Hy].
  rewrite Forall_forall in Hx. auto.
Qed.

Lemma StronglySorted_local {A} (R R' : relation A) (l : list A) :
  (forall a b, a ∈ l -> b ∈ l -> R a b -> R' a b) ->
  StronglySorted R l -> StronglySorted R' l.
Proof.
  intros Himp Hs. induction Hs as [|x l Hl IH Hx]; [constructor|].
  constructor.
  - apply IH. intros a b Ha Hb. apply Himp; right; assumption.
  - rewrite Forall_forall in *. intros y Hy. apply Himp; [left | right; exact Hy | auto].
Qed.

Lemma NoDup_listed_before (l : list string) :
  NoDup l -> StronglySorted (listed_before l) l.
Proof.
  induction 1 as [|x l Hx Hl IH]; [constructor|]. constructor.
  - apply StronglySorted_local with (R := listed_before l); [|exact IH].
    intros a b Ha Hb. unfold listed_before. simpl.
    destruct (decide (a = x)), (decide (b = x)); subst; try contradiction. lia.
  - apply Forall_forall. intros y Hy. unfold listed_before. simpl.
    destruct (decide (x = x)); [lia | contradiction].
Qed.

Lemma run_query_listed (table : list course) (ids : list string) :
  StronglySorted (listed_before ids) (course_id <$> run_query table ids).
Proof.
  apply StronglySorted_fmap with (R1 := rank_le ids).
  - intros a b. unfold rank_le, listed_before. rewrite !case_rank_first_index. lia.
  - apply StronglySorted_merge_sort; apply _.
Qed.

Lemma NoDup_fmap_filter {A B} (f : A -> B) (P : A -> Prop)
    `{forall x, Decision (P x)} (l : list A) :
  NoDup (f <$> l) -> NoDup (f <$> filter P l).
Proof.
  induction l as [|x l IH]; [auto|]. rewrite fmap_cons, NoDup_cons. intros [Hx Hl].
  rewrite filter_cons. destruct (decide (P x)); [|auto].
  rewrite fmap_cons. apply NoDup_cons. split; [|auto].
  intros Hin. apply Hx. apply list_elem_of_fmap in Hin as (y & -> & Hy).
  apply list_elem_of_filter in Hy as [_ Hy]. apply list_elem_of_fmap_2, Hy.
Qed.

Lemma elem_of_found_ids (table : list course) (ids : list string) (x : string) :
  x ∈ course_id <$> run_query table ids <-> x ∈ ids /\ x ∈ course_id <$> table.
Proof.
  rewrite !list_elem_of_fmap. split.
  - intros (c & -> & Hc). apply elem_of_run_query in Hc as [Hc Hid]. eauto.
  - intros (Hid & c & -> & Hc). exists c. split; [reflexivity|].
    apply elem_of_run_query. auto.
Qed.

(** With [course_id] a key of the table, the identifiers of the rows
    found are the parameters that occur in the table, in the order of
    the parameters. *)
Lemma found_ids_in_request_order (table : list course) (ids : list string) :
  NoDup ids -> NoDup (course_id <$> table) ->
  course_id <$> run_query table ids = filter (fun id => id ∈ course_id <$> table) ids.
Proof.
  intros Hids Hkey.
  apply (StronglySorted_unique_strong (listed_before ids)).
  - intros x y Hx _ Hxy Hyx. apply elem_of_found_ids in Hx as [Hx _].
    apply (first_index_inj ids); [exact Hx|]. unfold listed_before in *. lia.
  - apply run_query_listed.
  - apply StronglySorted_filter, NoDup_listed_before, Hids.
  - apply NoDup_Permutation.
    + rewrite run_query_Permutation. apply NoDup_fmap_filter, Hkey.
    + apply NoDup_filter, Hids.
    + intros x. rewrite elem_of_found_ids, list_elem_of_filter. tauto.
Qed.

Lemma list_filter_iff_elem {A} (P Q : A -> Prop)
    `{forall x, Decision (P x)} `{forall x, Decision (Q x)} (l : list A) :
  (forall x, x ∈ l -> P x <-> Q x) -> filter P l = filter Q l.
Proof.
  induction l as [|x l IH]; intros Hpq; [reflexivity|].
  rewrite !filter_cons, IH by (intros y Hy; apply Hpq; right; exact Hy).
  pose proof (Hpq x ltac:(left)).
  destruct (decide (P x)), (decide (Q x)); tauto.
Qed.

Lemma missing_ids_filter (found ids : list string) :
  filter (fun id => negb (Js.array_includes found id)) ids =
  filter (fun id => id ∉ found) ids.
Proof.
  apply list_filter_iff. intros x.
  rewrite <- array_includes_false. destruct (Js.array_includes found x); simpl; naive_solver.
Qed.

End CompareOrder.

(** C3, as stated, fails: five copies of one identifier are refused as
    too many although the deduplicated set has one element. *)
Lemma duplicates_count_towards_cap :
  Compare.compare sample_table (Some "1,1,1,1,1") = BadRequest "Too many course IDs" /\
  Compare.new_Set (Compare.parse_ids "1,1,1,1,1") = ["1"] /\
  ~ (Compare.compare sample_table (Some "1,1,1,1,1") = BadRequest "Too many course IDs" <->
     4 < length (Compare.new_Set (Compare.parse_ids "1,1,1,1,1"))).
Proof.
  split; [vm_compute; reflexivity|]. split; [vm_compute; reflexivity|].
  intros [H _]. specialize (H ltac:(vm_compute; reflexivity)).
  vm_compute in H. lia.
Qed.

(** C3, amended.  The request is refused with [Too many course IDs]
    exactly when more than four identifiers remain after splitting on
    commas, trimming and dropping the empty ones, duplicates included; so
    a request whose deduplicated set has more than four elements is
    always refused. *)
Theorem too_many_ids_counts_tokens (table : list course) (ids : string) :
  (Compare.compare table (Some ids) = BadRequest "Too many course IDs" <->
   4 < length (Compare.parse_ids ids)) /\
  (4 < length (Compare.new_Set (Compare.parse_ids ids)) ->
   Compare.compare table (Some ids) = BadRequest "Too many course IDs").
Proof.
  split; [apply compare_too_many|].
  intros H. apply compare_too_many.
  pose proof (length_new_Set (Compare.parse_ids ids)). lia.
Qed.

Lemma too_many_ids_counts_tokens_witness :
  Compare.compare sample_table (Some "1,2,3,4,5") = BadRequest "Too many course IDs".
Proof.
  apply (too_many_ids_counts_tokens sample_table "1,2,3,4,5").
  vm_compute. lia.
Defined.

(** C8.  When the comparison is answered, the requested identifiers are
    deduplicated keeping the first occurrence of each (same elements, no
    repetition, listed by first occurrence), the rows returned are the
    rows of the table with a requested identifier, and they come in the
    order of the deduplicated identifiers whatever the order of the
    table; with [course_id] a key of the table, their identifiers are
    the requested identifiers found, in request order.  The input
    [3,1,3,2] gives the order 3, 1, 2. *)
Theorem comparison_keeps_request_order (table : list course) (ids : string)
    (resp : Compare.response) :
  Compare.compare table (Some ids) = Ok resp ->
  let requested := Compare.parse_ids ids in
  let uniqueIds := Compare.new_Set requested in
  NoDup uniqueIds /\
  (forall x, x ∈ uniqueIds <-> x ∈ requested) /\
  StronglySorted lt (first_index requested <$> uniqueIds) /\
  (forall c, c ∈ Compare.courses resp <-> c ∈ table /\ course_id c ∈ uniqueIds) /\
  StronglySorted (listed_before uniqueIds) (course_id <$> Compare.courses resp) /\
  (NoDup (course_id <$> table) ->
   course_id <$> Compare.courses resp =
   filter (fun id => id ∈ course_id <$> table) uniqueIds) /\
  Compare.new_Set (Compare.parse_ids "3,1,3,2") = ["3"; "1"; "2"].
Proof.
  intros Hok requested uniqueIds.
  apply compare_Ok in Hok as (_ & Hfound & _). fold requested uniqueIds in Hfound.
  rewrite Hfound.
  split; [apply NoDup_new_Set|].
  split; [intros x; apply elem_of_new_Set|].
  split; [apply new_Set_first_occurrence|].
  split; [intros c; apply elem_of_run_query|].
  split; [apply run_query_listed|].
  split; [|vm_compute; reflexivity].
  intros Hkey. apply found_ids_in_request_order; [apply NoDup_new_Set | exact Hkey].
Qed.

Lemma comparison_keeps_request_order_witness :
  match Compare.compare sample_table (Some "3,1,3,2") with
  | Ok resp => course_id <$> Compare.courses resp = ["3"; "1"; "2"]
  | _ => False
  end.
Proof.
  pose proof (comparison_keeps_request_order sample_table "3,1,3,2") as H.
  destruct (Compare.compare sample_table (Some "3,1,3,2")) as [resp| |] eqn:E;
    [|vm_compute in E; discriminate..].
  destruct (H resp eq_refl) as (_ & _ & _ & _ & _ & Horder & _).
  rewrite Horder; [vm_compute; reflexivity|].
  apply (bool_decide_unpack _). vm_compute. exact I.
Defined.

(** C10.  With [course_id] a key of the table, a comparison that is
    answered has [requested_count = found_count + missing_count];
    [missing_ids] is the deduplicated requested identifiers that no
    returned row has, in request order; and the identifiers of the rows
    found together with [missing_ids] are a rearrangement of the
    deduplicated request. *)
Theorem comparison_counts_partition (table : list course) (ids : string)
    (resp : Compare.response) :
  NoDup (course_id <$> table) ->
  Compare.compare table (Some ids) = Ok resp ->
  let uniqueIds := Compare.new_Set (Compare.parse_ids ids) in
  let foundIds := course_id <$> Compare.courses resp in
  Compare.requested_count (Compare.meta resp) = length uniqueIds /\
  Compare.found_count (Compare.meta resp) = length (Compare.courses resp) /\
  Compare.missing_count (Compare.meta resp) = length (Compare.missing_ids resp) /\
  Compare.requested_count (Compare.meta resp) =
    Compare.found_count (Compare.meta resp) + Compare.missing_count (Compare.meta resp) /\
  Compare.missing_ids resp = filter (fun id => id ∉ foundIds) uniqueIds /\
  foundIds ++ Compare.missing_ids resp ≡ₚ uniqueIds.
Proof.
  intros Hkey Hok uniqueIds foundIds.
  apply compare_Ok in Hok as (_ & Hrows & Hmissing & Hmeta & _).
  assert (Hfound : foundIds = filter (fun id => id ∈ course_id <$> table) uniqueIds).
  { unfold foundIds. rewrite Hrows.
    apply found_ids_in_request_order; [apply NoDup_new_Set | exact Hkey]. }
  fold uniqueIds foundIds in Hmissing. rewrite missing_ids_filter in Hmissing.
  assert (Hsplit : foundIds ++ Compare.missing_ids resp ≡ₚ uniqueIds).
  { rewrite Hmissing.
    transitivity (filter (fun id => id ∈ foundIds) uniqueIds ++
                  filter (fun id => id ∉ foundIds) uniqueIds);
      [|apply filter_app_complement].
    apply Permutation_app; [|reflexivity].
    replace (filter (fun id => id ∈ foundIds) uniqueIds) with foundIds; [reflexivity|].
    rewrite Hfound at 1. apply list_filter_iff_elem. intros x Hx.
    rewrite Hfound, list_elem_of_filter. tauto. }
  rewrite Hmeta. cbn [Compare.requested_count Compare.found_count Compare.missing_count].
  fold uniqueIds. repeat split; try assumption.
  rewrite <- Hsplit, length_app. unfold foundIds. rewrite length_fmap. reflexivity.
Qed.

Lemma comparison_counts_partition_witness :
  match Compare.compare sample_table (Some "3,7,3,2") with
  | Ok resp =>
      Compare.requested_count (Compare.meta resp) =
      Compare.found_count (Compare.meta resp) + Compare.missing_count (Compare.meta resp) /\
      Compare.missing_ids resp = ["7"]
  | _ => False
  end.
Proof.
  assert (Hkey : NoDup (course_id <$> sample_table)).
  { apply (bool_decide_unpack _). vm_compute. exact I. }
  pose proof (comparison_counts_partition sample_table "3,7,3,2") as H.
  destruct (Compare.compare sample_table (Some "3,7,3,2")) as [resp| |] eqn:E;
    [|vm_compute in E; discriminate..].
  destruct (H resp Hkey eq_refl) as (_ & _ & _ & Hcount & Hmissing & _).
  split; [exact Hcount|].
  rewrite Hmissing. injection E as <-. vm_compute. reflexivity.
Defined.

(** ** Instances of C1 and C6 *)

Lemma select_parameters_match_placeholders_witness :
  (exists v, sample_filters !! "q" = Some v /\
     headed (Sql.text_search 1) (Sql.Like v) (AskQuery.build_where sample_filters) /\
     Sql.placeholders (Sql.text_search 1) = [1; 1]%nat /\
     length (Sql.queryParams (AskQuery.build_where sample_filters)) =
     S (length (Sql.queryParams (AskQuery.build_where (delete "q" sample_filters))))) /\
  (forall v,
     headed (Sql.text_search 1) (Sql.Like (VStr "python")) (Courses.build_where sample_query v) /\
     Sql.placeholders (Sql.text_search 1) = [1; 1]%nat /\
     length (Sql.queryParams (Courses.build_where sample_query v)) =
     S (length (Sql.queryParams (Courses.build_where (without_q sample_query) v)))).
Proof.
  destruct select_parameters_match_placeholders as [Hask Hcourses]. split.
  - apply (Hask sample_filters (Js.of_Z 1) (Js.of_Z 10)). vm_compute. reflexivity.
  - intros v. apply (Hcourses sample_query v). vm_compute. reflexivity.
Defined.


(** ** Pagination parameters (C4) *)

#[local] Arguments Js.of_Z : simpl never.

Section PaginationParameters.

Import Js.

Lemma Math_max_of_Z (a b : Z) : Math_max (of_Z a) (of_Z b) = of_Z (Z.max a b).
Proof.
  unfold Math_max. change (isNaN (of_Z a) || isNaN (of_Z b)) with false.
  cbv iota. rewrite lt_of_Z_bool. case_bool_decide; f_equal; lia.
Qed.

Lemma Math_min_of_Z (a b : Z) : Math_min (of_Z a) (of_Z b) = of_Z (Z.min a b).
Proof.
  unfold Math_min. change (isNaN (of_Z a) || isNaN (of_Z b)) with false.
  cbv iota. rewrite lt_of_Z_bool. case_bool_decide; f_equal; lia.
Qed.

Lemma number_truthy_of_Z (z : Z) : number_truthy (of_Z z) = bool_decide (z <> 0%Z).
Proof.
  unfold number_truthy, of_Z. rewrite Qis_zero_inject_Z.
  repeat case_bool_decide; try reflexivity; contradiction.
Qed.

Lemma parseInt_cases (s : string) : parseInt s = NaN \/ exists z, parseInt s = of_Z z.
Proof.
  unfold parseInt. destruct (read_sign (trimStart s)) as [negative s1].
  destruct (if startsWith "0x" s1 || startsWith "0X" s1 then _ else _) as [[v n] rest].
  destruct n; eauto.
Qed.

Lemma parseInt_json_cases (v : AskRoute.json) :
  AskRoute.parseInt_json v = NaN \/ exists z, AskRoute.parseInt_json v = of_Z z.
Proof. destruct v; simpl; eauto using parseInt_cases. Qed.

(** [x || d] with an integer default is an integer. *)
Lemma or_default_cases (x : number) (d : Z) :
  x = NaN \/ (exists z, x = of_Z z) ->
  exists z, AskRoute.or_default x (of_Z d) = of_Z z /\
            (x = of_Z z /\ z <> 0%Z \/ z = d /\ (x = NaN \/ x = of_Z 0)).
Proof.
  unfold AskRoute.or_default. intros [->|[z ->]]; [simpl; eauto 6|].
  rewrite number_truthy_of_Z. case_bool_decide; [eauto 6|].
  exists d. split; [reflexivity|]. right. split; [reflexivity|]. right. f_equal. f_equal. lia.
Qed.

Lemma pageNum_range (v : AskRoute.json) :
  exists p, AskRoute.pageNum v = of_Z p /\ (1 <= p)%Z.
Proof.
  unfold AskRoute.pageNum.
  destruct (or_default_cases _ 1 (parseInt_json_cases (AskRoute.with_default v (AskRoute.JNumber 1))))
    as (z & -> & _).
  rewrite Math_max_of_Z. eexists. split; [reflexivity | lia].
Qed.


Lemma pageNum_number (z : Z) : AskRoute.pageNum (AskRoute.JNumber z) = of_Z (Z.max 1 z).
Proof.
  unfold AskRoute.pageNum, AskRoute.or_default.
  cbn [AskRoute.parseInt_json AskRoute.with_default].
  rewrite number_truthy_of_Z. case_bool_decide; rewrite Math_max_of_Z; f_equal; lia.
Qed.

Lemma perPage_number (z : Z) :
  AskRoute.perPage (AskRoute.JNumber z) =
  of_Z (if decide (z = 0%Z) then 10 else Z.min 100 (Z.max 1 z)).
Proof.
  unfold AskRoute.perPage, AskRoute.or_default.
  cbn [AskRoute.parseInt_json AskRoute.with_default].
  rewrite number_truthy_of_Z.
  case_bool_decide; destruct (decide (z = 0%Z)); try contradiction;
    rewrite Math_max_of_Z, Math_min_of_Z; f_equal; lia.
Qed.

(** What an integer validator returns. *)
Lemma validateInteger_Return (t name : string) (lo : Z) (hi : nullable) (x : nullable) :
  Courses.validateInteger (Some t) name (Courses.num lo) hi = Courses.Return x ->
  t = "" /\ x = None \/
  exists z, x = Some (of_Z z) /\ parseInt t = of_Z z /\ (lo <= z)%Z /\
            forall h, hi = Courses.num h -> (z <= h)%Z.
Proof.
  unfold Courses.validateInteger. destruct t as [|a t']; [intros [= <-]; auto|].
  set (t := String a t').
  destruct (parseInt_cases t) as [->|[z ->]]; [discriminate|].
  change (isNaN (of_Z z)) with false. cbn [orb].
  destruct (negb _); [discriminate|].
  unfold Courses.check_range, Courses.num, gt. rewrite lt_of_Z_bool.
  case_bool_decide; [discriminate|].
  destruct hi as [h|].
  - destruct (lt h (of_Z z)) eqn:Eh; [discriminate|]. intros [= <-]. right.
    exists z. repeat split; try lia. intros h' [= ->].
    rewrite lt_of_Z_bool in Eh. apply bool_decide_eq_false in Eh. lia.
  - intros [= <-]. right. exists z. repeat split; try lia. discriminate.
Qed.



(** The validated record, field by field. *)
Lemma validate_Return (r : Courses.query) (v : Courses.validated) :
  Courses.validate r = Courses.Return v ->
  Courses.validateInteger (Courses.min_credits r) "min_credits" (Courses.num 1) None
    = Courses.Return (Courses.v_min_credits v) /\
  Courses.validateInteger (Courses.max_credits r) "max_credits" (Courses.num 1) None
    = Courses.Return (Courses.v_max_credits v) /\
  Courses.validateInteger (Courses.page_or_default r) "page" (Courses.num 1) None
    = Courses.Return (Courses.v_page v) /\
  Courses.validateInteger (Courses.per_page_or_default r) "per_page" (Courses.num 1) (Courses.num 100)
    = Courses.Return (Courses.v_per_page v).
Proof.
  unfold Courses.validate.
  repeat match goal with
         | |- context [mbind _ ?m] => destruct m; simpl; [|discriminate]
         end.
  intros [= <-]. simpl. auto.
Qed.



End PaginationParameters.




(** ** Reversed credit bounds on the explicit-parameter route (C5) *)

Lemma carries_push_if (c : bool) (t : nat -> Sql.fragment) (p : Sql.param)
    (b : Sql.builder) (lo hi : Js.number) :
  carries_credit_bounds b lo hi -> carries_credit_bounds (Sql.push_if c t p b) lo hi.
Proof.
  intros (pre & post & ppre & ppost & n & Hc & Hp & Hn).
  destruct c; [|exists pre, post, ppre, ppost, n; auto].
  exists pre, (post ++ [t (Sql.paramCounter b)]), ppre, (ppost ++ [p]), n. simpl.
  rewrite Hc, Hp, <- !app_assoc. auto.
Qed.

Lemma carries_after_push (b : Sql.builder) (lo hi : Js.number) :
  aligned b ->
  carries_credit_bounds
    (Sql.push (Sql.cmp "credits <= ") (Sql.Plain (VNum hi))
       (Sql.push (Sql.cmp "credits >= ") (Sql.Plain (VNum lo)) b)) lo hi.
Proof.
  intros [Hc _].
  exists (Sql.conditions b), [], (Sql.queryParams b), [], (Sql.paramCounter b). simpl.
  rewrite <- !app_assoc. auto.
Qed.

(** C5, as stated, fails: the request with [min_credits=10] and
    [max_credits=4] passes validation and is answered; its query asks
    for [credits >= 10] and [credits <= 4]. *)
Lemma reversed_credits_are_accepted :
  (exists resp, Courses.courses (sample_store 0) reversed_credits = Ok resp) /\
  (forall e, Courses.courses (sample_store 0) reversed_credits <> BadRequest e) /\
  (exists v count main,
      Courses.compile reversed_credits = Ok (v, count, main) /\
      Sql.select_where main = [Sql.cmp "credits >= " 1; Sql.cmp "credits <= " 2] /\
      Sql.select_params main =
        [Sql.Plain (VNum (Js.of_Z 10)); Sql.Plain (VNum (Js.of_Z 4));
         Sql.Plain (VNum (Js.of_Z 10)); Sql.Plain (VNum (Js.of_Z 0))]).
Proof.
  split; [eexists; vm_compute; reflexivity|].
  split; [intros e; vm_compute; discriminate|].
  do 3 eexists. split; [vm_compute; reflexivity|]. split; reflexivity.
Qed.

(** C5, amended.  On the explicit-parameter route a request whose
    parameters are valid one by one, with both [min_credits] and
    [max_credits] supplied, is not refused, whatever the order of the two
    bounds: the bounds are the integers the two texts parse to, and the
    query carries [credits >= min_credits] and [credits <= max_credits]
    with the bounds as supplied, not swapped; when the store answers, so
    does the route. *)
Theorem credit_bounds_are_not_compared (r : Courses.query) (v : Courses.validated)
    (lo hi : Js.number) :
  Courses.validate r = Courses.Return v ->
  Courses.check_enums r = None ->
  Courses.v_min_credits v = Some lo ->
  Courses.v_max_credits v = Some hi ->
  (exists a b, Courses.min_credits r = Some a /\ Js.parseInt a = lo /\
               Courses.max_credits r = Some b /\ Js.parseInt b = hi) /\
  exists count main,
    Courses.compile r = Ok (v, count, main) /\
    Sql.select_where main = Sql.conditions (Courses.build_where r v) /\
    carries_credit_bounds (Courses.build_where r v) lo hi /\
    (forall db total rows,
        run_count db count = Some total -> run_select db main = Some rows ->
        exists resp, Courses.courses db r = Ok resp /\ data resp = rows).
Proof.
  intros Hv He Hlo Hhi. split.
  - apply validate_Return in Hv as (Hmin & Hmax & _). rewrite Hlo in Hmin. rewrite Hhi in Hmax.
    destruct (Courses.min_credits r) as [a|]; [|discriminate].
    destruct (Courses.max_credits r) as [b|]; [|discriminate].
    apply validateInteger_Return in Hmin as [[_ ?]|(x & [= ->] & Ha & _)]; [discriminate|].
    apply validateInteger_Return in Hmax as [[_ ?]|(y & [= ->] & Hb & _)]; [discriminate|].
    exists a, b. auto.
  - unfold Courses.compile. rewrite Hv, He. do 2 eexists. split; [reflexivity|].
    split; [reflexivity|]. split.
    + unfold Courses.build_where. cbv zeta. rewrite Hlo, Hhi.
      do 2 apply carries_push_if.
      rewrite !bool_decide_eq_true_2 by discriminate. cbn [Sql.push_if to_value].
      apply carries_after_push. auto 20 with builder.
    + intros db total rows Hcount Hrows. unfold Courses.courses, Courses.compile.
      rewrite Hv, He, Hcount, Hrows. eexists. split; reflexivity.
Qed.

Lemma credit_bounds_are_not_compared_witness :
  carries_credit_bounds
    (Courses.build_where reversed_credits
       (Courses.Validated None None None None (Courses.num 10) (Courses.num 4)
                          None None None (Courses.num 1) (Courses.num 10)))
    (Js.of_Z 10) (Js.of_Z 4).
Proof.
  destruct (credit_bounds_are_not_compared reversed_credits
              (Courses.Validated None None None None (Courses.num 10) (Courses.num 4)
                                 None None None (Courses.num 1) (Courses.num 10))
              (Js.of_Z 10) (Js.of_Z 4))
    as (_ & count & main & _ & _ & H & _);
    [vm_compute; reflexivity | vm_compute; reflexivity | reflexivity | reflexivity | exact H].
Defined.

(** ** Comparison statistics (C9) *)

Section StatisticsFacts.

Import Js Compare.


Lemma Qltb_false (a b : Q) : Qltb a b = false <-> (b <= a)%Q.
Proof. unfold Qltb. rewrite negb_false_iff. apply Qle_bool_iff. Qed.




End StatisticsFacts.

Section Rounding.

Import Js Compare.






End Rounding.

Section Columns.

Import Compare.





End Columns.



(** On a tie the doubles may round to the other side.  The mean of the
    ratings 4.1 and 4.8 is 4.45, halfway between two tenths: the exact
    rule gives 4.5, and in doubles the product with 10 falls just below
    44.5, so that the average is the double nearest to 4.4.  Both are the
    mean rounded to one decimal place. *)
Example rating_average_on_a_tie :
  Compare.round_tenth [Js.Num (41 # 10); Js.Num (24 # 5)] = Js.Num (9 # 2) /\
  Compare.round_tenth_in_doubles [Js.Num (41 # 10); Js.Num (24 # 5)]
    = Js.to_double (Js.Num (22 # 5)) /\
  rounded_to_tenth (9 # 2) (mean [41 # 10; 24 # 5]%Q) /\
  rounded_to_tenth (22 # 5) (mean [41 # 10; 24 # 5]%Q).
Proof.
  split; [vm_compute; reflexivity|]. split; [vm_compute; reflexivity|].
  split; [exists 45%Z | exists 44%Z]; repeat split; vm_compute; congruence.
Qed.


(** ** The matcher (C7) *)

Section MatcherFacts.

Import Regex.

Lemma string_app_cons (x : ascii) (a b : string) :
  String x a +:+ b = String x (a +:+ b).
Proof. reflexivity. Qed.

Lemma string_app_assoc (a b c : string) : (a +:+ b) +:+ c = a +:+ (b +:+ c).
Proof.
  induction a as [|x a IH]; [reflexivity|]. rewrite !string_app_cons, IH. reflexivity.
Qed.

Lemma string_length_app (a b : string) :
  String.length (a +:+ b) = String.length a + String.length b.
Proof.
  induction a as [|x a IH]; [reflexivity|]. rewrite string_app_cons. simpl.
  rewrite IH. reflexivity.
Qed.

Lemma substring_prefix (a b : string) : String.substring 0 (String.length a) (a +:+ b) = a.
Proof.
  induction a as [|x a IH]; [destruct b; reflexivity|]. rewrite string_app_cons. simpl.
  rewrite IH. reflexivity.
Qed.

Lemma consumed_app (w s : string) : consumed (w +:+ s) s = w.
Proof.
  unfold consumed. rewrite string_length_app.
  replace (String.length w + String.length s - String.length s) with (String.length w) by lia.
  apply substring_prefix.
Qed.

(** What [run] finds is a word of the pattern in front of the text, and
    the continuation is called on what follows it. *)
Lemma run_sound (r : regex) :
  forall k s cs out,
    run r k s cs = Some out ->
    exists w s' cs', s = w +:+ s' /\ Matches r w cs cs' /\ k s' cs' = Some out.
Proof.
  induction r as [|p|r1 IH1 r2 IH2|r1 IH1 r2 IH2|r1 IH1|n r1 IH1]; intros k s cs out Hrun.
  - exists "", s, cs. repeat split; [constructor | exact Hrun].
  - simpl in Hrun. destruct s as [|c t]; [discriminate|].
    destruct (p c) eqn:Hp; [|discriminate].
    exists (String c ""), t, cs. repeat split; [constructor; exact Hp | exact Hrun].
  - simpl in Hrun. apply IH1 in Hrun as (w1 & s1 & cs1 & -> & Hm1 & Hrun).
    apply IH2 in Hrun as (w2 & s2 & cs2 & -> & Hm2 & Hk).
    exists (w1 +:+ w2), s2, cs2. rewrite string_app_assoc.
    repeat split; [econstructor; eassumption | exact Hk].
  - simpl in Hrun. destruct (run r1 k s cs) as [out'|] eqn:E1.
    + injection Hrun as ->. apply IH1 in E1 as (w & s' & cs' & -> & Hm & Hk).
      exists w, s', cs'. repeat split; [apply MAltL, Hm | exact Hk].
    + apply IH2 in Hrun as (w & s' & cs' & -> & Hm & Hk).
      exists w, s', cs'. repeat split; [apply MAltR, Hm | exact Hk].
  - simpl in Hrun. revert Hrun. generalize (String.length s). intros fuel.
    revert s cs. induction fuel as [|fuel IHf]; intros s cs Hrun.
    + exists "", s, cs. repeat split; [constructor | exact Hrun].
    + simpl in Hrun.
      match type of Hrun with
      | match ?m with _ => _ end = _ => destruct m as [out'|] eqn:E1
      end.
      * injection Hrun as ->. apply IH1 in E1 as (w1 & s1 & cs1 & -> & Hm1 & Hk).
        destruct (Nat.ltb_spec (String.length s1) (String.length (w1 +:+ s1)))
          as [Hlt|]; [|discriminate].
        apply IHf in Hk as (w2 & s2 & cs2 & -> & Hm2 & Hk).
        exists (w1 +:+ w2), s2, cs2. rewrite string_app_assoc.
        repeat split; [|exact Hk]. econstructor; [|eassumption..].
        intros ->. rewrite !string_length_app in Hlt. simpl in Hlt. lia.
      * exists "", s, cs. repeat split; [constructor | exact Hrun].
  - simpl in Hrun. apply IH1 in Hrun as (w & s' & cs' & -> & Hm & Hk).
    rewrite consumed_app in Hk.
    exists w, s', ((n, w) :: cs'). repeat split; [constructor; exact Hm | exact Hk].
Qed.

(** A match of [exec] is a word of the pattern inside the text, with the
    captures the pattern leaves. *)
Lemma exec_sound (r : regex) (s : string) (m : captures) :
  exec r s = Some m ->
  exists before w after, s = before +:+ w +:+ after /\ Matches r w [] m.
Proof.
  induction s as [|c t IH]; simpl.
  - destruct (run r _ "" []) as [out|] eqn:E; [|discriminate].
    intros [= ->]. apply run_sound in E as (w & s' & cs' & Hs & Hm & [= ->]).
    exists "", w, s'. auto.
  - destruct (run r _ (String c t) []) as [out|] eqn:E.
    + intros [= ->]. apply run_sound in E as (w & s' & cs' & Hs & Hm & [= ->]).
      exists "", w, s'. auto.
    + intros Hex. apply IH in Hex as (before & w & after & -> & Hm).
      exists (String c before), w, after. auto.
Qed.

Lemma Matches_no_group (r : regex) (w : string) (cs cs' : captures) :
  Matches r w cs cs' -> no_group r = true -> cs' = cs.
Proof.
  induction 1; simpl; intros Hng; try reflexivity;
    try (apply andb_prop in Hng as [? ?]); try discriminate; auto.
  - rewrite IHMatches2, IHMatches1; auto.
  - rewrite IHMatches2, IHMatches1; auto.
Qed.

Lemma all_chars_app (p : ascii -> bool) (a b : string) :
  all_chars p (a +:+ b) = all_chars p a && all_chars p b.
Proof.
  induction a as [|c a IH]; [reflexivity|]. rewrite string_app_cons. simpl.
  rewrite IH, andb_assoc. reflexivity.
Qed.

Lemma all_chars_impl (p q : ascii -> bool) (s : string) :
  (forall c, p c = true -> q c = true) -> all_chars p s = true -> all_chars q s = true.
Proof.
  intros Hpq. induction s as [|c s IH]; simpl; [auto|].
  intros H. apply andb_prop in H as [Hc Hs]. rewrite (Hpq c Hc). auto.
Qed.

Lemma Matches_alphabet (r : regex) (w : string) (cs cs' : captures) :
  Matches r w cs cs' -> all_chars (in_alphabet r) w = true.
Proof.
  induction 1; simpl; try reflexivity.
  - rewrite H. reflexivity.
  - rewrite all_chars_app. apply andb_true_intro. split.
    + eapply all_chars_impl; [|exact IHMatches1]. intros c ->. reflexivity.
    + eapply all_chars_impl; [|exact IHMatches2]. intros c ->. apply orb_true_r.
  - eapply all_chars_impl; [|exact IHMatches]. intros c ->. reflexivity.
  - eapply all_chars_impl; [|exact IHMatches]. intros c ->. apply orb_true_r.
  - rewrite all_chars_app. apply andb_true_intro. split; assumption.
  - exact IHMatches.
Qed.

End MatcherFacts.

(** ** The matcher finds every match *)

Section MatcherComplete.

Import Regex.

Lemma iterate_ext (body : matcher) (k k' : string -> captures -> option captures) :
  extensional body -> (forall s cs, k s cs = k' s cs) ->
  forall fuel s cs, iterate body k fuel s cs = iterate body k' fuel s cs.
Proof.
  intros Hbody Hk. induction fuel as [|fuel IH]; intros s cs; simpl; [apply Hk|].
  rewrite Hk. erewrite Hbody; [reflexivity|].
  intros s' cs'. simpl. destruct (_ <? _)%nat; auto.
Qed.

Lemma run_ext (r : regex) : extensional (run r).
Proof.
  induction r as [|p|r1 IH1 r2 IH2|r1 IH1 r2 IH2|r1 IH1|n r1 IH1];
    intros k k' s cs Hk; simpl.
  - apply Hk.
  - destruct s as [|c t]; [reflexivity|]. destruct (p c); [apply Hk | reflexivity].
  - apply IH1. intros s' cs'. apply IH2, Hk.
  - rewrite (IH1 k k' s cs Hk), (IH2 k k' s cs Hk). reflexivity.
  - apply iterate_ext; assumption.
  - apply IH1. intros s' cs'. apply Hk.
Qed.

Lemma run_fails (r : regex) (k : string -> captures -> option captures) :
  (forall s cs, k s cs = None) -> forall s cs, run r k s cs = None.
Proof.
  revert k. induction r as [|p|r1 IH1 r2 IH2|r1 IH1 r2 IH2|r1 IH1|n r1 IH1];
    intros k Hk s cs; simpl.
  - apply Hk.
  - destruct s as [|c t]; [reflexivity|]. destruct (p c); [apply Hk | reflexivity].
  - apply IH1. intros s' cs'. apply IH2, Hk.
  - rewrite IH1, IH2 by exact Hk. reflexivity.
  - generalize (String.length s). intros fuel. revert s cs.
    induction fuel as [|fuel IH]; intros s cs; simpl; [apply Hk|].
    rewrite IH1, Hk; [reflexivity|]. intros s' cs'. destruct (_ <? _)%nat; auto.
  - apply IH1. intros s' cs'. apply Hk.
Qed.

(** Fuel beyond the length of the text changes nothing. *)
Lemma iterate_fuel (r : regex) (k : string -> captures -> option captures) :
  forall n f1 f2 s cs,
    String.length s <= n -> String.length s <= f1 -> String.length s <= f2 ->
    iterate (run r) k f1 s cs = iterate (run r) k f2 s cs.
Proof.
  induction n as [|n IH]; intros f1 f2 s cs Hn H1 H2.
  - assert (Hnone : forall f, iterate (run r) k f s cs = k s cs).
    { intros [|f]; simpl; [reflexivity|]. rewrite run_fails; [reflexivity|].
      intros s' cs'. destruct (Nat.ltb_spec (String.length s') (String.length s)); [lia | reflexivity]. }
    rewrite !Hnone. reflexivity.
  - destruct f1 as [|f1], f2 as [|f2]; simpl; try reflexivity.
    + rewrite run_fails; [reflexivity|].
      intros s' cs'. destruct (Nat.ltb_spec (String.length s') (String.length s)); [lia | reflexivity].
    + rewrite run_fails; [reflexivity|].
      intros s' cs'. destruct (Nat.ltb_spec (String.length s') (String.length s)); [lia | reflexivity].
    + erewrite run_ext; [reflexivity|]. intros s' cs'. simpl.
      destruct (Nat.ltb_spec (String.length s') (String.length s)); [|reflexivity].
      apply IH; lia.
Qed.

(** Every word of the pattern in front of the text is found, or another
    match before it. *)
Lemma run_complete (r : regex) (w : string) (cs cs' : captures) :
  Matches r w cs cs' ->
  forall k s, is_Some (k s cs') -> is_Some (run r k (w +:+ s) cs).
Proof.
  induction 1 as [cs|p c cs Hp|r1 r2 w1 w2 cs cs1 cs2 _ IH1 _ IH2
                  |r1 r2 w cs cs' _ IH|r1 r2 w cs cs' _ IH|r cs
                  |r w1 w2 cs cs1 cs2 Hne _ IH1 _ IH2|n r w cs cs' _ IH];
    intros k s Hk.
  - exact Hk.
  - rewrite string_app_cons. simpl. rewrite Hp. exact Hk.
  - rewrite string_app_assoc. simpl. apply IH1, IH2, Hk.
  - simpl. specialize (IH k s Hk). destruct (run r1 k (w +:+ s) cs); [eauto|].
    destruct IH as [? ?]. discriminate.
  - simpl. destruct (run r1 k (w +:+ s) cs); [eauto|]. apply IH, Hk.
  - simpl. change ("" +:+ s) with s. destruct (String.length s); simpl; [exact Hk|].
    destruct (run r _ s cs); [eauto | exact Hk].
  - simpl. rewrite string_app_assoc.
    destruct (String.length (w1 +:+ w2 +:+ s)) as [|fuel] eqn:Hlen.
    { destruct w1; [contradiction|]. rewrite string_app_cons in Hlen. discriminate. }
    simpl.
    match goal with |- is_Some (match ?m with _ => _ end) => assert (Hbody : is_Some m) end.
    { apply IH1.
      assert (Hlt : String.length (w2 +:+ s) < String.length (w1 +:+ w2 +:+ s)).
      { rewrite (string_length_app w1). destruct w1; [contradiction|]. simpl. lia. }
      destruct (Nat.ltb_spec (String.length (w2 +:+ s)) (String.length (w1 +:+ w2 +:+ s)));
        [|lia].
      rewrite (iterate_fuel r k (String.length (w2 +:+ s)) fuel (String.length (w2 +:+ s)))
        by lia.
      apply (IH2 k s Hk). }
    destruct Hbody as [out ->]. eauto.
  - simpl. apply IH. rewrite consumed_app. exact Hk.
Qed.

Lemma exec_unfold (r : regex) (s : string) :
  exec r s =
  match run r (fun _ cs => Some cs) s [] with
  | Some cs => Some cs
  | None => match s with String _ t => exec r t | EmptyString => None end
  end.
Proof. destruct s; reflexivity. Qed.

(** A text with a word of the pattern in it has a match. *)
Lemma exec_complete (r : regex) (w : string) (m : captures) :
  Matches r w [] m ->
  forall before after, is_Some (exec r (before +:+ w +:+ after)).
Proof.
  intros Hm before after. induction before as [|c before IH].
  - change ("" +:+ w +:+ after) with (w +:+ after). rewrite exec_unfold.
    destruct (run_complete r w [] m Hm (fun _ cs => Some cs) after ltac:(eauto)) as [out ->].
    eauto.
  - rewrite string_app_cons, exec_unfold.
    destruct (run r _ _ []); [eauto | exact IH].
Qed.

(** A word of a pattern without groups is a word of it whatever the
    captures. *)
Lemma Matches_plain_any (r : regex) (w : string) (cs cs' : captures) :
  Matches r w cs cs' -> no_group r = true -> forall cs0, Matches r w cs0 cs0.
Proof.
  induction 1; simpl; intros Hng cs0; try (apply andb_prop in Hng as [? ?]);
    try discriminate; try (econstructor; eauto; fail).
Qed.

Lemma Matches_Seq_inv (r1 r2 : regex) (w : string) (cs cs' : captures) :
  Matches (Seq r1 r2) w cs cs' ->
  exists w1 w2 cs1, w = w1 +:+ w2 /\ Matches r1 w1 cs cs1 /\ Matches r2 w2 cs1 cs'.
Proof. intros H. inversion H; subst. eauto 6. Qed.

End MatcherComplete.

(** ** Numbers captured by the patterns *)

Section CapturedNumbers.

Import Js.

Lemma digit_not_space (c : ascii) : is_digit c = true -> is_space c = false.
Proof.
  unfold is_digit, is_space. generalize (nat_of_ascii c). intros n H.
  apply andb_prop in H as [H1 H2]. apply Nat.leb_le in H1. apply Nat.leb_le in H2.
  apply orb_false_intro; [apply andb_false_intro2 | ]; [apply Nat.leb_gt | apply Nat.eqb_neq]; lia.
Qed.

Lemma digit_cases (c : ascii) :
  is_digit c = true ->
  c = "0"%char \/ c = "1"%char \/ c = "2"%char \/ c = "3"%char \/ c = "4"%char \/
  c = "5"%char \/ c = "6"%char \/ c = "7"%char \/ c = "8"%char \/ c = "9"%char.
Proof.
  destruct c as [[] [] [] [] [] [] [] []]; vm_compute; intros H;
    try discriminate; tauto.
Qed.

Lemma digit_value_bounds (c : ascii) :
  is_digit c = true -> (0 <= digit_value c <= 9)%Z.
Proof.
  intros H. apply digit_cases in H.
  repeat (destruct H as [->|H]; [vm_compute; split; discriminate|]).
  subst. vm_compute. split; discriminate.
Qed.

Lemma read_sign_digit (c : ascii) (t : string) :
  is_digit c = true -> read_sign (String c t) = (false, String c t).
Proof.
  intros H. apply digit_cases in H.
  repeat (destruct H as [->|H]; [reflexivity|]). subst. reflexivity.
Qed.

Lemma startsWith_digit (p : string) (c d : ascii) (t : string) :
  is_digit c = true -> is_digit d = false -> startsWith (String d p) (String c t) = false.
Proof.
  intros Hc Hd. simpl. destruct (Ascii.eqb_spec d c) as [->|]; [congruence | reflexivity].
Qed.

Lemma startsWith_0x_digits (s : string) (x : ascii) :
  all_chars is_digit s = true -> is_digit x = false ->
  startsWith (String "0" (String x "")) s = false.
Proof.
  intros Hs Hx. destruct s as [|c [|d t]]; [reflexivity | simpl; apply andb_false_r |].
  simpl in *. apply andb_prop in Hs as [_ Hs]. apply andb_prop in Hs as [Hd _].
  destruct (Ascii.eqb_spec x d) as [->|]; [congruence|]. apply andb_false_r.
Qed.

Lemma read_digits_all (s : string) (acc : Z) (n : nat) :
  all_chars is_digit s = true -> (0 <= acc)%Z ->
  exists v, read_digits acc n s = (v, n + String.length s, "") /\ (0 <= v)%Z.
Proof.
  revert acc n. induction s as [|c s IH]; intros acc n Hs Hacc; simpl.
  - exists acc. rewrite Nat.add_0_r. auto.
  - simpl in Hs. apply andb_prop in Hs as [Hc Hs]. rewrite Hc.
    pose proof (digit_value_bounds c Hc).
    destruct (IH (10 * acc + digit_value c)%Z (S n) Hs ltac:(lia)) as (v & -> & Hv).
    exists v. split; [f_equal; f_equal; lia | exact Hv].
Qed.

Lemma read_digits_count (s : string) (acc : Z) (n : nat) (v : Z) (n' : nat) (s' : string) :
  read_digits acc n s = (v, n', s') -> n <= n'.
Proof.
  revert acc n. induction s as [|c s IH]; intros acc n H; simpl in H.
  - inversion H. lia.
  - destruct (is_digit c).
    + apply IH in H. lia.
    + inversion H. lia.
Qed.

(** A non-empty run of digits is parsed as a non-negative integer. *)
Lemma parseInt_digits (s : string) :
  all_chars is_digit s = true -> s <> "" ->
  exists z, parseInt s = of_Z z /\ (0 <= z)%Z.
Proof.
  intros Hs Hne. destruct s as [|c t]; [contradiction|].
  assert (Hc : is_digit c = true) by (simpl in Hs; apply andb_prop in Hs; tauto).
  unfold parseInt. cbn [trimStart]. rewrite (digit_not_space c Hc), (read_sign_digit c t Hc).
  rewrite !startsWith_0x_digits by (exact Hs || reflexivity). cbn [orb].
  destruct (read_digits_all (String c t) 0 0 Hs ltac:(lia)) as (v & -> & Hv).
  cbn [String.length Nat.add]. exists v. auto.
Qed.

(** A text that starts with a digit is parsed as a finite number. *)
Lemma parseFloat_digit_head (c : ascii) (t : string) :
  is_digit c = true -> exists q, parseFloat (String c t) = Num q.
Proof.
  intros Hc. unfold parseFloat. cbn [trimStart].
  rewrite (digit_not_space c Hc), (read_sign_digit c t Hc).
  rewrite startsWith_digit by (exact Hc || reflexivity).
  cbn [read_digits]. rewrite Hc.
  destruct (read_digits _ 1 t) as [[ip ni] s2] eqn:Hread.
  apply read_digits_count in Hread.
  destruct ni as [|ni]; [lia|].
  repeat match goal with
         | |- context [read_digits ?a ?b ?s] => destruct (read_digits a b s) as [[? ?] ?]
         | |- context [match ?x with _ => _ end] => is_var x; destruct x
         end; eauto.
Qed.

Lemma remove_comma_digits (s : string) :
  all_chars (fun c => is_digit c || Ascii.eqb c ",") s = true ->
  all_chars is_digit (remove_char "," s) = true.
Proof.
  induction s as [|c s IH]; simpl; [auto|]. intros H. apply andb_prop in H as [Hc Hs].
  destruct (Ascii.eqb c ","); [auto|]. simpl. rewrite orb_false_r in Hc. rewrite Hc. auto.
Qed.

Lemma remove_comma_head (c : ascii) (t : string) :
  is_digit c = true -> remove_char "," (String c t) = String c (remove_char "," t).
Proof.
  intros Hc. simpl. destruct (Ascii.eqb_spec c ",") as [->|]; [discriminate | reflexivity].
Qed.

Lemma Math_min_max_Num (x y : Q) :
  exists lo hi, Math_min (Num x) (Num y) = Num lo /\ Math_max (Num x) (Num y) = Num hi /\
                ordered_pair x y lo hi.
Proof.
  unfold Math_min, Math_max, ordered_pair. cbn [isNaN orb lt].
  destruct (Qltb y x) eqn:E1, (Qltb x y) eqn:E2;
    rewrite ?Qltb_spec, ?Qltb_false in *; do 2 eexists;
    (split; [reflexivity|]); (split; [reflexivity|]);
    repeat split; auto using Qle_refl, Qlt_le_weak.
Qed.

End CapturedNumbers.

(** ** The range patterns of the extractor *)

Section RangePatterns.

Import Regex Ask.

Lemma Matches_Seq_plain (r1 r2 : regex) (w : string) (cs cs' : captures) :
  no_group r1 = true -> Matches (Seq r1 r2) w cs cs' ->
  exists w2, Matches r2 w2 cs cs'.
Proof.
  intros Hng H. inversion H as [| |? ? w1 w2 ? cs1 ? H1 H2| | | | |]; subst.
  rewrite (Matches_no_group _ _ _ _ H1 Hng) in H2. eauto.
Qed.

Lemma Matches_Cap_plain (n : nat) (r : regex) (w : string) (cs cs' : captures) :
  no_group r = true -> Matches (Cap n r) w cs cs' ->
  cs' = (n, w) :: cs /\ Matches r w cs cs.
Proof.
  intros Hng H. inversion H as [| | | | | | |? ? ? ? cs1 H1]; subst.
  pose proof (Matches_no_group _ _ _ _ H1 Hng). subst. auto.
Qed.

Lemma Matches_Seq_Cap (n : nat) (r r2 : regex) (w : string) (cs cs' : captures) :
  no_group r = true -> Matches (Seq (Cap n r) r2) w cs cs' ->
  exists w1 w2, Matches r w1 cs cs /\ Matches r2 w2 ((n, w1) :: cs) cs'.
Proof.
  intros Hng H. inversion H as [| |? ? w1 w2 ? cs1 ? H1 H2| | | | |]; subst.
  apply Matches_Cap_plain in H1 as [-> H1]; eauto.
Qed.

Lemma Matches_digit_head (rest : regex) (w : string) (cs cs' : captures) :
  Matches (Seq digit rest) w cs cs' ->
  exists c t, w = String c t /\ Js.is_digit c = true.
Proof.
  intros H. inversion H as [| |? ? w1 w2 ? ? ? H1 H2| | | | |]; subst.
  inversion H1; subst. rewrite string_app_cons. eauto.
Qed.

Lemma Matches_digits_head (rest : regex) (w : string) (cs cs' : captures) :
  Matches (Seq (plus digit) rest) w cs cs' ->
  exists c t, w = String c t /\ Js.is_digit c = true.
Proof.
  intros H. inversion H as [| |? ? w1 w2 ? ? ? H1 H2| | | | |]; subst.
  apply Matches_digit_head in H1 as (c & t & -> & Hc). rewrite string_app_cons. eauto.
Qed.

(** A word of [\d+(?:,\d+)*] without its commas is a non-negative
    integer. *)
Lemma amount_value (w : string) (cs : captures) :
  Matches amount w cs cs ->
  exists z, Js.parseInt (Js.remove_char "," w) = Js.of_Z z /\ (0 <= z)%Z.
Proof.
  intros H. pose proof (Matches_alphabet _ _ _ _ H) as Hall.
  apply Matches_digits_head in H as (c & t & -> & Hc).
  apply parseInt_digits.
  - apply remove_comma_digits. eapply all_chars_impl; [|exact Hall].
    intros d. unfold amount, plus, digit, chr. cbn [in_alphabet].
    rewrite (Ascii.eqb_sym "," d). destruct (Js.is_digit d), (Ascii.eqb d ","); auto.
  - rewrite remove_comma_head by exact Hc. discriminate.
Qed.

(** A word of [\d+(?:\.\d+)?] is a finite number. *)
Lemma decimal_value (w : string) (cs : captures) :
  Matches decimal w cs cs -> exists q, Js.parseFloat w = Js.Num q.
Proof.
  intros H. apply Matches_digits_head in H as (c & t & -> & Hc).
  apply parseFloat_digit_head, Hc.
Qed.

(** A word of [\d+] is a non-negative integer. *)
Lemma digits_value (w : string) (cs : captures) :
  Matches (plus digit) w cs cs ->
  exists z, Js.parseInt w = Js.of_Z z /\ (0 <= z)%Z.
Proof.
  intros H. pose proof (Matches_alphabet _ _ _ _ H) as Hall.
  apply Matches_digit_head in H as (c & t & -> & Hc).
  apply parseInt_digits; [|discriminate].
  eapply all_chars_impl; [|exact Hall].
  intros d. unfold plus, digit. cbn [in_alphabet]. destruct (Js.is_digit d); auto.
Qed.

(** The captures the three range patterns and the bare credits pattern
    leave. *)
Lemma fee_between_captures (w : string) (m : captures) :
  Matches fee_between w [] m ->
  exists w1 w2, m = [(2, w2); (1, w1)] /\ Matches amount w1 [] [] /\
                Matches amount w2 [(1, w1)] [(1, w1)].
Proof.
  unfold fee_between. intros H.
  do 4 (apply Matches_Seq_plain in H as [? H]; [|reflexivity]).
  apply Matches_Seq_Cap in H as (w1 & ? & H1 & H); [|reflexivity].
  do 5 (apply Matches_Seq_plain in H as [? H]; [|reflexivity]).
  apply Matches_Cap_plain in H as [-> H2]; [|reflexivity]. eauto.
Qed.

Lemma rating_between_captures (w : string) (m : captures) :
  Matches rating_between w [] m ->
  exists w1 w2, m = [(2, w2); (1, w1)] /\ Matches decimal w1 [] [] /\
                Matches decimal w2 [(1, w1)] [(1, w1)].
Proof.
  unfold rating_between. intros H.
  do 4 (apply Matches_Seq_plain in H as [? H]; [|reflexivity]).
  apply Matches_Seq_Cap in H as (w1 & ? & H1 & H); [|reflexivity].
  do 3 (apply Matches_Seq_plain in H as [? H]; [|reflexivity]).
  apply Matches_Cap_plain in H as [-> H2]; [|reflexivity]. eauto.
Qed.

Lemma credits_between_captures (w : string) (m : captures) :
  Matches credits_between w [] m ->
  exists w1 w2, m = [(2, w2); (1, w1)] /\ Matches (plus digit) w1 [] [] /\
                Matches (plus digit) w2 [(1, w1)] [(1, w1)].
Proof.
  unfold credits_between. intros H.
  do 2 (apply Matches_Seq_plain in H as [? H]; [|reflexivity]).
  apply Matches_Seq_Cap in H as (w1 & ? & H1 & H); [|reflexivity].
  do 3 (apply Matches_Seq_plain in H as [? H]; [|reflexivity]).
  apply Matches_Seq_Cap in H as (w2 & ? & H2 & H); [|reflexivity].
  do 1 (apply Matches_Seq_plain in H as [? H]; [|reflexivity]).
  pose proof (Matches_no_group _ _ _ _ H eq_refl). subst. eauto.
Qed.

Lemma credits_bare_captures (w : string) (m : captures) :
  Matches credits_bare w [] m ->
  exists w1, m = [(1, w1)] /\ Matches (plus digit) w1 [] [].
Proof.
  unfold credits_bare. intros H.
  apply Matches_Seq_Cap in H as (w1 & ? & H1 & H); [|reflexivity].
  do 1 (apply Matches_Seq_plain in H as [? H]; [|reflexivity]).
  pose proof (Matches_no_group _ _ _ _ H eq_refl). subst. eauto.
Qed.

End RangePatterns.

Section CreditsShadow.

Import Regex Ask.

(** [exec] finds a match exactly when a word of the pattern lies in the
    text. *)
Lemma exec_matches (r : regex) (s : string) :
  is_Some (exec r s) <->
  exists before w after m, s = before +:+ w +:+ after /\ Matches r w [] m.
Proof.
  split.
  - intros [m Hm]. apply exec_sound in Hm as (before & w & after & Hs & Hm). eauto 6.
  - intros (before & w & after & m & -> & Hm). eapply exec_complete, Hm.
Qed.

Lemma shift_prefix (b x y a : string) :
  b +:+ (x +:+ y) +:+ a = (b +:+ x) +:+ y +:+ a.
Proof. rewrite !string_app_assoc. reflexivity. Qed.

(** Wherever the credits [between] pattern matches, so does the bare
    [N credits] pattern, which is listed before it: the loop over the
    credits rules stops there, and the [between] rule is never the one
    applied. *)
Lemma credits_between_is_shadowed (text : string) (m : captures) (filters : filter_map) :
  exec credits_between text = Some m ->
  exists m0 w n,
    exec credits_bare text = Some m0 /\
    m0 = [(1, w)] /\ Js.parseInt w = Js.of_Z n /\
    apply_first creditRegexes text filters = credits_bare_handler m0 ∪ filters.
Proof.
  intros Hbetween.
  assert (Hbare : is_Some (exec credits_bare text)).
  { apply exec_sound in Hbetween as (before & w & after & -> & Hm).
    unfold credits_between in Hm.
    do 6 (apply Matches_Seq_inv in Hm as (? & w' & ? & -> & _ & Hm); revert Hm;
          generalize w'; clear w'; intros w Hm).
    apply Matches_Seq_inv in Hm as (w2 & rest & cs2 & -> & Hcap & Hrest).
    inversion Hcap as [| | | | | | |? ? ? ? ? Hdigits]; subst.
    apply Matches_plain_any with (cs0 := []) in Hdigits; [|reflexivity].
    apply Matches_plain_any with (cs0 := [(1, w2)]) in Hrest; [|reflexivity].
    assert (Hword : Matches credits_bare (w2 +:+ rest) [] [(1, w2)]).
    { unfold credits_bare. econstructor; [constructor; exact Hdigits | exact Hrest]. }
    do 6 rewrite shift_prefix.
    eapply exec_complete, Hword. }
  destruct Hbare as [m0 Hbare]. pose proof Hbare as Hm0.
  apply exec_sound in Hm0 as (before & w & after & _ & Hm0).
  apply credits_bare_captures in Hm0 as (w1 & -> & Hdigits).
  apply digits_value in Hdigits as (n & Hn & _).
  exists [(1, w1)], w1, n. repeat split; try assumption.
  unfold creditRegexes. simpl. rewrite Hbare. reflexivity.
Qed.

End CreditsShadow.

(** ** Ranges given in either order (C7) *)

Section Frames.

Import Regex Ask.

Lemma set_family_other (key : string) (table : list (string * list string))
    (text : string) (filters : filter_map) (k : string) :
  k <> key -> set_family key table text filters !! k = filters !! k.
Proof.
  intros Hk. unfold set_family. destruct (first_family table text); [|reflexivity].
  apply lookup_insert_ne. auto.
Qed.

Lemma set_year_other (text : string) (filters : filter_map) (k : string) :
  k <> "year_offered" -> set_year text filters !! k = filters !! k.
Proof.
  intros Hk. unfold set_year. destruct (exec year_pattern text); [|reflexivity].
  apply lookup_insert_ne. auto.
Qed.

Lemma set_search_terms_other (text : string) (filters : filter_map) (k : string) :
  k <> "q" -> set_search_terms text filters !! k = filters !! k.
Proof.
  intros Hk. unfold set_search_terms. destruct (filter _ _); [reflexivity|].
  apply lookup_insert_ne. auto.
Qed.

Lemma apply_first_other (rules : list rule) (text : string) (filters : filter_map)
    (k : string) :
  untouched rules k -> apply_first rules text filters !! k = filters !! k.
Proof.
  induction 1 as [|[re handler] rules Hk _ IH]; [reflexivity|]. simpl.
  destruct (exec re text) as [m|]; [|exact IH].
  apply lookup_union_r, Hk.
Qed.

Lemma pair_lookup (k1 k2 : string) (a b : value) (filters : filter_map) :
  k1 <> k2 ->
  (({[ k1 := a; k2 := b ]} : filter_map) ∪ filters) !! k1 = Some a /\
  (({[ k1 := a; k2 := b ]} : filter_map) ∪ filters) !! k2 = Some b.
Proof.
  intros Hne. split; apply lookup_union_Some_l.
  - apply lookup_insert_eq.
  - rewrite lookup_insert_ne by exact Hne. apply lookup_singleton_eq.
Qed.

End Frames.

Lemma rating_rules_untouched (k : string) :
  k <> "min_rating" -> k <> "max_rating" -> untouched Ask.ratingRegexes k.
Proof.
  intros H1 H2. unfold untouched, Ask.ratingRegexes.
  repeat (apply List.Forall_cons; [intros m; cbn [snd]|]); [..|apply List.Forall_nil];
    unfold Ask.rating_between_handler; cbv zeta;
    rewrite ?lookup_insert_ne by auto; apply lookup_singleton_ne; auto.
Qed.

Lemma credit_rules_untouched (k : string) :
  k <> "min_credits" -> k <> "max_credits" -> untouched Ask.creditRegexes k.
Proof.
  intros H1 H2. unfold untouched, Ask.creditRegexes.
  repeat (apply List.Forall_cons; [intros m; cbn [snd]|]); [..|apply List.Forall_nil];
    unfold Ask.credits_bare_handler, Ask.credits_between_handler; cbv zeta;
    rewrite ?lookup_insert_ne by auto; apply lookup_singleton_ne; auto.
Qed.

(** The fee, rating and credits keys of the result are those the three
    rule loops leave. *)
Lemma extractor_range_keys (question : string) :
  let text := Js.trim (Js.toLowerCase question) in
  exists f2 f3 f4 : filter_map,
    (forall k, k = "min_fee" \/ k = "max_fee" ->
       Ask.parseNaturalLanguageQuery question !! k =
       Ask.apply_first Ask.feeRegexes text f2 !! k) /\
    (forall k, k = "min_rating" \/ k = "max_rating" ->
       Ask.parseNaturalLanguageQuery question !! k =
       Ask.apply_first Ask.ratingRegexes text f3 !! k) /\
    (forall k, k = "min_credits" \/ k = "max_credits" ->
       Ask.parseNaturalLanguageQuery question !! k =
       Ask.apply_first Ask.creditRegexes text f4 !! k).
Proof.
  intros text.
  set (f2 := Ask.set_family "level" Ask.levelPatterns text
               (Ask.set_family "delivery_mode" Ask.deliveryModePatterns text ∅)).
  set (f3 := Ask.apply_first Ask.feeRegexes text f2).
  set (f4 := Ask.apply_first Ask.ratingRegexes text f3).
  exists f2, f3, f4.
  assert (Hall : forall k, k <> "department" -> k <> "year_offered" -> k <> "q" ->
            Ask.parseNaturalLanguageQuery question !! k =
            Ask.apply_first Ask.creditRegexes text f4 !! k).
  { intros k H1 H2 H3. unfold Ask.parseNaturalLanguageQuery. fold text. cbv zeta.
    fold f2. fold f3. fold f4.
    rewrite set_search_terms_other by exact H3.
    rewrite set_year_other by exact H2.
    apply set_family_other, H1. }
  split; [|split]; intros k Hk; rewrite Hall by (destruct Hk; subst; discriminate).
  - rewrite apply_first_other
      by (apply credit_rules_untouched; destruct Hk; subst; discriminate).
    unfold f4. apply apply_first_other.
    apply rating_rules_untouched; destruct Hk; subst; discriminate.
  - apply apply_first_other.
    apply credit_rules_untouched; destruct Hk; subst; discriminate.
  - reflexivity.
Qed.

(** The ranges of fees and of ratings.  For every question, with [text]
    its lower-cased, trimmed text: when the fee loop reaches the
    [between X and Y] pattern and the pattern matches, [min_fee] and
    [max_fee] are both set, to the lesser and to the greater of [X] and
    [Y]; likewise [min_rating] and [max_rating] when the rating loop
    reaches its [between] pattern.  So the minimum is at most the maximum,
    also when [X > Y].  (The numbers are those of the exact reading:
    figures of at most fifteen digits.) *)
Lemma fee_and_rating_ranges_are_ordered (question : string) :
  let text := Js.trim (Js.toLowerCase question) in
  let filters := Ask.parseNaturalLanguageQuery question in
  (forall m,
      Regex.exec Ask.fee_under text = None ->
      Regex.exec Ask.fee_above text = None ->
      Regex.exec Ask.fee_between text = Some m ->
      exists x y : Z,
        Ask.capture_amount m 1 = Js.of_Z x /\
        Ask.capture_amount m 2 = Js.of_Z y /\
        filters !! "min_fee" = Some (VNum (Js.of_Z (Z.min x y))) /\
        filters !! "max_fee" = Some (VNum (Js.of_Z (Z.max x y))) /\
        (Z.min x y <= Z.max x y)%Z) /\
  (forall m,
      Regex.exec Ask.rating_above text = None ->
      Regex.exec Ask.rating_below text = None ->
      Regex.exec Ask.rating_between text = Some m ->
      exists x y lo hi : Q,
        Js.parseFloat (Ask.capture m 1) = Js.Num x /\
        Js.parseFloat (Ask.capture m 2) = Js.Num y /\
        filters !! "min_rating" = Some (VNum (Js.Num lo)) /\
        filters !! "max_rating" = Some (VNum (Js.Num hi)) /\
        ordered_pair x y lo hi).
Proof.
  intros text filters.
  destruct (extractor_range_keys question) as (f2 & f3 & f4 & Hfee & Hrating & Hcredits).
  fold text in Hfee, Hrating, Hcredits. fold filters in Hfee, Hrating, Hcredits.
  split.
  - intros m Hunder Habove Hbetween.
    rewrite (Hfee "min_fee"), (Hfee "max_fee") by auto.
    unfold Ask.feeRegexes. cbn [Ask.apply_first]. rewrite Hunder, Habove, Hbetween.
    apply exec_sound in Hbetween as (pre & w & post & _ & Hm).
    apply fee_between_captures in Hm as (w1 & w2 & -> & H1 & H2).
    apply amount_value in H1 as (x & Hx & _). apply amount_value in H2 as (y & Hy & _).
    exists x, y. unfold Ask.fee_between_handler, Ask.capture_amount.
    change (Ask.capture [(2, w2); (1, w1)] 1) with w1.
    change (Ask.capture [(2, w2); (1, w1)] 2) with w2.
    cbv zeta. rewrite Hx, Hy, Math_min_of_Z, Math_max_of_Z.
    destruct (pair_lookup "min_fee" "max_fee" (VNum (Js.of_Z (Z.min x y)))
                (VNum (Js.of_Z (Z.max x y))) f2 ltac:(discriminate)) as [-> ->].
    repeat split; lia.
  - intros m Habove Hbelow Hbetween.
    rewrite (Hrating "min_rating"), (Hrating "max_rating") by auto.
    unfold Ask.ratingRegexes. cbn [Ask.apply_first]. rewrite Habove, Hbelow, Hbetween.
    apply exec_sound in Hbetween as (pre & w & post & _ & Hm).
    apply rating_between_captures in Hm as (w1 & w2 & -> & H1 & H2).
    apply decimal_value in H1 as (x & Hx). apply decimal_value in H2 as (y & Hy).
    destruct (Math_min_max_Num x y) as (lo & hi & Hlo & Hhi & Hord).
    exists x, y, lo, hi. unfold Ask.rating_between_handler.
    change (Ask.capture [(2, w2); (1, w1)] 1) with w1.
    change (Ask.capture [(2, w2); (1, w1)] 2) with w2.
    cbv zeta. rewrite Hx, Hy, Hlo, Hhi.
    destruct (pair_lookup "min_rating" "max_rating" (VNum (Js.Num lo))
                (VNum (Js.Num hi)) f3 ltac:(discriminate)) as [-> ->].
    auto.
Qed.

Example fee_and_rating_ranges_example :
  let filters := Ask.parseNaturalLanguageQuery ranges_question in
  filters !! "min_fee" = Some (VNum (Js.of_Z 40000)) /\
  filters !! "max_fee" = Some (VNum (Js.of_Z 80000)) /\
  filters !! "min_rating" = Some (VNum (Js.of_Z 3)) /\
  filters !! "max_rating" = Some (VNum (Js.Num (9 # 2))).
Proof. repeat split; vm_compute; reflexivity. Qed.

(** C7 fails for credits.  On [between 6 and 3 credits] the credits
    [between] pattern matches, and its handler would set the bounds 3 and
    6; but the bare [N credits] pattern is listed before it and matches
    [3 credits], so the loop over the credits rules stops there: both keys
    are 3, and the range is lost.  (By [credits_between_is_shadowed] this
    is so wherever the [between] pattern matches.) *)
Theorem credits_range_is_not_swapped :
  let text := "between 6 and 3 credits" in
  let filters := Ask.parseNaturalLanguageQuery text in
  (exists m, Regex.exec Ask.credits_between text = Some m /\
     Ask.credits_between_handler m !! "min_credits" = Some (VNum (Js.of_Z 3)) /\
     Ask.credits_between_handler m !! "max_credits" = Some (VNum (Js.of_Z 6))) /\
  filters !! "min_credits" = Some (VNum (Js.of_Z 3)) /\
  filters !! "max_credits" = Some (VNum (Js.of_Z 3)).
Proof.
  split; [|split; vm_compute; reflexivity].
  eexists. split; [vm_compute; reflexivity|]. split; vm_compute; reflexivity.
Qed.

(** * Further properties of the routes and of the pages *)

(** ** The extractor, key by key *)

Section ExtractorLookup.

Import Regex Ask.

Lemma fee_rules_untouched (k : string) :
  k <> "min_fee" -> k <> "max_fee" -> untouched feeRegexes k.
Proof.
  intros H1 H2. unfold untouched, feeRegexes.
  repeat (apply List.Forall_cons; [intros m; cbn [snd]|]); [..|apply List.Forall_nil];
    unfold fee_between_handler; cbv zeta;
    rewrite ?lookup_insert_ne by auto; apply lookup_singleton_ne; auto.
Qed.

(** A key the base map does not hold is looked up in what the first
    matching rule sets. *)
Lemma apply_first_base (rules : list rule) (text : string) (filters : filter_map)
    (k : string) :
  filters !! k = None ->
  apply_first rules text filters !! k = apply_first rules text ∅ !! k.
Proof.
  intros Hk. induction rules as [|[re handler] rules IH]; simpl.
  - rewrite Hk. symmetry. apply lookup_empty.
  - destruct (exec re text) as [m|]; [|exact IH].
    rewrite !lookup_union, Hk, lookup_empty. reflexivity.
Qed.

Lemma set_family_lookup (key : string) (table : list (string * list string))
    (text : string) (filters : filter_map) :
  filters !! key = None ->
  set_family key table text filters !! key = VStr <$> first_family table text.
Proof.
  intros Hk. unfold set_family. destruct (first_family table text); simpl.
  - apply lookup_insert_eq.
  - exact Hk.
Qed.

(** The value of every key of the result, in terms of the step that
    sets it. *)
Lemma extractor_lookup (question : string) :
  let text := Js.trim (Js.toLowerCase question) in
  let filters := parseNaturalLanguageQuery question in
  filters !! "delivery_mode" = VStr <$> first_family deliveryModePatterns text /\
  filters !! "level" = VStr <$> first_family levelPatterns text /\
  filters !! "department" = VStr <$> first_family departmentKeywords text /\
  (forall k, k = "min_fee" \/ k = "max_fee" ->
     filters !! k = apply_first feeRegexes text ∅ !! k) /\
  (forall k, k = "min_rating" \/ k = "max_rating" ->
     filters !! k = apply_first ratingRegexes text ∅ !! k) /\
  (forall k, k = "min_credits" \/ k = "max_credits" ->
     filters !! k = apply_first creditRegexes text ∅ !! k) /\
  filters !! "year_offered" =
    (fun m => VNum (Js.parseInt (capture m 1))) <$> exec year_pattern text /\
  filters !! "q" =
    match filter is_search_term (Js.split_ws text) with
    | [] => None
    | searchTerms => Some (VStr (Js.join " " searchTerms))
    end /\
  (forall k, k ∉ filter_keys -> filters !! k = None).
Proof.
  intros text filters. unfold filters, parseNaturalLanguageQuery. fold text. cbv zeta.
  set (f1 := set_family "delivery_mode" deliveryModePatterns text ∅).
  set (f2 := set_family "level" levelPatterns text f1).
  set (f3 := apply_first feeRegexes text f2).
  set (f4 := apply_first ratingRegexes text f3).
  set (f5 := apply_first creditRegexes text f4).
  set (f6 := set_family "department" departmentKeywords text f5).
  set (f7 := set_year text f6).
  assert (H1 : forall k, k <> "delivery_mode" -> f1 !! k = None).
  { intros k Hk. unfold f1. rewrite set_family_other by exact Hk. apply lookup_empty. }
  assert (H2 : forall k, k <> "level" -> f2 !! k = f1 !! k).
  { intros k Hk. apply set_family_other, Hk. }
  assert (H3 : forall k, k <> "min_fee" -> k <> "max_fee" -> f3 !! k = f2 !! k).
  { intros k Ha Hb. apply apply_first_other, fee_rules_untouched; assumption. }
  assert (H4 : forall k, k <> "min_rating" -> k <> "max_rating" -> f4 !! k = f3 !! k).
  { intros k Ha Hb. apply apply_first_other, rating_rules_untouched; assumption. }
  assert (H5 : forall k, k <> "min_credits" -> k <> "max_credits" -> f5 !! k = f4 !! k).
  { intros k Ha Hb. apply apply_first_other, credit_rules_untouched; assumption. }
  assert (H6 : forall k, k <> "department" -> f6 !! k = f5 !! k).
  { intros k Hk. apply set_family_other, Hk. }
  assert (H7 : forall k, k <> "year_offered" -> f7 !! k = f6 !! k).
  { intros k Hk. apply set_year_other, Hk. }
  assert (H8 : forall k, k <> "q" -> set_search_terms text f7 !! k = f7 !! k).
  { intros k Hk. apply set_search_terms_other, Hk. }
  repeat split.
  - rewrite H8, H7, H6, H5, H4, H3, H2 by discriminate.
    apply set_family_lookup, lookup_empty.
  - rewrite H8, H7, H6, H5, H4, H3 by discriminate.
    apply set_family_lookup, H1. discriminate.
  - rewrite H8, H7 by discriminate.
    apply set_family_lookup. rewrite H5, H4, H3, H2 by discriminate. apply H1. discriminate.
  - intros k Hk. rewrite H8, H7, H6, H5, H4 by (destruct Hk; subst; discriminate).
    apply apply_first_base. rewrite H2 by (destruct Hk; subst; discriminate).
    apply H1. destruct Hk; subst; discriminate.
  - intros k Hk. rewrite H8, H7, H6, H5 by (destruct Hk; subst; discriminate).
    apply apply_first_base. rewrite H3, H2 by (destruct Hk; subst; discriminate).
    apply H1. destruct Hk; subst; discriminate.
  - intros k Hk. rewrite H8, H7, H6 by (destruct Hk; subst; discriminate).
    apply apply_first_base. rewrite H4, H3, H2 by (destruct Hk; subst; discriminate).
    apply H1. destruct Hk; subst; discriminate.
  - rewrite H8 by discriminate. unfold f7, set_year.
    destruct (exec year_pattern text) as [m|]; simpl.
    + apply lookup_insert_eq.
    + rewrite H6, H5, H4, H3, H2 by discriminate. apply H1. discriminate.
  - unfold set_search_terms.
    destruct (filter is_search_term (Js.split_ws text)) as [|w ws].
    + rewrite H7, H6, H5, H4, H3, H2 by discriminate. apply H1. discriminate.
    + apply lookup_insert_eq.
  - intros k Hk. unfold filter_keys in Hk.
    rewrite !not_elem_of_cons in Hk.
    destruct Hk as (? & ? & ? & ? & ? & ? & ? & ? & ? & ? & ? & _).
    rewrite H8, H7, H6, H5, H4, H3, H2 by assumption. apply H1. assumption.
Qed.

End ExtractorLookup.

Section KeywordFamilies.

Import Ask.

Lemma existsb_mentions (text : string) (patterns : list string) :
  existsb (Js.includes text) patterns = true <-> mentions text patterns.
Proof.
  unfold mentions. rewrite existsb_exists. split.
  - intros (p & Hp & Hin). exists p. split; [apply list_elem_of_In; exact Hp | exact Hin].
  - intros (p & Hp & Hin). exists p. split; [apply list_elem_of_In; exact Hp | exact Hin].
Qed.

Lemma first_family_Some (text : string) (table : list (string * list string))
    (name : string) :
  first_family table text = Some name -> first_mentioned text table name.
Proof.
  induction table as [|[n patterns] table IH]; [discriminate|]. simpl.
  destruct (existsb (Js.includes text) patterns) eqn:E.
  - intros [= <-]. exists [], patterns, table. repeat split.
    + apply existsb_mentions, E.
    + constructor.
  - intros H. destruct (IH H) as (before & ps & after & -> & Hm & Hbefore).
    exists ((n, patterns) :: before), ps, after. repeat split; [exact Hm|].
    constructor; [|exact Hbefore]. simpl. rewrite <- existsb_mentions, E. discriminate.
Qed.

Lemma first_family_None (text : string) (table : list (string * list string)) :
  first_family table text = None -> unmentioned text table.
Proof.
  induction table as [|[n patterns] table IH]; [constructor|]. simpl.
  destruct (existsb (Js.includes text) patterns) eqn:E; [discriminate|].
  intros H. constructor; [|exact (IH H)]. simpl. rewrite <- existsb_mentions, E. discriminate.
Qed.

Lemma first_mentioned_family (text : string) (table : list (string * list string))
    (name : string) :
  first_mentioned text table name -> first_family table text = Some name.
Proof.
  intros (before & ps & after & -> & Hm & Hbefore).
  induction Hbefore as [|[n patterns] before Hn _ IH]; simpl.
  - apply existsb_mentions in Hm. rewrite Hm. reflexivity.
  - destruct (existsb (Js.includes text) patterns) eqn:E; [|exact IH].
    apply existsb_mentions in E. contradiction.
Qed.

Lemma unmentioned_family (text : string) (table : list (string * list string)) :
  unmentioned text table -> first_family table text = None.
Proof.
  induction 1 as [|[n patterns] table Hn _ IH]; [reflexivity|]. simpl.
  destruct (existsb (Js.includes text) patterns) eqn:E; [|exact IH].
  apply existsb_mentions in E. contradiction.
Qed.

Lemma first_family_name (text : string) (table : list (string * list string))
    (name : string) :
  first_family table text = Some name -> name ∈ table.*1.
Proof.
  intros H. apply first_family_Some in H as (before & ps & after & -> & _).
  rewrite fmap_app, fmap_cons. apply elem_of_app. right. left.
Qed.

End KeywordFamilies.

(** X1.  The extractor sets no key besides the eleven keys of a raw
    filter map; it never sets, say, a duration bound or a sort order. *)
Theorem extractor_sets_known_keys (question k : string) :
  is_Some (Ask.parseNaturalLanguageQuery question !! k) -> k ∈ filter_keys.
Proof.
  intros [v Hv]. destruct (decide (k ∈ filter_keys)) as [Hk|Hk]; [exact Hk|].
  destruct (extractor_lookup question) as (_ & _ & _ & _ & _ & _ & _ & _ & Hother).
  rewrite (Hother k Hk) in Hv. discriminate.
Qed.

Lemma extractor_sets_known_keys_witness : "min_fee" ∈ filter_keys.
Proof.
  apply (extractor_sets_known_keys scenario_text "min_fee").
  vm_compute. eexists. reflexivity.
Defined.

(** X2.  The categories the extractor sets are texts of the
    enumerations: a level the courses route accepts, a delivery mode the
    courses route accepts, a department the filter component offers. *)
Theorem extracted_categories_are_offered (question : string) (v : value) :
  let filters := Ask.parseNaturalLanguageQuery question in
  (filters !! "level" = Some v ->
   exists name, v = VStr name /\ name ∈ Courses.validLevels /\ name ∈ Filters.levels) /\
  (filters !! "delivery_mode" = Some v ->
   exists name, v = VStr name /\ name ∈ Courses.validDeliveryModes /\
                name ∈ Filters.delivery_modes) /\
  (filters !! "department" = Some v ->
   exists name, v = VStr name /\ name ∈ Filters.departments).
Proof.
  intros filters.
  destruct (extractor_lookup question) as (Hmode & Hlevel & Hdept & _).
  fold filters in Hmode, Hlevel, Hdept.
  split; [|split]; intros Hv.
  - rewrite Hlevel in Hv.
    destruct (Ask.first_family Ask.levelPatterns _) as [name|] eqn:E; [|discriminate].
    injection Hv as <-. apply first_family_name in E. exists name. auto.
  - rewrite Hmode in Hv.
    destruct (Ask.first_family Ask.deliveryModePatterns _) as [name|] eqn:E; [|discriminate].
    injection Hv as <-. apply first_family_name in E. exists name. auto.
  - rewrite Hdept in Hv.
    destruct (Ask.first_family Ask.departmentKeywords _) as [name|] eqn:E; [|discriminate].
    injection Hv as <-. apply first_family_name in E. exists name. auto.
Qed.

Lemma extracted_categories_are_offered_witness :
  exists name, VStr "PG" = VStr name /\ name ∈ Courses.validLevels /\ name ∈ Filters.levels.
Proof.
  apply (extracted_categories_are_offered scenario_text (VStr "PG")).
  vm_compute. reflexivity.
Defined.

(** X3.  The families of a keyword table are tried in the order of the
    table and a keyword counts wherever it occurs in the lower-cased
    text, inside a word too: a category is set to the first family with a
    keyword in the text, and left out exactly when no keyword of the table
    occurs. *)
Theorem families_are_tried_in_order (question name : string) :
  let text := Js.trim (Js.toLowerCase question) in
  let filters := Ask.parseNaturalLanguageQuery question in
  (filters !! "delivery_mode" = Some (VStr name)
     <-> first_mentioned text Ask.deliveryModePatterns name) /\
  (filters !! "delivery_mode" = None <-> unmentioned text Ask.deliveryModePatterns) /\
  (filters !! "level" = Some (VStr name) <-> first_mentioned text Ask.levelPatterns name) /\
  (filters !! "level" = None <-> unmentioned text Ask.levelPatterns) /\
  (filters !! "department" = Some (VStr name)
     <-> first_mentioned text Ask.departmentKeywords name) /\
  (filters !! "department" = None <-> unmentioned text Ask.departmentKeywords).
Proof.
  intros text filters.
  destruct (extractor_lookup question) as (Hmode & Hlevel & Hdept & _).
  fold text filters in Hmode, Hlevel, Hdept. rewrite Hmode, Hlevel, Hdept.
  assert (H : forall table,
             (VStr <$> Ask.first_family table text = Some (VStr name)
                <-> first_mentioned text table name) /\
             (VStr <$> Ask.first_family table text = None <-> unmentioned text table)).
  { intros table. destruct (Ask.first_family table text) as [n|] eqn:E; simpl.
    - split; split.
      + intros [= ->]. apply first_family_Some, E.
      + intros Hn. apply first_mentioned_family in Hn. congruence.
      + discriminate.
      + intros Hn. apply unmentioned_family in Hn. congruence.
    - split; split.
      + discriminate.
      + intros Hn. apply first_mentioned_family in Hn. congruence.
      + intros _. apply first_family_None, E.
      + reflexivity. }
  repeat split; apply H.
Qed.

Lemma families_are_tried_in_order_witness :
  first_mentioned (Js.trim (Js.toLowerCase scenario_text)) Ask.levelPatterns "PG".
Proof.
  apply (families_are_tried_in_order scenario_text "PG").
  vm_compute. reflexivity.
Defined.

Section Substrings.

Lemma includes_startsWith (p s : string) :
  Js.startsWith p s = true -> Js.includes s p = true.
Proof. intros H. destruct s; simpl; rewrite H; reflexivity. Qed.

Lemma includes_tail (c : ascii) (s p : string) :
  Js.includes s p = true -> Js.includes (String c s) p = true.
Proof. intros H. cbn [Js.includes]. rewrite H. apply orb_true_r. Qed.

(** A text that includes a word includes the word without its first
    character. *)
Lemma includes_drop_head (c : ascii) (p s : string) :
  Js.includes s (String c p) = true -> Js.includes s p = true.
Proof.
  induction s as [|a s IH]; cbn [Js.includes Js.startsWith].
  - rewrite orb_false_r. discriminate.
  - intros H. apply orb_prop in H as [H|H].
    + apply andb_prop in H as [_ H]. apply includes_tail, includes_startsWith, H.
    + apply includes_tail, IH, H.
Qed.

End Substrings.

(** X4.  Keywords that can never select their family.  [mba] is listed
    under [PG], but it contains [ba], a keyword of [UG], which is tried
    first: a question that mentions [mba] is read as undergraduate.
    [business] is listed under Management and under Commerce, [creative]
    under Arts and under Design: neither selects the later family. *)
Theorem shadowed_keywords (question : string) :
  let text := Js.trim (Js.toLowerCase question) in
  let filters := Ask.parseNaturalLanguageQuery question in
  (Js.includes text "mba" = true -> filters !! "level" = Some (VStr "UG")) /\
  (Js.includes text "business" = true -> filters !! "department" <> Some (VStr "Commerce")) /\
  (Js.includes text "creative" = true -> filters !! "department" <> Some (VStr "Design")).
Proof.
  intros text filters.
  destruct (extractor_lookup question) as (_ & Hlevel & Hdept & _).
  fold text filters in Hlevel, Hdept. rewrite Hlevel, Hdept.
  split; [|split]; intros H.
  - apply includes_drop_head in H.
    unfold Ask.levelPatterns. cbn [Ask.first_family existsb]. rewrite H.
    rewrite !orb_true_r. reflexivity.
  - unfold Ask.departmentKeywords. cbn [Ask.first_family existsb]. rewrite H.
    rewrite !orb_true_r.
    destruct (_ || _); simpl; discriminate.
  - unfold Ask.departmentKeywords. cbn [Ask.first_family existsb]. rewrite H.
    rewrite !orb_true_r.
    repeat (destruct (_ || _); simpl; [discriminate|]). discriminate.
Qed.

Lemma shadowed_keywords_witness :
  Ask.parseNaturalLanguageQuery "MBA courses in business" !! "level" = Some (VStr "UG") /\
  Ask.parseNaturalLanguageQuery "MBA courses in business" !! "department"
    <> Some (VStr "Commerce").
Proof.
  destruct (shadowed_keywords "MBA courses in business") as (Hmba & Hbusiness & _).
  split; [apply Hmba | apply Hbusiness]; vm_compute; reflexivity.
Defined.

(** ** The numbers the extractor reads *)

Section ReadNumbers.

Import Js.

Lemma read_digits_nonneg (s : string) :
  forall acc n v n' s',
    read_digits acc n s = (v, n', s') -> (0 <= acc)%Z -> (0 <= v)%Z.
Proof.
  induction s as [|c t IH]; intros acc n v n' s'; cbn [read_digits].
  - intros [= <- _ _] H. exact H.
  - destruct (is_digit c) eqn:Hc.
    + intros H Hacc. apply (IH _ _ _ _ _ H).
      pose proof (digit_value_bounds c Hc). lia.
    + intros [= <- _ _] H. exact H.
Qed.

Lemma scale10_nonneg (m e : Z) : (0 <= m)%Z -> (0 <= scale10 m e)%Q.
Proof.
  intros Hm. unfold scale10. destruct e as [|p|p].
  - rewrite <- (Zle_Qle 0). lia.
  - rewrite <- (Zle_Qle 0). apply Z.mul_nonneg_nonneg; [exact Hm|]. apply Z.pow_nonneg. lia.
  - rewrite Qred_correct. apply Qle_shift_div_l.
    + rewrite <- (Zlt_Qlt 0). apply Z.pow_pos_nonneg; lia.
    + rewrite Qmult_0_l. rewrite <- (Zle_Qle 0). exact Hm.
Qed.

(** A text that starts with a digit is parsed as a number that is not
    negative. *)
Lemma parseFloat_digit_head_nonneg (c : ascii) (t : string) :
  is_digit c = true -> exists q, parseFloat (String c t) = Num q /\ (0 <= q)%Q.
Proof.
  intros Hc. unfold parseFloat. cbn [trimStart].
  rewrite (digit_not_space c Hc), (read_sign_digit c t Hc).
  rewrite startsWith_digit by (exact Hc || reflexivity).
  cbn [read_digits]. rewrite Hc.
  destruct (read_digits _ 1 t) as [[ip ni] s2] eqn:Hread.
  pose proof (read_digits_count _ _ _ _ _ _ Hread) as Hcount.
  apply read_digits_nonneg in Hread; [|pose proof (digit_value_bounds c Hc); lia].
  destruct ni as [|ni]; [lia|].
  repeat match goal with
         | |- context [read_digits ?a ?b ?s] =>
             let E := fresh "E" in
             destruct (read_digits a b s) as [[? ?] ?] eqn:E;
             apply read_digits_nonneg in E; [|assumption]
         | |- context [match ?x with _ => _ end] => is_var x; destruct x
         end;
    (eexists; split; [reflexivity | apply scale10_nonneg; assumption]).
Qed.

End ReadNumbers.

Section RulePatterns.

Import Regex Ask.

(** A word of [\d+(?:\.\d+)?] is a number that is not negative. *)
Lemma decimal_value_nonneg (w : string) (cs : captures) :
  Matches decimal w cs cs -> exists q, Js.parseFloat w = Js.Num q /\ (0 <= q)%Q.
Proof.
  intros H. apply Matches_digits_head in H as (c & t & -> & Hc).
  apply parseFloat_digit_head_nonneg, Hc.
Qed.

(** The only group of these patterns is the last thing they read. *)
Lemma last_group_captures (r0 r1 r2 r3 body : regex) (w : string) (m : captures) :
  no_group r0 = true -> no_group r1 = true -> no_group r2 = true -> no_group r3 = true ->
  no_group body = true ->
  Matches (Seq r0 (Seq r1 (Seq r2 (Seq r3 (Cap 1 body))))) w [] m ->
  exists w1, m = [(1, w1)] /\ Matches body w1 [] [].
Proof.
  intros H0 H1 H2 H3 Hb H.
  apply Matches_Seq_plain in H as [? H]; [|exact H0].
  apply Matches_Seq_plain in H as [? H]; [|exact H1].
  apply Matches_Seq_plain in H as [? H]; [|exact H2].
  apply Matches_Seq_plain in H as [? H]; [|exact H3].
  apply Matches_Cap_plain in H as [-> H]; [|exact Hb]. eauto.
Qed.

Lemma fee_under_captures (w : string) (m : captures) :
  Matches fee_under w [] m -> exists w1, m = [(1, w1)] /\ Matches amount w1 [] [].
Proof. apply last_group_captures; reflexivity. Qed.

Lemma fee_above_captures (w : string) (m : captures) :
  Matches fee_above w [] m -> exists w1, m = [(1, w1)] /\ Matches amount w1 [] [].
Proof. apply last_group_captures; reflexivity. Qed.

Lemma fee_exact_captures (w : string) (m : captures) :
  Matches fee_exact w [] m -> exists w1, m = [(1, w1)] /\ Matches amount w1 [] [].
Proof. apply last_group_captures; reflexivity. Qed.

Lemma rating_above_captures (w : string) (m : captures) :
  Matches rating_above w [] m -> exists w1, m = [(1, w1)] /\ Matches decimal w1 [] [].
Proof. apply last_group_captures; reflexivity. Qed.

Lemma rating_below_captures (w : string) (m : captures) :
  Matches rating_below w [] m -> exists w1, m = [(1, w1)] /\ Matches decimal w1 [] [].
Proof. apply last_group_captures; reflexivity. Qed.

Lemma rating_bare_captures (w : string) (m : captures) :
  Matches rating_bare w [] m -> exists w1, m = [(1, w1)] /\ Matches decimal w1 [] [].
Proof.
  unfold rating_bare. intros H.
  apply Matches_Seq_Cap in H as (w1 & ? & H1 & H); [|reflexivity].
  pose proof (Matches_no_group _ _ _ _ H eq_refl). subst. eauto.
Qed.

(** The three later credits patterns end with the bare one. *)
Lemma credits_tail_captures (r0 : regex) (w : string) (m : captures) :
  no_group r0 = true ->
  Matches (Seq r0 (Seq spaces credits_bare)) w [] m ->
  exists w1, m = [(1, w1)] /\ Matches (plus digit) w1 [] [].
Proof.
  intros H0 H.
  apply Matches_Seq_plain in H as [? H]; [|exact H0].
  apply Matches_Seq_plain in H as [? H]; [|reflexivity].
  exact (credits_bare_captures _ _ H).
Qed.

(** The word of the year pattern's group is [20] and two digits. *)
Lemma year_captures (w : string) (m : captures) :
  Matches year_pattern w [] m ->
  exists c1 c2, m = [(1, String "2" (String "0" (String c1 (String c2 ""))))] /\
                Js.is_digit c1 = true /\ Js.is_digit c2 = true.
Proof.
  unfold year_pattern. intros H.
  apply Matches_Seq_plain in H as [? H]; [|reflexivity].
  apply Matches_Seq_plain in H as [? H]; [|reflexivity].
  apply Matches_Cap_plain in H as [-> H]; [|reflexivity].
  apply Matches_Seq_inv in H as (w20 & wdd & ? & -> & H20 & Hdd).
  cbn [lit] in H20.
  apply Matches_Seq_inv in H20 as (a & ? & ? & -> & Ha & H20).
  apply Matches_Seq_inv in H20 as (b & e & ? & -> & Hb & He).
  apply Matches_Seq_inv in Hdd as (c & d & ? & -> & Hc & Hd).
  inversion Ha as [|? a' ? Ha'| | | | | |]; subst.
  inversion Hb as [|? b' ? Hb'| | | | | |]; subst.
  inversion He; subst.
  inversion Hc as [|? c1 ? Hc1| | | | | |]; subst.
  inversion Hd as [|? c2 ? Hc2| | | | | |]; subst.
  apply Ascii.eqb_eq in Ha', Hb'. subst.
  exists c1, c2. repeat split; assumption.
Qed.

Lemma year_value (c1 c2 : ascii) :
  Js.is_digit c1 = true -> Js.is_digit c2 = true ->
  exists y, Js.parseInt (String "2" (String "0" (String c1 (String c2 "")))) = Js.of_Z y /\
            (2000 <= y <= 2099)%Z.
Proof.
  intros H1 H2. exists (2000 + 10 * Js.digit_value c1 + Js.digit_value c2)%Z.
  pose proof (digit_value_bounds c1 H1). pose proof (digit_value_bounds c2 H2).
  split; [|lia].
  unfold Js.parseInt. cbn [Js.trimStart Js.is_space]. 
  change (Js.is_space "2") with false. cbv iota.
  cbn [Js.read_sign Js.startsWith Ascii.eqb Bool.eqb andb orb Js.read_digits].
  change (Js.is_digit "2") with true. change (Js.is_digit "0") with true.
  cbv iota. rewrite H1, H2. cbn [Js.signed].
  f_equal. change (Js.digit_value "2") with 2%Z. change (Js.digit_value "0") with 0%Z. lia.
Qed.

End RulePatterns.

Section RuleValues.

Import Regex Ask.

Lemma exec_captures (r : regex) (text : string) (m : captures) :
  exec r text = Some m -> exists w, Matches r w [] m.
Proof. intros H. apply exec_sound in H as (? & w & ? & _ & H). eauto. Qed.

Lemma lookup_single (k j : string) (a v : value) :
  (({[ k := a ]} : filter_map) ∪ ∅) !! j = Some v -> j = k /\ v = a.
Proof.
  rewrite (right_id_L ∅ (∪)). intros H. apply lookup_singleton_Some in H as [<- <-]. auto.
Qed.

Lemma lookup_pair (k1 k2 j : string) (a b v : value) :
  (({[ k1 := a; k2 := b ]} : filter_map) ∪ ∅) !! j = Some v ->
  j = k1 /\ v = a \/ j = k2 /\ v = b.
Proof.
  rewrite (right_id_L ∅ (∪)). intros H. apply lookup_insert_Some in H as [[<- <-]|[_ H]].
  - auto.
  - apply lookup_singleton_Some in H as [<- <-]. auto.
Qed.

(** What the fee rules set is a whole number that is not negative. *)
Lemma fee_values (text k : string) (v : value) :
  apply_first feeRegexes text ∅ !! k = Some v ->
  exists z, v = VNum (Js.of_Z z) /\ (0 <= z)%Z.
Proof.
  unfold feeRegexes. cbn [apply_first].
  destruct (exec fee_under text) as [m|] eqn:E1.
  { apply exec_captures in E1 as [w Hw].
    apply fee_under_captures in Hw as (w1 & -> & Hw1).
    apply amount_value in Hw1 as (z & Hz & Hpos).
    intros H. apply lookup_single in H as [_ ->]. exists z. split; [|exact Hpos].
    unfold capture_amount. change (capture [(1, w1)] 1) with w1. rewrite Hz. reflexivity. }
  destruct (exec fee_above text) as [m|] eqn:E2.
  { apply exec_captures in E2 as [w Hw].
    apply fee_above_captures in Hw as (w1 & -> & Hw1).
    apply amount_value in Hw1 as (z & Hz & Hpos).
    intros H. apply lookup_single in H as [_ ->]. exists z. split; [|exact Hpos].
    unfold capture_amount. change (capture [(1, w1)] 1) with w1. rewrite Hz. reflexivity. }
  destruct (exec fee_between text) as [m|] eqn:E3.
  { apply exec_captures in E3 as [w Hw].
    apply fee_between_captures in Hw as (w1 & w2 & -> & H1 & H2).
    apply amount_value in H1 as (x & Hx & Hxpos). apply amount_value in H2 as (y & Hy & Hypos).
    unfold fee_between_handler, capture_amount.
    change (capture [(2, w2); (1, w1)] 1) with w1.
    change (capture [(2, w2); (1, w1)] 2) with w2.
    cbv zeta. rewrite Hx, Hy, Math_min_of_Z, Math_max_of_Z.
    intros H. apply lookup_pair in H as [[_ ->]|[_ ->]]; eexists; (split; [reflexivity|lia]). }
  destruct (exec fee_exact text) as [m|] eqn:E4.
  { apply exec_captures in E4 as [w Hw].
    apply fee_exact_captures in Hw as (w1 & -> & Hw1).
    apply amount_value in Hw1 as (z & Hz & Hpos).
    unfold capture_amount. change (capture [(1, w1)] 1) with w1. cbv zeta. rewrite Hz.
    intros H. apply lookup_pair in H as [[_ ->]|[_ ->]]; eauto. }
  rewrite lookup_empty. discriminate.
Qed.

(** What the rating rules set is a number that is not negative. *)
Lemma rating_values (text k : string) (v : value) :
  apply_first ratingRegexes text ∅ !! k = Some v ->
  exists q, v = VNum (Js.Num q) /\ (0 <= q)%Q.
Proof.
  unfold ratingRegexes. cbn [apply_first].
  destruct (exec rating_above text) as [m|] eqn:E1.
  { apply exec_captures in E1 as [w Hw].
    apply rating_above_captures in Hw as (w1 & -> & Hw1).
    apply decimal_value_nonneg in Hw1 as (q & Hq & Hpos).
    intros H. apply lookup_single in H as [_ ->]. exists q. split; [|exact Hpos].
    change (capture [(1, w1)] 1) with w1. rewrite Hq. reflexivity. }
  destruct (exec rating_below text) as [m|] eqn:E2.
  { apply exec_captures in E2 as [w Hw].
    apply rating_below_captures in Hw as (w1 & -> & Hw1).
    apply decimal_value_nonneg in Hw1 as (q & Hq & Hpos).
    intros H. apply lookup_single in H as [_ ->]. exists q. split; [|exact Hpos].
    change (capture [(1, w1)] 1) with w1. rewrite Hq. reflexivity. }
  destruct (exec rating_between text) as [m|] eqn:E3.
  { apply exec_captures in E3 as [w Hw].
    apply rating_between_captures in Hw as (w1 & w2 & -> & H1 & H2).
    apply decimal_value_nonneg in H1 as (x & Hx & Hxpos).
    apply decimal_value_nonneg in H2 as (y & Hy & Hypos).
    unfold rating_between_handler.
    change (capture [(2, w2); (1, w1)] 1) with w1.
    change (capture [(2, w2); (1, w1)] 2) with w2.
    cbv zeta. rewrite Hx, Hy.
    destruct (Math_min_max_Num x y) as (lo & hi & -> & -> & Hlo & Hhi & _).
    intros H. apply lookup_pair in H as [[_ ->]|[_ ->]]; eexists; (split; [reflexivity|]).
    - destruct Hlo; subst; assumption.
    - destruct Hhi; subst; assumption. }
  destruct (exec rating_bare text) as [m|] eqn:E4.
  { apply exec_captures in E4 as [w Hw].
    apply rating_bare_captures in Hw as (w1 & -> & Hw1).
    apply decimal_value_nonneg in Hw1 as (q & Hq & Hpos).
    intros H. apply lookup_single in H as [_ ->]. exists q. split; [|exact Hpos].
    change (capture [(1, w1)] 1) with w1. rewrite Hq. reflexivity. }
  rewrite lookup_empty. discriminate.
Qed.

(** Wherever one of the three later credits patterns matches, so does
    the bare [N credits] pattern they end with. *)
Lemma credits_tail_shadowed (r0 : regex) (text : string) :
  is_Some (exec (Seq r0 (Seq spaces credits_bare)) text) -> is_Some (exec credits_bare text).
Proof.
  intros [m Hm]. apply exec_sound in Hm as (before & w & after & -> & Hm).
  apply Matches_Seq_inv in Hm as (w0 & w' & ? & -> & _ & Hm).
  apply Matches_Seq_inv in Hm as (ws & wb & ? & -> & _ & Hm).
  unfold credits_bare in Hm.
  apply Matches_Seq_inv in Hm as (w1 & rest & cs1 & -> & Hcap & Hrest).
  inversion Hcap as [| | | | | | |? ? ? ? ? Hdigits]; subst.
  apply Matches_plain_any with (cs0 := []) in Hdigits; [|reflexivity].
  apply Matches_plain_any with (cs0 := [(1, w1)]) in Hrest; [|reflexivity].
  assert (Hword : Matches credits_bare (w1 +:+ rest) [] [(1, w1)]).
  { unfold credits_bare. econstructor; [constructor; exact Hdigits | exact Hrest]. }
  do 2 rewrite shift_prefix.
  eapply exec_complete, Hword.
Qed.

Lemma credits_between_tail (text : string) :
  is_Some (exec credits_between text) -> is_Some (exec credits_bare text).
Proof.
  intros [m Hm].
  destruct (credits_between_is_shadowed text m ∅ Hm) as (m0 & _ & _ & H & _). eauto.
Qed.

(** What the credits rules set: the number of the bare pattern, as both
    bounds, or nothing. *)
Lemma credits_values (text : string) :
  match exec credits_bare text with
  | Some m =>
      exists z, Js.parseInt (capture m 1) = Js.of_Z z /\ (0 <= z)%Z /\
        apply_first creditRegexes text ∅ =
        {[ "min_credits" := VNum (Js.of_Z z); "max_credits" := VNum (Js.of_Z z) ]}
  | None => apply_first creditRegexes text ∅ = ∅
  end.
Proof.
  unfold creditRegexes. cbn [apply_first].
  destruct (exec credits_bare text) as [m|] eqn:E1.
  - pose proof E1 as E. apply exec_captures in E as [w Hw].
    apply credits_bare_captures in Hw as (w1 & -> & Hw1).
    apply digits_value in Hw1 as (z & Hz & Hpos).
    exists z. change (capture [(1, w1)] 1) with w1. repeat split; [exact Hz|exact Hpos|].
    unfold credits_bare_handler. change (capture [(1, w1)] 1) with w1. cbv zeta.
    rewrite Hz. apply (right_id_L ∅ (∪)).
  - assert (Hnone : forall r, (is_Some (exec r text) -> is_Some (exec credits_bare text)) ->
                              exec r text = None).
    { intros r Hr. destruct (exec r text) eqn:E; [|reflexivity].
      destruct Hr as [? Hr]; [eauto|]. congruence. }
    rewrite (Hnone credits_between (credits_between_tail text)).
    rewrite (Hnone credits_at_least (credits_tail_shadowed _ text)).
    rewrite (Hnone credits_at_most (credits_tail_shadowed _ text)).
    reflexivity.
Qed.

End RuleValues.

(** The numbers of a raw filter map in the exact reading, where every
    figure of the question is read in full. *)
Lemma extracted_numbers_exact (question k : string) (v : value) :
  Ask.parseNaturalLanguageQuery question !! k = Some v ->
  (k ∈ ["min_fee"; "max_fee"; "min_credits"; "max_credits"] ->
   exists z, v = VNum (Js.of_Z z) /\ (0 <= z)%Z) /\
  (k ∈ ["min_rating"; "max_rating"] -> exists q, v = VNum (Js.Num q) /\ (0 <= q)%Q) /\
  (k = "year_offered" -> exists y, v = VNum (Js.of_Z y) /\ (2000 <= y <= 2099)%Z).
Proof.
  intros Hv.
  destruct (extractor_lookup question)
    as (_ & _ & _ & Hfee & Hrating & Hcredits & Hyear & _).
  split; [|split]; intros Hk.
  - rewrite !elem_of_cons, elem_of_nil in Hk.
    destruct Hk as [Hk|[Hk|[Hk|[Hk|[]]]]].
    + rewrite Hfee in Hv by auto. apply fee_values in Hv. exact Hv.
    + rewrite Hfee in Hv by auto. apply fee_values in Hv. exact Hv.
    + rewrite Hcredits in Hv by auto. subst k.
      pose proof (credits_values (Js.trim (Js.toLowerCase question))) as Hc.
      destruct (Regex.exec Ask.credits_bare _).
      * destruct Hc as (z & _ & Hpos & Hc). rewrite Hc in Hv.
        apply lookup_insert_Some in Hv as [[_ <-]|[Hne _]]; [eauto|contradiction].
      * rewrite Hc, lookup_empty in Hv. discriminate.
    + rewrite Hcredits in Hv by auto. subst k.
      pose proof (credits_values (Js.trim (Js.toLowerCase question))) as Hc.
      destruct (Regex.exec Ask.credits_bare _).
      * destruct Hc as (z & _ & Hpos & Hc). rewrite Hc in Hv.
        apply lookup_insert_Some in Hv as [[Hne _]|[_ Hv]]; [discriminate|].
        apply lookup_singleton_Some in Hv as [_ <-]. eauto.
      * rewrite Hc, lookup_empty in Hv. discriminate.
  - rewrite !elem_of_cons, elem_of_nil in Hk.
    destruct Hk as [Hk|[Hk|[]]]; rewrite Hrating in Hv by auto;
      apply rating_values in Hv; exact Hv.
  - subst k. rewrite Hyear in Hv.
    destruct (Regex.exec Ask.year_pattern _) as [m|] eqn:E; [|discriminate].
    injection Hv as <-.
    apply exec_captures in E as [w Hw].
    apply year_captures in Hw as (c1 & c2 & -> & H1 & H2).
    destruct (year_value c1 c2 H1 H2) as (y & Hy & Hrange).
    exists y. split; [|exact Hrange].
    change (Ask.capture [(1, String "2" (String "0" (String c1 (String c2 ""))))] 1)
      with (String "2" (String "0" (String c1 (String c2 "")))).
    rewrite Hy. reflexivity.
Qed.

Lemma isInteger_of_Z (z : Z) : Js.isInteger (Js.of_Z z) = true.
Proof.
  unfold Js.isInteger, Js.of_Z. rewrite Qfloor_Z. apply Qeq_bool_iff. reflexivity.
Qed.

(** X5.  No number that the extractor puts in a raw filter map is [NaN]
    or negative.  A fee or credits bound is a whole number (or
    [Infinity], which is how the code reads a figure too long for a
    double), and the year is a whole number between 2000 and 2099. *)
Theorem extracted_numbers_are_not_negative (question k : string) (v : value) :
  Ask.parseNaturalLanguageQuery question !! k = Some v ->
  (k ∈ ["min_fee"; "max_fee"; "min_credits"; "max_credits"; "min_rating"; "max_rating"] ->
   exists x, v = VNum x /\ Js.isNaN x = false /\ Js.lt x (Js.of_Z 0) = false) /\
  (k ∈ ["min_fee"; "max_fee"; "min_credits"; "max_credits"] ->
   exists x, v = VNum x /\ (Js.isInteger x = true \/ x = Js.Inf false)) /\
  (k = "year_offered" -> exists y, v = VNum (Js.of_Z y) /\ (2000 <= y <= 2099)%Z).
Proof.
  intros Hv. destruct (extracted_numbers_exact question k v Hv) as (Hwhole & Hrating & Hyear).
  split; [|split; [|exact Hyear]].
  - intros Hk. rewrite !elem_of_cons, elem_of_nil in Hk.
    assert (Hcases : k ∈ ["min_fee"; "max_fee"; "min_credits"; "max_credits"] \/
                     k ∈ ["min_rating"; "max_rating"]).
    { rewrite !elem_of_cons, !elem_of_nil. tauto. }
    destruct Hcases as [Hin|Hin].
    + destruct (Hwhole Hin) as (z & -> & Hz). exists (Js.of_Z z).
      split; [reflexivity|]. split; [reflexivity|].
      rewrite lt_of_Z_bool. apply bool_decide_eq_false_2. lia.
    + destruct (Hrating Hin) as (q & -> & Hq). exists (Js.Num q).
      split; [reflexivity|]. split; [reflexivity|]. apply Qltb_false, Hq.
  - intros Hk. destruct (Hwhole Hk) as (z & -> & _). exists (Js.of_Z z).
    split; [reflexivity|]. left. apply isInteger_of_Z.
Qed.

Lemma extracted_numbers_are_not_negative_witness :
  exists x, VNum (Js.of_Z 40000) = VNum x /\ Js.isNaN x = false /\
            Js.lt x (Js.of_Z 0) = false.
Proof.
  apply (extracted_numbers_are_not_negative ranges_question "min_fee" (VNum (Js.of_Z 40000))).
  - vm_compute. reflexivity.
  - apply (bool_decide_unpack _). vm_compute. exact I.
Defined.

(** X6.  Whatever the question says about credits, [min_credits] and
    [max_credits] are equal: both are the number in front of the first
    [credit] or [credits] of the text, or both are absent when the text
    has no such number.  So [at least 3 credits], [up to 6 credits] and
    [between 3 and 6 credits] all ask for an exact number of credits. *)
Theorem credit_bounds_are_equal (question : string) :
  let text := Js.trim (Js.toLowerCase question) in
  let filters := Ask.parseNaturalLanguageQuery question in
  filters !! "min_credits" = filters !! "max_credits" /\
  filters !! "min_credits" =
    (fun m => VNum (Js.parseInt (Ask.capture m 1))) <$> Regex.exec Ask.credits_bare text.
Proof.
  intros text filters.
  destruct (extractor_lookup question) as (_ & _ & _ & _ & _ & Hcredits & _).
  fold text filters in Hcredits.
  rewrite (Hcredits "min_credits"), (Hcredits "max_credits") by auto.
  pose proof (credits_values text) as Hc.
  destruct (Regex.exec Ask.credits_bare text) as [m|].
  - destruct Hc as (z & Hz & Hpos & ->). cbn [fmap option_fmap option_map]. rewrite Hz.
    rewrite lookup_insert_eq, lookup_insert_ne, lookup_singleton_eq by discriminate.
    split; reflexivity.
  - rewrite Hc, !lookup_empty. split; reflexivity.
Qed.

(** X7.  The fee rules are tried in the order upper bound, lower bound,
    range, exact fee, and the first whose pattern occurs in the text is
    the only one applied.  So an upper bound ([under], [below], [max],
    [up to] ...) wins over every other fee phrase of the question: only
    [max_fee] is set. *)
Theorem first_fee_rule_wins (question : string) (m : Regex.captures) :
  let text := Js.trim (Js.toLowerCase question) in
  let filters := Ask.parseNaturalLanguageQuery question in
  let amount := VNum (Ask.capture_amount m 1) in
  (Regex.exec Ask.fee_under text = Some m ->
   filters !! "max_fee" = Some amount /\ filters !! "min_fee" = None) /\
  (Regex.exec Ask.fee_under text = None -> Regex.exec Ask.fee_above text = Some m ->
   filters !! "min_fee" = Some amount /\ filters !! "max_fee" = None) /\
  (Regex.exec Ask.fee_under text = None -> Regex.exec Ask.fee_above text = None ->
   Regex.exec Ask.fee_between text = None -> Regex.exec Ask.fee_exact text = Some m ->
   filters !! "min_fee" = Some amount /\ filters !! "max_fee" = Some amount) /\
  (Regex.exec Ask.fee_under text = None -> Regex.exec Ask.fee_above text = None ->
   Regex.exec Ask.fee_between text = None -> Regex.exec Ask.fee_exact text = None ->
   filters !! "min_fee" = None /\ filters !! "max_fee" = None).
Proof.
  intros text filters amount.
  destruct (extractor_lookup question) as (_ & _ & _ & Hfee & _).
  fold text filters in Hfee.
  rewrite (Hfee "min_fee"), (Hfee "max_fee") by auto.
  unfold Ask.feeRegexes. cbn [Ask.apply_first].
  split; [|split; [|split]].
  - intros ->. rewrite (right_id_L ∅ (∪)).
    rewrite lookup_singleton_eq, lookup_singleton_ne by discriminate. auto.
  - intros -> ->. rewrite (right_id_L ∅ (∪)).
    rewrite lookup_singleton_eq, lookup_singleton_ne by discriminate. auto.
  - intros -> -> -> ->. rewrite (right_id_L ∅ (∪)). cbv zeta.
    rewrite lookup_insert_eq, lookup_insert_ne, lookup_singleton_eq by discriminate. auto.
  - intros -> -> -> ->. rewrite lookup_empty. auto.
Qed.

Lemma first_fee_rule_wins_witness :
  let filters := Ask.parseNaturalLanguageQuery "above 100 but under 5,000" in
  filters !! "max_fee" = Some (VNum (Js.of_Z 5000)) /\ filters !! "min_fee" = None.
Proof.
  apply (first_fee_rule_wins "above 100 but under 5,000" [(1%nat, "5,000")]).
  vm_compute. reflexivity.
Defined.

Section WholeNumbers.

Import Regex.

Lemma string_app_nil (s : string) : s +:+ "" = s.
Proof. induction s as [|c s IH]; [reflexivity|]. rewrite string_app_cons, IH. reflexivity. Qed.

Lemma digits_Matches (w : string) (cs : captures) :
  all_chars Js.is_digit w = true -> Matches (Star digit) w cs cs.
Proof.
  induction w as [|c t IH]; intros H.
  - constructor.
  - cbn [all_chars] in H. apply andb_prop in H as [Hc Ht].
    change (String c t) with (String c "" +:+ t).
    econstructor; [discriminate | constructor; exact Hc | exact (IH Ht)].
Qed.

(** [/^\d+$/.test(w)] holds exactly of the numbers. *)
Lemma test_whole_digits (w : string) :
  test_whole (plus digit) w = true <-> is_number w.
Proof.
  unfold test_whole, is_number. split.
  - destruct (run _ _ w []) as [out|] eqn:E; [|discriminate]. intros _.
    apply run_sound in E as (w' & s' & cs' & -> & Hm & Hk).
    destruct (String.eqb s' "") eqn:Hs; [|discriminate].
    apply String.eqb_eq in Hs. subst s'. rewrite string_app_nil.
    pose proof (Matches_alphabet _ _ _ _ Hm) as Hall.
    apply Matches_digit_head in Hm as (c & t & -> & Hc). split; [discriminate|].
    eapply all_chars_impl; [|exact Hall].
    intros d. unfold plus, digit. cbn [in_alphabet]. destruct (Js.is_digit d); auto.
  - intros [Hne Hall]. destruct w as [|c t]; [contradiction|].
    cbn [all_chars] in Hall. apply andb_prop in Hall as [Hc Ht].
    assert (Hm : Matches (plus digit) (String c "" +:+ t) [] []).
    { unfold plus. econstructor; [constructor; exact Hc | apply digits_Matches, Ht]. }
    pose proof (run_complete _ _ _ _ Hm
                  (fun s' cs => if String.eqb s' "" then Some cs else None) ""
                  ltac:(simpl; eauto)) as [out Hout].
    rewrite string_app_nil in Hout. change (String c "" +:+ t) with (String c t) in Hout.
    rewrite Hout. reflexivity.
Qed.

End WholeNumbers.

Section SearchTerms.

Import Ask.

Lemma is_search_term_spec (w : string) :
  is_search_term w = true <->
  (w ∉ stopWords) /\ ~ is_number w /\ 2 < String.length w /\ (w ∉ allPatternWords).
Proof.
  unfold is_search_term.
  destruct (Js.array_includes stopWords w) eqn:E1.
  { apply array_includes_spec in E1. split; [discriminate|]. tauto. }
  apply array_includes_false in E1.
  destruct (Regex.test_whole _ w) eqn:E2.
  { apply test_whole_digits in E2. split; [discriminate|]. tauto. }
  assert (Hn : ~ is_number w).
  { intros Hn. apply test_whole_digits in Hn. congruence. }
  destruct (String.length w <=? 2)%nat eqn:E3.
  { apply Nat.leb_le in E3. split; [discriminate|]. lia. }
  apply Nat.leb_gt in E3.
  destruct (Js.array_includes allPatternWords w) eqn:E4; simpl.
  - apply array_includes_spec in E4. split; [discriminate|]. tauto.
  - apply array_includes_false in E4. tauto.
Qed.

Lemma join_cons_nonempty (sep w : string) (ws : list string) :
  w <> "" -> Js.join sep (w :: ws) <> "".
Proof.
  intros Hw. unfold Js.join. destruct w as [|c t]; [contradiction|].
  destruct ws; simpl; [discriminate|]. rewrite string_app_cons. discriminate.
Qed.

Lemma elem_of_flat_values (table : list (string * list string)) (w : string) :
  w ∈ flat_values table <-> keyword_of table w.
Proof.
  unfold flat_values, keyword_of. rewrite list_elem_of_In, in_concat. split.
  - intros (ws & Hws & Hw). apply in_map_iff in Hws as ([name ws'] & <- & Hin).
    exists name, ws'. rewrite !list_elem_of_In. auto.
  - intros (name & ws & Hin & Hw). exists ws. split; [|apply list_elem_of_In, Hw].
    apply in_map_iff. exists (name, ws). split; [reflexivity|apply list_elem_of_In, Hin].
Qed.

Lemma elem_of_allPatternWords (w : string) :
  w ∈ allPatternWords <->
  keyword_of deliveryModePatterns w \/ keyword_of levelPatterns w \/
  keyword_of departmentKeywords w \/ w ∈ generic_words.
Proof.
  unfold allPatternWords. rewrite !elem_of_app, !elem_of_flat_values. reflexivity.
Qed.

End SearchTerms.

(** X8.  The search text [q] is made of the words of the lower-cased
    question that are no stop word, no number, longer than two characters
    and no word of the extractor's list, in their order and joined by
    single spaces.  The list holds the keywords of the three tables
    (delivery modes, levels, departments) and twelve words about numbers
    ([rating], [rated], [star], [stars], [credit], [credits], [fee],
    [fees], [cost], [costs], [price], [year]).  The text is absent when no
    word is left, and never the empty text. *)
Theorem search_terms_are_filtered (question : string) :
  let text := Js.trim (Js.toLowerCase question) in
  let filters := Ask.parseNaturalLanguageQuery question in
  let terms := filter Ask.is_search_term (Js.split_ws text) in
  (forall w, w ∈ Ask.allPatternWords <->
     keyword_of Ask.deliveryModePatterns w \/ keyword_of Ask.levelPatterns w \/
     keyword_of Ask.departmentKeywords w \/ w ∈ generic_words) /\
  terms `sublist_of` Js.split_ws text /\
  Forall (fun w => (w ∉ Ask.stopWords) /\ ~ is_number w /\ 2 < String.length w /\
                   (w ∉ Ask.allPatternWords)) terms /\
  (forall w, w ∈ Js.split_ws text ->
     w ∉ Ask.stopWords -> ~ is_number w -> 2 < String.length w ->
     w ∉ Ask.allPatternWords -> w ∈ terms) /\
  (terms = [] -> filters !! "q" = None) /\
  (terms <> [] ->
   filters !! "q" = Some (VStr (Js.join " " terms)) /\ Js.join " " terms <> "").
Proof.
  intros text filters terms.
  destruct (extractor_lookup question) as (_ & _ & _ & _ & _ & _ & _ & Hq & _).
  fold text filters terms in Hq.
  assert (Hall : Forall (fun w => (w ∉ Ask.stopWords) /\ ~ is_number w /\
                                  2 < String.length w /\ (w ∉ Ask.allPatternWords)) terms).
  { apply Forall_forall. intros w Hw. unfold terms in Hw.
    apply list_elem_of_filter in Hw as [Hw _]. apply is_search_term_spec.
    destruct (Ask.is_search_term w); [reflexivity | contradiction]. }
  split; [apply elem_of_allPatternWords|].
  split; [apply sublist_filter|]. split; [exact Hall|]. split; [|split].
  - intros w Hw H1 H2 H3 H4. apply list_elem_of_filter. split; [|exact Hw].
    apply Is_true_true, is_search_term_spec. auto.
  - intros E. rewrite Hq, E. reflexivity.
  - intros Hne. rewrite Hq. destruct terms as [|w ws]; [contradiction|].
    split; [reflexivity|]. apply join_cons_nonempty.
    apply Forall_cons in Hall as [(_ & _ & Hlen & _) _].
    intros ->. simpl in Hlen. lia.
Qed.

Lemma search_terms_are_filtered_witness :
  Ask.parseNaturalLanguageQuery "Show me 3 cheap python courses, best rating" !! "q"
    = Some (VStr "cheap python courses, best").
Proof.
  apply (search_terms_are_filtered "Show me 3 cheap python courses, best rating").
  vm_compute. discriminate.
Defined.

(** ** From the question to the query *)

Section BoundPredicates.

Import Sql.

Lemma synced_start : synced start.
Proof. split; reflexivity. Qed.

Lemma synced_push_if (c : bool) (t : nat -> fragment) (p : param) (b : builder) :
  synced b -> synced (push_if c t p b).
Proof.
  intros [H1 H2]. destruct c; [|split; assumption].
  split; simpl; rewrite !length_app; simpl; lia.
Qed.

Lemma binds_here (c : bool) (t : nat -> fragment) (p : param) (b : builder) :
  c = true -> synced b -> binds (push_if c t p b) t p.
Proof.
  intros -> [H1 H2]. exists (length (conditions b)). simpl. split.
  - rewrite lookup_app_r, Nat.sub_diag by lia. simpl. rewrite H2, H1. reflexivity.
  - rewrite H1, lookup_app_r, Nat.sub_diag by lia. reflexivity.
Qed.

Lemma binds_later (c : bool) (t' : nat -> fragment) (p' : param) (b : builder)
    (t : nat -> fragment) (p : param) :
  binds b t p -> binds (push_if c t' p' b) t p.
Proof.
  intros (i & H1 & H2). destruct c; [|exists i; auto].
  exists i. simpl. split; apply lookup_app_l_Some; assumption.
Qed.

Lemma conditions_push_if (c : bool) (t : nat -> fragment) (p : param) (b : builder) :
  length (conditions (push_if c t p b)) = length (conditions b) + Nat.b2n c.
Proof. destruct c; simpl; [rewrite length_app; simpl|]; lia. Qed.

End BoundPredicates.

Section ExtractedFilters.

Lemma size_by_keys (m : filter_map) (keys : list string) :
  NoDup keys -> (forall k, is_Some (m !! k) -> k ∈ keys) ->
  size m = length (filter (fun k => is_Some (m !! k)) keys).
Proof.
  intros Hnd Hkeys. rewrite <- size_dom.
  replace (dom m) with (list_to_set (C := gset string)
                          (filter (fun k => is_Some (m !! k)) keys)).
  - apply size_list_to_set, NoDup_filter, Hnd.
  - apply set_eq. intros x.
    rewrite elem_of_dom, elem_of_list_to_set, list_elem_of_filter. split; [tauto|].
    intros H. split; [exact H | apply Hkeys, H].
Qed.

Lemma length_filter_sum {A} (P : A -> Prop) `{forall x, Decision (P x)} (l : list A) :
  length (filter P l) = sum_list_with (fun x => Nat.b2n (bool_decide (P x))) l.
Proof.
  induction l as [|x l IH]; [reflexivity|].
  rewrite filter_cons. cbn [sum_list_with].
  destruct (decide (P x));
    [rewrite bool_decide_eq_true_2 by assumption
    |rewrite bool_decide_eq_false_2 by assumption];
    cbn [length Nat.b2n]; rewrite IH; reflexivity.
Qed.

Lemma defined_is_Some (x : option value) : defined x = bool_decide (is_Some x).
Proof. destruct x; reflexivity. Qed.

Lemma family_names_nonempty (text : string) (table : list (string * list string))
    (name : string) :
  Forall (fun n => n <> "") table.*1 ->
  Ask.first_family table text = Some name -> name <> "".
Proof.
  intros Hall H. apply first_family_name in H.
  rewrite Forall_forall in Hall. apply Hall, H.
Qed.

(** The values of the five keys that [executeFilteredQuery] tests for
    truth are true when the extractor sets them. *)
Lemma extracted_truthy (question k : string) :
  k ∈ ["q"; "department"; "level"; "delivery_mode"; "year_offered"] ->
  truthy (Ask.parseNaturalLanguageQuery question !! k) =
  bool_decide (is_Some (Ask.parseNaturalLanguageQuery question !! k)).
Proof.
  intros Hk.
  destruct (Ask.parseNaturalLanguageQuery question !! k) as [v|] eqn:Hv;
    [|reflexivity].
  rewrite bool_decide_eq_true_2 by eauto.
  destruct (extractor_lookup question)
    as (Hmode & Hlevel & Hdept & _ & _ & _ & Hyear & Hq & _).
  assert (Hfamily : forall table,
             Forall (fun n => n <> "") table.*1 ->
             VStr <$> Ask.first_family table (Js.trim (Js.toLowerCase question)) = Some v ->
             truthy (Some v) = true).
  { intros table Hall H.
    destruct (Ask.first_family table _) as [name|] eqn:E; [|discriminate].
    injection H as <-. apply (family_names_nonempty _ _ _ Hall) in E.
    simpl. destruct name; [contradiction|reflexivity]. }
  rewrite !elem_of_cons, elem_of_nil in Hk.
  destruct Hk as [->|[->|[->|[->|[->|[]]]]]].
  - rewrite Hq in Hv.
    destruct (filter Ask.is_search_term _) as [|w ws] eqn:E; [discriminate|].
    injection Hv as <-.
    assert (Hw : w ∈ filter Ask.is_search_term
                       (Js.split_ws (Js.trim (Js.toLowerCase question))))
      by (rewrite E; left).
    apply list_elem_of_filter in Hw as [Hw _].
    assert (Hne : w <> "").
    { intros ->. vm_compute in Hw. exact Hw. }
    cbn [truthy]. apply negb_true_iff, String.eqb_neq, join_cons_nonempty, Hne.
  - rewrite Hdept in Hv.
    apply (Hfamily Ask.departmentKeywords); [apply (bool_decide_unpack _); vm_compute; exact I | exact Hv].
  - rewrite Hlevel in Hv.
    apply (Hfamily Ask.levelPatterns); [apply (bool_decide_unpack _); vm_compute; exact I | exact Hv].
  - rewrite Hmode in Hv.
    apply (Hfamily Ask.deliveryModePatterns); [apply (bool_decide_unpack _); vm_compute; exact I | exact Hv].
  - rewrite Hyear in Hv.
    destruct (Regex.exec Ask.year_pattern _) as [m|] eqn:E; [|discriminate].
    injection Hv as <-.
    apply exec_captures in E as [w Hw].
    apply year_captures in Hw as (c1 & c2 & -> & H1 & H2).
    destruct (year_value c1 c2 H1 H2) as (y & Hy & Hrange).
    change (Ask.capture [(1, String "2" (String "0" (String c1 (String c2 ""))))] 1)
      with (String "2" (String "0" (String c1 (String c2 "")))).
    rewrite Hy. cbn [truthy]. rewrite number_truthy_of_Z. apply bool_decide_eq_true_2. lia.
Qed.

End ExtractedFilters.

Section QueriedFilters.

Import Sql.

Tactic Notation "bound" integer(n) :=
  do n apply binds_later;
  apply binds_here; [|repeat apply synced_push_if; apply synced_start].

(** A key of the filter map that passes its test has its predicate in
    the WHERE clause, with its value as the parameter. *)
Lemma build_where_binds (filters : filter_map) (k : string) (v : value)
    (t : nat -> fragment) (p : param) :
  filters !! k = Some v ->
  predicate_of k v = Some (t, p) ->
  (k ∈ ["q"; "department"; "level"; "delivery_mode"; "year_offered"] ->
   truthy (Some v) = true) ->
  binds (AskQuery.build_where filters) t p.
Proof.
  intros Hv Hp Htrue. unfold predicate_of in Hp.
  repeat match type of Hp with
         | (if String.eqb k ?key then _ else _) = _ =>
             destruct (String.eqb_spec k key) as [->|_];
             [injection Hp as <- <-;
              try (assert (Htruthy : truthy (Some v) = true)
                     by (apply Htrue; apply (bool_decide_unpack _); vm_compute; exact I));
              clear Htrue |]
         end; [..|discriminate];
    unfold AskQuery.build_where; cbv zeta; rewrite Hv; cbn [default defined].
  - bound 10. exact Htruthy.
  - bound 9. exact Htruthy.
  - bound 8. exact Htruthy.
  - bound 7. exact Htruthy.
  - bound 6. exact Htruthy.
  - bound 5. reflexivity.
  - bound 4. reflexivity.
  - bound 3. reflexivity.
  - bound 2. reflexivity.
  - bound 1. reflexivity.
  - bound 0. reflexivity.
Qed.

Lemma build_where_length (filters : filter_map) :
  length (conditions (AskQuery.build_where filters)) =
  Nat.b2n (truthy (filters !! "q")) + Nat.b2n (truthy (filters !! "department")) +
  Nat.b2n (truthy (filters !! "level")) + Nat.b2n (truthy (filters !! "delivery_mode")) +
  Nat.b2n (truthy (filters !! "year_offered")) +
  Nat.b2n (defined (filters !! "min_fee")) + Nat.b2n (defined (filters !! "max_fee")) +
  Nat.b2n (defined (filters !! "min_rating")) + Nat.b2n (defined (filters !! "max_rating")) +
  Nat.b2n (defined (filters !! "min_credits")) + Nat.b2n (defined (filters !! "max_credits")).
Proof.
  unfold AskQuery.build_where. cbv zeta. rewrite !conditions_push_if. simpl. lia.
Qed.

End QueriedFilters.

(** X9.  Nothing the extractor finds is lost on the way to the query,
    and nothing is added: every key of the raw filter map has its
    predicate in the WHERE clause of [executeFilteredQuery], written for
    the placeholder of its position and with the value of the key as the
    parameter at that position, and the clause has as many predicates as
    the map has keys. *)
Theorem extracted_filters_are_queried (question : string) :
  let filters := Ask.parseNaturalLanguageQuery question in
  let b := AskQuery.build_where filters in
  (forall k v, filters !! k = Some v ->
     exists t p, predicate_of k v = Some (t, p) /\ binds b t p) /\
  length (Sql.conditions b) = size filters /\
  length (Sql.queryParams b) = size filters.
Proof.
  intros filters b.
  assert (Hkeys : forall k, is_Some (filters !! k) -> k ∈ filter_keys).
  { intros k [v Hv]. destruct (decide (k ∈ filter_keys)) as [Hk|Hk]; [exact Hk|].
    destruct (extractor_lookup question) as (_ & _ & _ & _ & _ & _ & _ & _ & Hother).
    fold filters in Hother. rewrite (Hother k Hk) in Hv. discriminate. }
  assert (Hcount : length (Sql.conditions b) = size filters).
  { rewrite (size_by_keys filters filter_keys); [|apply (bool_decide_unpack _); vm_compute; exact I|exact Hkeys].
    rewrite length_filter_sum. unfold filter_keys. cbn [sum_list_with].
    unfold b. rewrite build_where_length.
    rewrite !defined_is_Some.
    rewrite !(extracted_truthy question)
      by (apply (bool_decide_unpack _); vm_compute; exact I).
    fold filters. lia. }
  split; [|split; [exact Hcount|]].
  - intros k v Hv.
    pose proof (Hkeys k ltac:(eauto)) as Hk.
    assert (Hp : exists t p, predicate_of k v = Some (t, p)).
    { unfold filter_keys in Hk. rewrite !elem_of_cons, elem_of_nil in Hk.
      destruct Hk as [->|[->|[->|[->|[->|[->|[->|[->|[->|[->|[->|[]]]]]]]]]]]];
        eexists _, _; reflexivity. }
    destruct Hp as (t & p & Hp). exists t, p. split; [exact Hp|].
    apply (build_where_binds filters k v t p Hv Hp).
    intros Hin. pose proof (extracted_truthy question k Hin) as Ht.
    fold filters in Ht. rewrite Hv in Ht. rewrite Ht.
    apply bool_decide_eq_true_2. eauto.
  - rewrite <- Hcount.
    assert (Hs : synced b).
    { unfold b, AskQuery.build_where. cbv zeta.
      repeat apply synced_push_if. apply synced_start. }
    destruct Hs as [Hs _]. symmetry. exact Hs.
Qed.

Lemma extracted_filters_are_queried_witness :
  binds (AskQuery.build_where (Ask.parseNaturalLanguageQuery scenario_text))
        (Sql.cmp "level = ") (Sql.Plain (VStr "PG")).
Proof.
  destruct (extracted_filters_are_queried scenario_text) as (H & _).
  destruct (H "level" (VStr "PG") ltac:(vm_compute; reflexivity)) as (t & p & Hp & Hb).
  injection Hp as <- <-. exact Hb.
Defined.

(** ** Letter case and white space *)

Section CaseAndSpace.

Import Js.

Lemma lower_upper (c : ascii) : lower (upper c) = lower c.
Proof. destruct c as [[] [] [] [] [] [] [] []]; reflexivity. Qed.

Lemma lower_lower (c : ascii) : lower (lower c) = lower c.
Proof. destruct c as [[] [] [] [] [] [] [] []]; reflexivity. Qed.

Lemma is_space_lower (c : ascii) : is_space (lower c) = is_space c.
Proof. destruct c as [[] [] [] [] [] [] [] []]; reflexivity. Qed.

Lemma toLowerCase_toUpperCase (s : string) : toLowerCase (toUpperCase s) = toLowerCase s.
Proof. induction s as [|c s IH]; simpl; [|rewrite lower_upper, IH]; reflexivity. Qed.

Lemma toLowerCase_idem (s : string) : toLowerCase (toLowerCase s) = toLowerCase s.
Proof. induction s as [|c s IH]; simpl; [|rewrite lower_lower, IH]; reflexivity. Qed.

Lemma trimStart_toLowerCase (s : string) :
  trimStart (toLowerCase s) = toLowerCase (trimStart s).
Proof.
  induction s as [|c s IH]; [reflexivity|]. cbn [toLowerCase trimStart].
  rewrite is_space_lower. destruct (is_space c); [exact IH | reflexivity].
Qed.

Lemma toLowerCase_empty (s : string) : String.eqb (toLowerCase s) "" = String.eqb s "".
Proof. destruct s; reflexivity. Qed.

Lemma trimEnd_toLowerCase (s : string) :
  trimEnd (toLowerCase s) = toLowerCase (trimEnd s).
Proof.
  induction s as [|c s IH]; [reflexivity|]. cbn [toLowerCase trimEnd].
  rewrite is_space_lower, IH, toLowerCase_empty.
  destruct (is_space c && String.eqb (trimEnd s) ""); reflexivity.
Qed.

Lemma trim_toLowerCase (s : string) : trim (toLowerCase s) = toLowerCase (trim s).
Proof. unfold trim. rewrite trimStart_toLowerCase, trimEnd_toLowerCase. reflexivity. Qed.

Lemma trimStart_idem (s : string) : trimStart (trimStart s) = trimStart s.
Proof.
  induction s as [|c s IH]; [reflexivity|]. cbn [trimStart].
  destruct (is_space c) eqn:E; [exact IH|]. cbn [trimStart]. rewrite E. reflexivity.
Qed.

Lemma trimEnd_idem (s : string) : trimEnd (trimEnd s) = trimEnd s.
Proof.
  induction s as [|c s IH]; [reflexivity|]. cbn [trimEnd].
  destruct (is_space c && String.eqb (trimEnd s) "") eqn:E; [reflexivity|].
  cbn [trimEnd]. rewrite IH, E. reflexivity.
Qed.

Lemma trimStart_trimEnd (s : string) : trimStart (trimEnd s) = trimEnd (trimStart s).
Proof.
  induction s as [|c s IH]; [reflexivity|]. cbn [trimEnd trimStart].
  destruct (is_space c) eqn:E; cbn [andb].
  - rewrite <- IH. destruct (String.eqb (trimEnd s) "") eqn:E'.
    + apply String.eqb_eq in E'. rewrite E'. reflexivity.
    + cbn [trimStart]. rewrite E. reflexivity.
  - cbn [trimStart trimEnd]. rewrite E. reflexivity.
Qed.

Lemma trim_idem (s : string) : trim (trim s) = trim s.
Proof.
  unfold trim. rewrite trimStart_trimEnd, trimStart_idem, trimEnd_idem. reflexivity.
Qed.

End CaseAndSpace.

(** The extractor reads the question only through its lower-cased and
    trimmed text. *)
Lemma extractor_reads_lowered (q1 q2 : string) :
  Js.trim (Js.toLowerCase q1) = Js.trim (Js.toLowerCase q2) ->
  Ask.parseNaturalLanguageQuery q1 = Ask.parseNaturalLanguageQuery q2.
Proof. intros H. unfold Ask.parseNaturalLanguageQuery. rewrite H. reflexivity. Qed.

(** X10.  The extractor ignores the case of the letters and the white
    space around the question: two questions with the same lower-cased,
    trimmed text get the same raw filter map.  So the question in lower
    case or trimmed gives the map of the question, and so does the
    question in upper case when its characters are ASCII. *)
Theorem extractor_ignores_case_and_margins (question : string) :
  (forall other,
     Js.trim (Js.toLowerCase other) = Js.trim (Js.toLowerCase question) ->
     Ask.parseNaturalLanguageQuery other = Ask.parseNaturalLanguageQuery question) /\
  Ask.parseNaturalLanguageQuery (Js.toLowerCase question)
    = Ask.parseNaturalLanguageQuery question /\
  Ask.parseNaturalLanguageQuery (Js.trim question)
    = Ask.parseNaturalLanguageQuery question /\
  (all_chars is_ascii question = true ->
   Ask.parseNaturalLanguageQuery (Js.toUpperCase question)
     = Ask.parseNaturalLanguageQuery question).
Proof.
  split; [intros other; apply extractor_reads_lowered|].
  repeat split; [..|intros _]; apply extractor_reads_lowered.
  - rewrite toLowerCase_idem. reflexivity.
  - rewrite <- trim_toLowerCase, trim_idem. reflexivity.
  - rewrite toLowerCase_toUpperCase. reflexivity.
Qed.

Lemma extractor_ignores_case_and_margins_witness :
  Ask.parseNaturalLanguageQuery "ONLINE MBA UNDER 50000"
    = Ask.parseNaturalLanguageQuery "Online MBA under 50000".
Proof.
  apply (extractor_ignores_case_and_margins "Online MBA under 50000").
  reflexivity.
Defined.

(** ** The explicit-parameter route: what is accepted *)

Section Validators.

Import Js.

Lemma validateInteger_whole (value : option string) (name : string) (lo : Z)
    (hi : option Z) (x : nullable) :
  Courses.validateInteger value name (Courses.num lo) (Js.of_Z <$> hi)
    = Courses.Return x ->
  whole_in lo hi x /\ (Courses.present value = true -> x <> None).
Proof.
  destruct value as [t|]; [|intros [= <-]; split; [exact I|discriminate]].
  intros H. apply validateInteger_Return in H as [[-> ->]|(z & -> & _ & Hlo & Hhi)].
  - split; [exact I|discriminate].
  - split; [|discriminate]. exists z. repeat split; [exact Hlo|].
    destruct hi as [h|]; [|exact I]. apply Hhi. reflexivity.
Qed.


(** The validated record, field by field. *)
Lemma validate_fields (r : Courses.query) (v : Courses.validated) :
  Courses.validate r = Courses.Return v ->
  Courses.validateNumber (Courses.min_fee r) "min_fee" (Courses.num 0) None
    = Courses.Return (Courses.v_min_fee v) /\
  Courses.validateNumber (Courses.max_fee r) "max_fee" (Courses.num 0) None
    = Courses.Return (Courses.v_max_fee v) /\
  Courses.validateNumber (Courses.min_rating r) "min_rating" (Courses.num 0) (Courses.num 5)
    = Courses.Return (Courses.v_min_rating v) /\
  Courses.validateNumber (Courses.max_rating r) "max_rating" (Courses.num 0) (Courses.num 5)
    = Courses.Return (Courses.v_max_rating v) /\
  Courses.validateInteger (Courses.min_credits r) "min_credits" (Courses.num 1) None
    = Courses.Return (Courses.v_min_credits v) /\
  Courses.validateInteger (Courses.max_credits r) "max_credits" (Courses.num 1) None
    = Courses.Return (Courses.v_max_credits v) /\
  Courses.validateInteger (Courses.min_duration_weeks r) "min_duration_weeks"
    (Courses.num 1) None = Courses.Return (Courses.v_min_duration_weeks v) /\
  Courses.validateInteger (Courses.max_duration_weeks r) "max_duration_weeks"
    (Courses.num 1) None = Courses.Return (Courses.v_max_duration_weeks v) /\
  Courses.validateInteger (Courses.year_offered r) "year_offered"
    (Courses.num 1900) (Courses.num 2100) = Courses.Return (Courses.v_year_offered v) /\
  Courses.validateInteger (Courses.page_or_default r) "page" (Courses.num 1) None
    = Courses.Return (Courses.v_page v) /\
  Courses.validateInteger (Courses.per_page_or_default r) "per_page"
    (Courses.num 1) (Courses.num 100) = Courses.Return (Courses.v_per_page v).
Proof.
  unfold Courses.validate.
  repeat match goal with
         | |- context [mbind _ ?m] => destruct m; simpl; [|discriminate]
         end.
  intros [= <-]. simpl. repeat split; reflexivity.
Qed.

End Validators.

(** What [compile] answers with, step by step. *)
Lemma compile_Ok (r : Courses.query) (v : Courses.validated)
    (count : Sql.count_query) (main : Sql.select_query) :
  Courses.compile r = Ok (v, count, main) ->
  Courses.validate r = Courses.Return v /\
  Courses.check_enums r = None /\
  count = Courses.countQuery (Courses.build_where r v) /\
  main = Courses.mainQuery r v (Courses.build_where r v).
Proof.
  unfold Courses.compile. destruct (Courses.validate r) as [v'|]; [|discriminate].
  destruct (Courses.check_enums r); [discriminate|]. intros [= -> <- <-]. auto.
Qed.



(** X12.  The [400]s and [500]s of the courses route.  A request that
    fails the validators or an enumeration is answered [400] before any
    query, whatever the store holds, with one of five errors, a validation
    error first.  A request that passes is answered [200] exactly when
    both queries succeed; when a query fails the answer is read off the
    message of the error: [400], as a validation error, when the message
    contains [Invalid], and [500] otherwise.  So a [400] is a request that
    fails a check, or a failure of the store with such a message. *)
Theorem courses_request_errors (r : Courses.query) :
  (forall db e, Courses.compile r = BadRequest e -> Courses.courses db r = BadRequest e) /\
  (forall e, Courses.compile r = BadRequest e -> e ∈ courses_errors) /\
  (forall e, Courses.validate r = Courses.Throw e ->
     Courses.compile r = BadRequest "Validation Error") /\
  (forall db v count main, Courses.compile r = Ok (v, count, main) ->
     ((exists resp, Courses.courses db r = Ok resp) <->
      is_Some (run_count db count) /\ is_Some (run_select db main)) /\
     (run_count db count = None \/ run_select db main = None ->
      Courses.courses db r =
        if Js.includes (failure db) "Invalid"
        then BadRequest "Validation Error" else ServerError)) /\
  (forall db e, Courses.courses db r = BadRequest e ->
     Courses.compile r = BadRequest e \/
     (e = "Validation Error" /\ Js.includes (failure db) "Invalid" = true /\
      exists v count main, Courses.compile r = Ok (v, count, main) /\
        (run_count db count = None \/ run_select db main = None))).
Proof.
  assert (Hcompile : Courses.compile r <> ServerError).
  { unfold Courses.compile. destruct (Courses.validate r); [|discriminate].
    destruct (Courses.check_enums r); discriminate. }
  split; [|split; [|split; [|split]]].
  - intros db e H. unfold Courses.courses. rewrite H. reflexivity.
  - intros e. unfold Courses.compile, courses_errors.
    destruct (Courses.validate r); [|intros [= <-]; set_solver].
    unfold Courses.check_enums.
    repeat match goal with
           | |- context [if ?c then _ else _] => destruct c
           end; intros [= <-]; set_solver.
  - intros e H. unfold Courses.compile. rewrite H. reflexivity.
  - intros db v count main H. unfold Courses.courses. rewrite H.
    fold (@Courses.caught (failure db)).
    assert (Hno : forall resp, Courses.caught (failure db) <> Ok resp).
    { intros resp. unfold Courses.caught. destruct (Js.includes _ _); discriminate. }
    destruct (run_count db count) as [total|]; [destruct (run_select db main) as [rows|]|].
    + split; [|intros [?|?]; discriminate]. split; [auto|eauto].
    + split; [|reflexivity]. split; [intros [resp Hr]; destruct (Hno _ Hr)|].
      intros [_ [? ?]]. discriminate.
    + split; [|reflexivity]. split; [intros [resp Hr]; destruct (Hno _ Hr)|].
      intros [[? ?] _]. discriminate.
  - intros db e. unfold Courses.courses.
    assert (Hcaught : Courses.caught (failure db) = BadRequest e ->
              e = "Validation Error" /\ Js.includes (failure db) "Invalid" = true).
    { unfold Courses.caught.
      destruct (Js.includes _ _); [intros [= <-]; auto | discriminate]. }
    destruct (Courses.compile r) as [[[v count] main]|e'|];
      [|intros [= ->]; left; reflexivity|contradiction].
    destruct (run_count db count) as [total|] eqn:Ec;
      [destruct (run_select db main) as [rows|] eqn:Es; [discriminate|]|];
      intros H; apply Hcaught in H as [-> H]; right; eauto 10.
Qed.

Lemma courses_request_errors_witness :
  Courses.courses (failing_store "Invalid handshake") sample_query
    = BadRequest "Validation Error" /\
  Courses.courses (failing_store "connection refused") sample_query = ServerError.
Proof.
  destruct (Courses.compile sample_query) as [[[v count] main]| |] eqn:E;
    [|vm_compute in E; discriminate..].
  destruct (courses_request_errors sample_query) as (_ & _ & _ & H & _).
  split.
  - apply (H (failing_store "Invalid handshake") v count main E). left. reflexivity.
  - apply (H (failing_store "connection refused") v count main E). left. reflexivity.
Defined.

Section SortOrder.

Import Js.

Lemma upper_lower (c : ascii) : upper (lower c) = upper c.
Proof. destruct c as [[] [] [] [] [] [] [] []]; reflexivity. Qed.

Lemma toUpperCase_toLowerCase (s : string) : toUpperCase (toLowerCase s) = toUpperCase s.
Proof. induction s as [|c s IH]; simpl; [|rewrite upper_lower, IH]; reflexivity. Qed.

End SortOrder.

(** X13.  The ORDER BY clause of an accepted request is never made of
    request text that passed no check: it is a column of the list of sort
    columns, a space and [ASC] or [DESC] ([course_id ASC] when the request
    names neither); the one exception is a [sort_by] or [sort_dir] given as
    the empty text, which leaves its place empty. *)
Theorem order_by_is_whitelisted (r : Courses.query) (v : Courses.validated)
    (count : Sql.count_query) (main : Sql.select_query) :
  Courses.compile r = Ok (v, count, main) ->
  exists column direction,
    Sql.order_by main = column +:+ " " +:+ direction /\
    (column ∈ Courses.validSortColumns \/ Courses.sort_by r = Some "" /\ column = "") /\
    (direction ∈ ["ASC"; "DESC"] \/ Courses.sort_dir r = Some "" /\ direction = "") /\
    (Courses.sort_by r = None -> column = "course_id") /\
    (Courses.sort_dir r = None -> direction = "ASC").
Proof.
  intros H. apply compile_Ok in H as (_ & Henum & _ & ->).
  exists (Courses.sort_by_or_default r), (Js.toUpperCase (Courses.sort_dir_or_default r)).
  split; [reflexivity|].
  unfold Courses.check_enums in Henum.
  destruct (_ && _); [discriminate|]. destruct (_ && _); [discriminate|].
  destruct (negb (String.eqb (Courses.sort_by_or_default r) "") && _) eqn:E1; [discriminate|].
  destruct (negb (String.eqb (Courses.sort_dir_or_default r) "") && _) eqn:E2; [discriminate|].
  clear Henum. unfold Courses.sort_by_or_default, Courses.sort_dir_or_default in *.
  repeat split.
  - apply andb_false_iff in E1 as [E1|E1].
    + apply negb_false_iff, String.eqb_eq in E1. right.
      destruct (Courses.sort_by r) as [s|]; [|discriminate]. simpl in E1. subst. auto.
    + apply negb_false_iff, array_includes_spec in E1. left. exact E1.
  - apply andb_false_iff in E2 as [E2|E2].
    + apply negb_false_iff, String.eqb_eq in E2. right.
      destruct (Courses.sort_dir r) as [s|]; [|discriminate]. simpl in E2. subst. auto.
    + apply negb_false_iff, array_includes_spec in E2. left.
      rewrite <- toUpperCase_toLowerCase.
      unfold Courses.validSortDirections in E2.
      rewrite !elem_of_cons, elem_of_nil in E2.
      destruct E2 as [->|[->|[]]]; set_solver.
  - intros ->. reflexivity.
  - intros ->. reflexivity.
Qed.

Lemma order_by_is_whitelisted_witness :
  exists column direction,
    "rating DESC" = column +:+ " " +:+ direction /\
    (column ∈ Courses.validSortColumns \/ Some "rating" = Some "" /\ column = "") /\
    (direction ∈ ["ASC"; "DESC"] \/ Some "Desc" = Some "" /\ direction = "").
Proof.
  pose (r := Courses.Query None None None None None None None None None None None None None
                           None None (Some "rating") (Some "Desc")).
  destruct (Courses.compile r) as [[[v count] main]|e|] eqn:E;
    [|vm_compute in E; discriminate..].
  destruct (order_by_is_whitelisted r v count main E)
    as (column & direction & H1 & H2 & H3 & _).
  exists column, direction. vm_compute in E. injection E as <- <- <-.
  exact (conj H1 (conj H2 H3)).
Defined.

(** X14.  A [q] that is absent, empty or made of white space only is
    ignored, and so is such a [department]: the request compiles to the
    same queries, and gets the same answer, as the request without the
    parameter. *)
Theorem blank_text_filters_are_ignored (r : Courses.query) :
  (q_populated r = false ->
   Courses.compile r = Courses.compile (without_q r) /\
   forall db, Courses.courses db r = Courses.courses db (without_q r)) /\
  (department_populated r = false ->
   Courses.compile r = Courses.compile (without_department r) /\
   forall db, Courses.courses db r = Courses.courses db (without_department r)).
Proof.
  split; intros H.
  - assert (Hc : Courses.compile r = Courses.compile (without_q r)).
    { unfold Courses.compile. destruct r as [qq dd b c d e f g h i j k l m n o p]. unfold q_populated in H. simpl in H.
      unfold without_q. cbn [Courses.q Courses.department Courses.level
        Courses.delivery_mode Courses.min_fee Courses.max_fee Courses.min_rating
        Courses.max_rating Courses.min_credits Courses.max_credits
        Courses.min_duration_weeks Courses.max_duration_weeks Courses.year_offered
        Courses.page Courses.per_page Courses.sort_by Courses.sort_dir].
      change (Courses.validate (Courses.Query None ?a ?b ?c ?d ?e ?f ?g ?h ?i ?j ?k ?l ?m ?n ?o ?p))
        with (Courses.validate (Courses.Query qq a b c d e f g h i j k l m n o p)).
      destruct (Courses.validate _) as [v|]; [|reflexivity].
      change (Courses.check_enums (Courses.Query None ?a ?b ?c ?d ?e ?f ?g ?h ?i ?j ?k ?l ?m ?n ?o ?p))
        with (Courses.check_enums (Courses.Query qq a b c d e f g h i j k l m n o p)).
      destruct (Courses.check_enums _); [reflexivity|].
      unfold Courses.build_where, Courses.mainQuery, Courses.countQuery.
      cbn [Courses.q Courses.department Courses.level
        Courses.delivery_mode Courses.min_fee Courses.max_fee Courses.min_rating
        Courses.max_rating Courses.min_credits Courses.max_credits
        Courses.min_duration_weeks Courses.max_duration_weeks Courses.year_offered
        Courses.page Courses.per_page Courses.sort_by Courses.sort_dir].
      rewrite H. reflexivity. }
    split; [exact Hc|]. intros db. unfold Courses.courses. rewrite Hc. reflexivity.
  - assert (Hc : Courses.compile r = Courses.compile (without_department r)).
    { unfold Courses.compile. destruct r as [qq dd b c d e f g h i j k l m n o p]. unfold department_populated in H. simpl in H.
      unfold without_department. cbn [Courses.q Courses.department Courses.level
        Courses.delivery_mode Courses.min_fee Courses.max_fee Courses.min_rating
        Courses.max_rating Courses.min_credits Courses.max_credits
        Courses.min_duration_weeks Courses.max_duration_weeks Courses.year_offered
        Courses.page Courses.per_page Courses.sort_by Courses.sort_dir].
      change (Courses.validate (Courses.Query ?z None ?b ?c ?d ?e ?f ?g ?h ?i ?j ?k ?l ?m ?n ?o ?p))
        with (Courses.validate (Courses.Query z dd b c d e f g h i j k l m n o p)).
      destruct (Courses.validate _) as [v|]; [|reflexivity].
      change (Courses.check_enums (Courses.Query ?z None ?b ?c ?d ?e ?f ?g ?h ?i ?j ?k ?l ?m ?n ?o ?p))
        with (Courses.check_enums (Courses.Query z dd b c d e f g h i j k l m n o p)).
      destruct (Courses.check_enums _); [reflexivity|].
      unfold Courses.build_where, Courses.mainQuery, Courses.countQuery.
      cbn [Courses.q Courses.department Courses.level
        Courses.delivery_mode Courses.min_fee Courses.max_fee Courses.min_rating
        Courses.max_rating Courses.min_credits Courses.max_credits
        Courses.min_duration_weeks Courses.max_duration_weeks Courses.year_offered
        Courses.page Courses.per_page Courses.sort_by Courses.sort_dir].
      rewrite H. reflexivity. }
    split; [exact Hc|]. intros db. unfold Courses.courses. rewrite Hc. reflexivity.
Qed.

Lemma blank_text_filters_are_ignored_witness :
  Courses.compile (Courses.Query (Some "   ") None (Some "ug") None None None None None
                                 None None None None None None None None None)
  = Courses.compile (Courses.Query None None (Some "ug") None None None None None
                                   None None None None None None None None None).
Proof.
  apply (blank_text_filters_are_ignored
           (Courses.Query (Some "   ") None (Some "ug") None None None None None
                          None None None None None None None None None)).
  vm_compute. reflexivity.
Defined.

Section CourseParameters.

Import Sql.

Lemma params_push_if_Forall (P : param -> Prop) (c : bool) (t : nat -> fragment)
    (p : param) (b : builder) :
  Forall P (queryParams b) -> (c = true -> P p) -> Forall P (queryParams (push_if c t p b)).
Proof.
  intros Hb Hp. destruct c; [|exact Hb]. simpl. apply Forall_app. split; [exact Hb|].
  constructor; [auto|constructor].
Qed.

Lemma to_value_not_null (x : nullable) (wrap : value -> param) :
  (wrap = Plain \/ wrap = Like) -> x <> None -> ~ is_null (wrap (to_value x)).
Proof.
  intros Hw Hx [H|H]; destruct x; try contradiction;
    destruct Hw; subst; discriminate.
Qed.

End CourseParameters.

(** X15.  The categories of an accepted request reach the query in the
    spelling of the table, whatever the case of the letters in the
    request: the level in upper case, one of [UG] and [PG], and the
    delivery mode in lower case, one of [online], [offline] and
    [hybrid]. *)
Theorem categories_are_normalised (r : Courses.query) (v : Courses.validated)
    (count : Sql.count_query) (main : Sql.select_query) :
  Courses.compile r = Ok (v, count, main) ->
  (forall l, Courses.level r = Some l -> l <> "" ->
     Js.toUpperCase l ∈ Courses.validLevels /\
     binds (Courses.build_where r v) (Sql.cmp "level = ")
           (Sql.Plain (VStr (Js.toUpperCase l)))) /\
  (forall m, Courses.delivery_mode r = Some m -> m <> "" ->
     Js.toLowerCase m ∈ Courses.validDeliveryModes /\
     binds (Courses.build_where r v) (Sql.cmp "delivery_mode = ")
           (Sql.Plain (VStr (Js.toLowerCase m)))).
Proof.
  intros H. apply compile_Ok in H as (_ & Henum & _ & _).
  unfold Courses.check_enums in Henum.
  destruct (Courses.present (Courses.level r) && _) eqn:E1; [discriminate|].
  destruct (Courses.present (Courses.delivery_mode r) && _) eqn:E2; [discriminate|].
  clear Henum. split.
  - intros l Hl Hne. rewrite Hl in E1.
    assert (Hp : Courses.present (Some l) = true) by (destruct l; [contradiction|reflexivity]).
    rewrite Hp in E1. cbn [andb Courses.text default] in E1.
    apply negb_false_iff, array_includes_spec in E1. split; [exact E1|].
    unfold Courses.build_where. cbv zeta. rewrite Hl.
    do 10 apply binds_later.
    apply binds_here; [exact Hp|repeat apply synced_push_if; apply synced_start].
  - intros m Hm Hne. rewrite Hm in E2.
    assert (Hp : Courses.present (Some m) = true) by (destruct m; [contradiction|reflexivity]).
    rewrite Hp in E2. cbn [andb Courses.text default] in E2.
    apply negb_false_iff, array_includes_spec in E2. split; [exact E2|].
    unfold Courses.build_where. cbv zeta. rewrite Hm.
    do 9 apply binds_later.
    apply binds_here; [exact Hp|repeat apply synced_push_if; apply synced_start].
Qed.

Lemma categories_are_normalised_witness :
  match Courses.compile sample_query with
  | Ok (v, _, _) =>
      binds (Courses.build_where sample_query v) (Sql.cmp "level = ")
            (Sql.Plain (VStr "UG"))
  | _ => False
  end.
Proof.
  destruct (Courses.compile sample_query) as [[[v count] main]|e|] eqn:E;
    [|vm_compute in E; discriminate..].
  destruct (categories_are_normalised sample_query v count main E) as [H _].
  destruct (H "ug" eq_refl ltac:(discriminate)) as [_ Hb]. exact Hb.
Defined.

(** X16.  No filter parameter of an accepted request is [null]: the
    parameters of the COUNT query, which are the parameters of the
    predicates, are texts and numbers. *)
Theorem filter_parameters_are_not_null (r : Courses.query) (v : Courses.validated)
    (count : Sql.count_query) (main : Sql.select_query) :
  Courses.compile r = Ok (v, count, main) ->
  Forall (fun p => ~ is_null p) (Sql.count_params count) /\
  Sql.select_params main =
    Sql.count_params count ++
    [Sql.Plain (to_value (Courses.v_per_page v));
     Sql.Plain (VNum (offset (to_number (Courses.v_page v))
                             (to_number (Courses.v_per_page v))))].
Proof.
  intros H. apply compile_Ok in H as (Hv & _ & -> & ->).
  split; [|reflexivity].
  apply validate_fields in Hv as (_ & _ & _ & _ & _ & _ & _ & _ & H9 & _).
  apply (validateInteger_whole _ _ 1900 (Some 2100%Z)) in H9 as [_ H9].
  unfold Courses.countQuery, Courses.build_where. cbv zeta. cbn [Sql.count_params].
  repeat (apply params_push_if_Forall;
          [|first [ solve [intros _; intros [[=]|[=]]]
                  | solve [intros Hc; apply bool_decide_eq_true in Hc;
                           apply to_value_not_null; [auto|exact Hc]]
                  | solve [intros Hc; apply to_value_not_null; [auto|exact (H9 Hc)]] ]]).
  constructor.
Qed.

Lemma filter_parameters_are_not_null_witness :
  ~ is_null (Sql.Like (VStr "python")).
Proof.
  destruct (Courses.compile sample_query) as [[[v count] main]|e|] eqn:E;
    [|vm_compute in E; discriminate..].
  destruct (filter_parameters_are_not_null sample_query v count main E) as [H _].
  vm_compute in E. injection E as <- <- <-.
  apply Forall_cons in H as [H _]. exact H.
Defined.



(** ** The ids of a comparison *)

Section Ids.

Import Js.

Lemma all_chars_trimStart (p : ascii -> bool) (s : string) :
  all_chars p s = true -> all_chars p (trimStart s) = true.
Proof.
  induction s as [|c s IH]; [reflexivity|]. cbn [all_chars trimStart].
  intros H. apply andb_prop in H as [Hc Hs].
  destruct (is_space c); [exact (IH Hs)|]. cbn [all_chars]. rewrite Hc, Hs. reflexivity.
Qed.

Lemma all_chars_trimEnd (p : ascii -> bool) (s : string) :
  all_chars p s = true -> all_chars p (trimEnd s) = true.
Proof.
  induction s as [|c s IH]; [reflexivity|]. cbn [all_chars trimEnd].
  intros H. apply andb_prop in H as [Hc Hs].
  destruct (is_space c && _); [reflexivity|]. cbn [all_chars]. rewrite Hc, (IH Hs). reflexivity.
Qed.

Lemma all_chars_trim (p : ascii -> bool) (s : string) :
  all_chars p s = true -> all_chars p (trim s) = true.
Proof. intros H. apply all_chars_trimEnd, all_chars_trimStart, H. Qed.

Lemma all_chars_snoc (p : ascii -> bool) (s : string) (c : ascii) :
  all_chars p s = true -> p c = true -> all_chars p (s +:+ String c "") = true.
Proof. intros Hs Hc. rewrite all_chars_app, Hs. cbn [all_chars]. rewrite Hc. reflexivity. Qed.

(** The pieces of [s.split(',')] have no comma. *)
Lemma split_char_pieces (s acc : string) :
  all_chars no_comma acc = true ->
  Forall (fun piece => all_chars no_comma piece = true) (split_char_from "," acc s).
Proof.
  revert acc. induction s as [|c s IH]; intros acc Hacc; cbn [split_char_from].
  - constructor; [exact Hacc|constructor].
  - destruct (Ascii.eqb c ",") eqn:E.
    + constructor; [exact Hacc|]. apply IH. reflexivity.
    + apply IH, all_chars_snoc; [exact Hacc|]. unfold no_comma. rewrite E. reflexivity.
Qed.

(** A text with no comma is one piece. *)
Lemma split_char_word (w acc s : string) :
  all_chars no_comma w = true ->
  split_char_from "," acc (w +:+ s) = split_char_from "," (acc +:+ w) s.
Proof.
  revert acc. induction w as [|c w IH]; intros acc Hw.
  - rewrite string_app_nil. reflexivity.
  - cbn [all_chars] in Hw. apply andb_prop in Hw as [Hc Hw].
    rewrite string_app_cons. cbn [split_char_from].
    unfold no_comma in Hc. apply negb_true_iff in Hc. rewrite Hc.
    rewrite (IH _ Hw), string_app_assoc. reflexivity.
Qed.

Lemma join_cons (sep x y : string) (ys : list string) :
  join sep (x :: y :: ys) = x +:+ sep +:+ join sep (y :: ys).
Proof. reflexivity. Qed.

(** Splitting what [join(',')] made of texts with no comma gives the
    texts back. *)
Lemma split_char_join (x : string) (xs : list string) (acc : string) :
  Forall (fun w => all_chars no_comma w = true) (x :: xs) ->
  split_char_from "," acc (join "," (x :: xs)) = (acc +:+ x) :: xs.
Proof.
  revert x acc. induction xs as [|y ys IH]; intros x acc Hall.
  - apply Forall_cons in Hall as [Hx _]. change (join "," [x]) with x.
    rewrite <- (string_app_nil x) at 1. rewrite (split_char_word _ _ _ Hx). reflexivity.
  - apply Forall_cons in Hall as [Hx Hall]. rewrite join_cons.
    rewrite (split_char_word _ _ _ Hx). rewrite string_app_cons.
    change ("" +:+ join "," (y :: ys)) with (join "," (y :: ys)).
    cbn [split_char_from]. change (Ascii.eqb "," ",") with true. cbv iota.
    rewrite (IH y "" Hall). reflexivity.
Qed.

End Ids.

Section ParsedIds.

Import Compare.

Lemma parse_ids_clean (ids : string) : Forall clean_id (parse_ids ids).
Proof.
  unfold parse_ids. apply Forall_forall. intros id Hid.
  apply list_elem_of_filter in Hid as [Hne Hid].
  apply list_elem_of_fmap in Hid as (piece & -> & Hpiece).
  split; [exact Hne|]. split; [apply trim_idem|].
  apply all_chars_trim.
  pose proof (split_char_pieces ids "" eq_refl) as Hall.
  rewrite Forall_forall in Hall. apply Hall, Hpiece.
Qed.

Lemma parse_ids_join (xs : list string) :
  Forall clean_id xs -> parse_ids (Js.join "," xs) = xs.
Proof.
  intros Hall. unfold parse_ids, Js.split_char.
  destruct xs as [|x xs]; [reflexivity|].
  rewrite split_char_join
    by (eapply Forall_impl; [exact Hall|]; intros w (_ & _ & Hw); exact Hw).
  change ("" +:+ x) with x.
  assert (Hmap : map Js.trim (x :: xs) = x :: xs).
  { clear -Hall. induction Hall as [|w ws (_ & Hw & _) _ IH]; [reflexivity|].
    cbn [map]. rewrite Hw, IH. reflexivity. }
  rewrite Hmap. clear Hmap.
  induction Hall as [|w ws (Hw & _ & _) _ IH]; [reflexivity|].
  rewrite filter_cons_True by exact Hw. rewrite IH. reflexivity.
Qed.

Lemma no_invalid_ids (ids : string) :
  filter (fun id => id = "") (parse_ids ids) = [].
Proof.
  pose proof (parse_ids_clean ids) as Hall.
  induction Hall as [|w ws (Hw & _ & _) _ IH]; [reflexivity|].
  rewrite filter_cons_False by exact Hw. exact IH.
Qed.

End ParsedIds.

(** The answers of the comparison route to a parameter that is not
    empty. *)
Lemma compare_replies (table : list course) (ids : string) :
  ids <> "" ->
  (Compare.parse_ids ids = [] /\
   Compare.compare table (Some ids) = BadRequest "Invalid IDs format") \/
  (4 < length (Compare.parse_ids ids) /\
   Compare.compare table (Some ids) = BadRequest "Too many course IDs") \/
  (1 <= length (Compare.parse_ids ids) <= 4 /\
   exists resp, Compare.compare table (Some ids) = Ok resp).
Proof.
  intros Hne. unfold Compare.compare. rewrite no_invalid_ids.
  change (0 <? @length string [])%nat with false. cbv iota.
  destruct ids as [|a ids']; [contradiction|].
  set (ids := String a ids').
  destruct (length (Compare.parse_ids ids) =? 0)%nat eqn:E0.
  { apply Nat.eqb_eq in E0. left. split; [|reflexivity].
    destruct (Compare.parse_ids ids); [reflexivity|discriminate]. }
  apply Nat.eqb_neq in E0.
  destruct (4 <? length (Compare.parse_ids ids))%nat eqn:E4.
  { apply Nat.ltb_lt in E4. right. left. auto. }
  apply Nat.ltb_ge in E4. right. right. split; [lia|]. eauto.
Qed.

(** X18.  The [400]s of the comparison route.  An absent or empty
    [ids] is a missing parameter.  Otherwise the ids are the pieces
    between the commas, trimmed, without the empty ones, so every id is
    not empty, has no white space around it and no comma, and the check
    for invalid ids never fires: the answer is the format error exactly
    when no id is left and the error of too many ids exactly when more
    than four are left.  These are the only [400]s: with one to four ids,
    and only then, the request is not refused and goes to the store. *)
Theorem comparison_request_errors (table : list course) (ids : string) :
  Forall clean_id (Compare.parse_ids ids) /\
  Compare.compare table None = BadRequest "Missing required parameter" /\
  Compare.compare table (Some "") = BadRequest "Missing required parameter" /\
  (Compare.compare table (Some ids) = BadRequest "Invalid IDs format" <->
   ids <> "" /\ Compare.parse_ids ids = []) /\
  (Compare.compare table (Some ids) = BadRequest "Too many course IDs" <->
   4 < length (Compare.parse_ids ids)) /\
  (forall e, Compare.compare table (Some ids) = BadRequest e -> e ∈ compare_errors) /\
  ((forall e, Compare.compare table (Some ids) <> BadRequest e) <->
   1 <= length (Compare.parse_ids ids) <= 4).
Proof.
  split; [apply parse_ids_clean|]. split; [reflexivity|]. split; [reflexivity|].
  unfold compare_errors.
  destruct (decide (ids = "")) as [->|Hne].
  { change (Compare.parse_ids "") with (@nil string). cbn [length].
    change (Compare.compare table (Some "")) with
      (@BadRequest Compare.response "Missing required parameter").
    split; [split; [discriminate | intros [H _]; contradiction]|].
    split; [split; [discriminate | lia]|].
    split; [intros e [= <-]; set_solver|].
    split; [intros H; destruct (H _ eq_refl) | lia]. }
  destruct (compare_replies table ids Hne) as [[Hp ->]|[[Hp ->]|[Hp [resp ->]]]].
  - rewrite Hp. cbn [length].
    split; [split; [auto | reflexivity]|].
    split; [split; [discriminate | lia]|].
    split; [intros e [= <-]; set_solver|].
    split; [intros H; destruct (H _ eq_refl) | lia].
  - split; [split; [discriminate|]|].
    { intros [_ H]. rewrite H in Hp. cbn [length] in Hp. lia. }
    split; [split; [intros _; exact Hp | reflexivity]|].
    split; [intros e [= <-]; set_solver|].
    split; [intros H; destruct (H _ eq_refl) | lia].
  - split; [split; [discriminate|]|].
    { intros [_ H]. rewrite H in Hp. cbn [length] in Hp. lia. }
    split; [split; [discriminate | lia]|].
    split; [discriminate|].
    split; [intros _; exact Hp | intros _ e; discriminate].
Qed.

Lemma comparison_request_errors_witness :
  Compare.compare sample_table (Some " , ,, ") = BadRequest "Invalid IDs format".
Proof.
  apply (comparison_request_errors sample_table " , ,, ").
  split; [discriminate|]. vm_compute. reflexivity.
Defined.

Section PlainIds.

Import Js.

Lemma trimStart_head (c : ascii) (s : string) :
  is_space c = false -> trimStart (String c s) = String c s.
Proof. intros H. cbn [trimStart]. rewrite H. reflexivity. Qed.

Lemma trimEnd_no_space (s : string) :
  all_chars (fun c => negb (is_space c)) s = true -> trimEnd s = s.
Proof.
  induction s as [|c s IH]; [reflexivity|]. cbn [all_chars trimEnd].
  intros H. apply andb_prop in H as [Hc Hs]. apply negb_true_iff in Hc.
  rewrite Hc, (IH Hs). reflexivity.
Qed.

Lemma trim_no_space (s : string) :
  all_chars (fun c => negb (is_space c)) s = true -> trim s = s.
Proof.
  intros H. unfold trim. destruct s as [|c s]; [reflexivity|].
  pose proof H as H'. cbn [all_chars] in H'. apply andb_prop in H' as [Hc _].
  apply negb_true_iff in Hc. rewrite (trimStart_head c s Hc). apply trimEnd_no_space, H.
Qed.

Lemma unreserved_no_space (c : ascii) : is_unreserved c = true -> negb (is_space c) = true.
Proof. destruct c as [[] [] [] [] [] [] [] []]; vm_compute; congruence. Qed.

Lemma unreserved_no_comma (c : ascii) : is_unreserved c = true -> no_comma c = true.
Proof. destruct c as [[] [] [] [] [] [] [] []]; vm_compute; congruence. Qed.

Lemma plain_id_clean (id : string) : plain_id id -> clean_id id.
Proof.
  intros [Hne Hall]. split; [exact Hne|]. split.
  - apply trim_no_space. eapply all_chars_impl; [apply unreserved_no_space | exact Hall].
  - eapply all_chars_impl; [apply unreserved_no_comma | exact Hall].
Qed.

End PlainIds.

(** X19.  The text that the compare page writes after [ids=],
    [compareList.join(',')], is read back by the route as the list
    itself, when the ids of the list are not empty and made of letters,
    digits, [-], [.], [_] and [~], which an address carries unchanged. *)
Theorem joined_ids_are_read_back (compareList : list string) (ids : string) :
  Forall plain_id compareList ->
  ComparePage.fetchComparisonData compareList = Some ids ->
  Compare.parse_ids ids = compareList.
Proof.
  intros Hall. unfold ComparePage.fetchComparisonData.
  assert (Hclean : Forall clean_id compareList).
  { eapply Forall_impl; [exact Hall | apply plain_id_clean]. }
  destruct compareList as [|x xs]; [discriminate|]. intros [= <-].
  exact (parse_ids_join (x :: xs) Hclean).
Qed.

Lemma joined_ids_are_read_back_witness :
  Compare.parse_ids "CS-101,MGT201,EE_301" = ["CS-101"; "MGT201"; "EE_301"].
Proof.
  apply (joined_ids_are_read_back ["CS-101"; "MGT201"; "EE_301"]).
  - repeat constructor; discriminate.
  - reflexivity.
Defined.

(** ** The categories of a comparison and the order of the table *)

Lemma new_Set_distinct (l : list string) : distinct_in_order (Compare.new_Set l) l.
Proof.
  split; [apply NoDup_new_Set|]. split; [intros x; apply elem_of_new_Set|].
  apply new_Set_first_occurrence.
Qed.

(** X20.  The three category lists of the insights hold the levels,
    the delivery modes and the departments of the compared rows: each
    value once, in the order of its first row, the empty text and the
    missing departments left out. *)
Theorem insights_list_distinct_categories (courses : list course) :
  let ins := Compare.generateComparisonInsights courses in
  distinct_in_order (Compare.levels ins) (filter (fun x => x <> "") (level <$> courses)) /\
  distinct_in_order (Compare.delivery_modes ins)
    (filter (fun x => x <> "") (delivery_mode <$> courses)) /\
  distinct_in_order (Compare.departments ins)
    (filter (fun x => x <> "") (omap department courses)) /\
  (forall x, x ∈ Compare.levels ins <-> x <> "" /\ exists c, c ∈ courses /\ level c = x) /\
  (forall x, x ∈ Compare.delivery_modes ins <->
     x <> "" /\ exists c, c ∈ courses /\ delivery_mode c = x) /\
  (forall x, x ∈ Compare.departments ins <->
     x <> "" /\ exists c, c ∈ courses /\ department c = Some x).
Proof.
  intros ins. unfold ins, Compare.generateComparisonInsights, Compare.nonempty.
  cbn [Compare.levels Compare.delivery_modes Compare.departments].
  split; [apply new_Set_distinct|]. split; [apply new_Set_distinct|].
  split; [apply new_Set_distinct|].
  split; [|split]; intros x; rewrite elem_of_new_Set, list_elem_of_filter.
  - rewrite list_elem_of_fmap. split.
    + intros [Hx (c & -> & Hc)]. eauto.
    + intros [Hx (c & Hc & <-)]. eauto.
  - rewrite list_elem_of_fmap. split.
    + intros [Hx (c & -> & Hc)]. eauto.
    + intros [Hx (c & Hc & <-)]. eauto.
  - rewrite list_elem_of_omap. split.
    + intros [Hx (c & Hc & Hd)]. eauto.
    + intros [Hx (c & Hc & Hd)]. eauto.
Qed.

Section TableOrder.

Import Compare.

Lemma fmap_injective_on {A B} (f : A -> B) (t : list A) (x y : A) :
  NoDup (f <$> t) -> x ∈ t -> y ∈ t -> f x = f y -> x = y.
Proof.
  induction t as [|a t IH]; [intros _ Hx; inversion Hx|].
  rewrite fmap_cons, NoDup_cons. intros [Ha Hnd] Hx Hy Hf.
  apply elem_of_cons in Hx as [->|Hx], Hy as [->|Hy]; [reflexivity| | |auto].
  - exfalso. apply Ha. rewrite Hf. apply list_elem_of_fmap. eauto.
  - exfalso. apply Ha. rewrite <- Hf. apply list_elem_of_fmap. eauto.
Qed.

Lemma fmap_eq_on {A B} (f : A -> B) (t l1 l2 : list A) :
  NoDup (f <$> t) -> (forall x, x ∈ l1 -> x ∈ t) -> (forall x, x ∈ l2 -> x ∈ t) ->
  f <$> l1 = f <$> l2 -> l1 = l2.
Proof.
  intros Hnd. revert l2. induction l1 as [|a l1 IH]; intros [|b l2] H1 H2 Hf;
    try discriminate; [reflexivity|].
  rewrite !fmap_cons in Hf. injection Hf as Hab Hf.
  f_equal.
  - apply (fmap_injective_on f t); [exact Hnd|apply H1; left|apply H2; left|exact Hab].
  - apply IH; [intros x Hx; apply H1; right; exact Hx
              |intros x Hx; apply H2; right; exact Hx|exact Hf].
Qed.

(** With a key on [course_id], the rows of the query do not depend on
    the order of the table. *)
Lemma run_query_table_order (table table' : list course) (ids : list string) :
  NoDup ids -> NoDup (course_id <$> table) -> table ≡ₚ table' ->
  run_query table ids = run_query table' ids.
Proof.
  intros Hids Hnd Hperm.
  assert (Hnd' : NoDup (course_id <$> table')) by (rewrite <- Hperm; exact Hnd).
  apply (fmap_eq_on course_id table); [exact Hnd| | |].
  - intros c Hc. apply elem_of_run_query in Hc. tauto.
  - intros c Hc. apply elem_of_run_query in Hc. rewrite Hperm. tauto.
  - rewrite !found_ids_in_request_order by assumption.
    apply list_filter_iff_elem. intros x _. rewrite Hperm. reflexivity.
Qed.

End TableOrder.

(** X21.  With [course_id] a key of the table, the answer of the
    comparison route does not depend on the order in which the table
    holds its rows. *)
Theorem comparison_ignores_table_order (table table' : list course) (ids : option string) :
  NoDup (course_id <$> table) -> table ≡ₚ table' ->
  Compare.compare table ids = Compare.compare table' ids.
Proof.
  intros Hnd Hperm. unfold Compare.compare.
  destruct ids as [[|a ids']|]; [reflexivity| |reflexivity].
  set (ids := String a ids').
  rewrite (run_query_table_order table table' (Compare.new_Set (Compare.parse_ids ids))
             (NoDup_new_Set _) Hnd Hperm).
  reflexivity.
Qed.

Lemma comparison_ignores_table_order_witness :
  Compare.compare sample_table (Some "3,1") = Compare.compare (reverse sample_table) (Some "3,1").
Proof.
  apply (comparison_ignores_table_order sample_table (reverse sample_table)).
  - apply (bool_decide_unpack _). vm_compute. exact I.
  - symmetry. apply reverse_Permutation.
Defined.

(** ** Ingestion *)

Section Upsert.

Import Ingest.

Lemma upsert_ids (table : list course) (c : course) :
  course_id <$> (upsert table c).1 =
  if decide (course_id c ∈ course_id <$> table) then course_id <$> table
  else (course_id <$> table) ++ [course_id c].
Proof.
  induction table as [|r table IH]; [reflexivity|]. cbn [upsert].
  destruct (String.eqb_spec (course_id r) (course_id c)) as [E|E].
  - cbn [fst]. rewrite !fmap_cons, E. rewrite decide_True by left. reflexivity.
  - destruct (upsert table c) as [t a]. cbn [fst] in *. rewrite !fmap_cons, IH.
    destruct (decide (course_id c ∈ course_id <$> table)) as [Hin|Hin].
    + rewrite decide_True by (right; exact Hin). reflexivity.
    + rewrite decide_False; [reflexivity|]. intros H. apply elem_of_cons in H as [H|H]; auto.
Qed.

Lemma upsert_NoDup (table : list course) (c : course) :
  NoDup (course_id <$> table) -> NoDup (course_id <$> (upsert table c).1).
Proof.
  intros Hnd. rewrite upsert_ids. destruct (decide _) as [Hin|Hin]; [exact Hnd|].
  apply NoDup_app. split; [exact Hnd|]. split; [|apply NoDup_singleton].
  intros x Hx Hx'. apply list_elem_of_singleton in Hx'. subst. contradiction.
Qed.

Lemma upsert_action (table : list course) (c : course) :
  (upsert table c).2 = if decide (course_id c ∈ course_id <$> table) then Updated else Inserted.
Proof.
  induction table as [|r table IH]; [reflexivity|]. cbn [upsert].
  destruct (String.eqb_spec (course_id r) (course_id c)) as [E|E].
  - cbn [snd]. rewrite fmap_cons, E, decide_True by left. reflexivity.
  - destruct (upsert table c) as [t a]. cbn [snd] in *. rewrite IH, fmap_cons.
    destruct (decide (course_id c ∈ course_id <$> table)) as [Hin|Hin].
    + rewrite decide_True by (right; exact Hin). reflexivity.
    + rewrite decide_False; [reflexivity|]. intros H. apply elem_of_cons in H as [H|H]; auto.
Qed.

Lemma upsert_length (table : list course) (c : course) :
  length (upsert table c).1 =
  length table + match (upsert table c).2 with Inserted => 1 | Updated => 0 end.
Proof.
  induction table as [|r table IH]; [reflexivity|]. cbn [upsert].
  destruct (String.eqb (course_id r) (course_id c)); [simpl; lia|].
  destruct (upsert table c) as [t a]. cbn [fst snd length] in *. lia.
Qed.

(** With a key on [course_id], an upsert leaves the rows of the other
    ids and the new row. *)
Lemma upsert_elem (table : list course) (c x : course) :
  NoDup (course_id <$> table) ->
  x ∈ (upsert table c).1 <-> x = c \/ (x ∈ table /\ course_id x <> course_id c).
Proof.
  induction table as [|r table IH]; intros Hnd.
  - cbn [upsert fst]. rewrite list_elem_of_singleton, elem_of_nil. tauto.
  - rewrite fmap_cons in Hnd. apply NoDup_cons in Hnd as [Hr Hnd]. cbn [upsert].
    destruct (String.eqb_spec (course_id r) (course_id c)) as [E|E].
    + cbn [fst]. rewrite !elem_of_cons. split.
      * intros [->|Hx]; [auto|]. right. split; [auto|]. intros Hid.
        apply Hr. rewrite E, <- Hid. apply list_elem_of_fmap. eauto.
      * intros [->|[[->|Hx] Hid]]; [auto|contradiction|auto].
    + destruct (upsert table c) as [t a]. cbn [fst] in *.
      rewrite !elem_of_cons, (IH Hnd). split.
      * intros [->|[->|[Hx Hid]]]; auto.
      * intros [->|[[->|Hx] Hid]]; auto.
Qed.

(** An upsert of an id of the table rewrites the row in its place. *)
Lemma upsert_present (table : list course) (c : course) :
  NoDup (course_id <$> table) -> course_id c ∈ course_id <$> table ->
  (upsert table c).1 =
  (fun r => if String.eqb (course_id r) (course_id c) then c else r) <$> table.
Proof.
  induction table as [|r table IH]; intros Hnd Hin; [inversion Hin|].
  rewrite fmap_cons in Hnd. apply NoDup_cons in Hnd as [Hr Hnd]. cbn [upsert].
  rewrite fmap_cons.
  destruct (String.eqb_spec (course_id r) (course_id c)) as [E|E].
  - cbn [fst]. f_equal. symmetry. rewrite <- (list_fmap_id table) at 2.
    apply list_fmap_ext. intros i x Hx.
    destruct (String.eqb_spec (course_id x) (course_id c)) as [E'|E']; [|reflexivity].
    exfalso. apply Hr. rewrite E, <- E'. apply list_elem_of_fmap.
    exists x. split; [reflexivity|]. eapply list_elem_of_lookup_2, Hx.
  - rewrite fmap_cons in Hin. apply elem_of_cons in Hin as [Hin|Hin]; [congruence|].
    specialize (IH Hnd Hin). destruct (upsert table c) as [t a]. cbn [fst] in *.
    rewrite IH. reflexivity.
Qed.

End Upsert.

Section ProcessLoop.

Import Ingest.

Variable accepts : course -> bool.

Lemma stored_cons_rejected (r : record) (records : list record) :
  rejected accepts r = true -> stored accepts (r :: records) = stored accepts records.
Proof.
  intros H. unfold stored. rewrite filter_cons, decide_False by congruence. reflexivity.
Qed.

Lemma stored_cons_kept (r : record) (records : list record) :
  rejected accepts r = false ->
  stored accepts (r :: records) = courseData r :: stored accepts records.
Proof.
  intros H. unfold stored. rewrite filter_cons, decide_True by exact H. reflexivity.
Qed.

(** The three ways of a record through the body of the loop. *)
Lemma step_cases (table : list course) (c : counters) (i : nat) (r : record) :
  (rejected accepts r = true /\
   step accepts (table, c) i r = (table, fail c (Failure (i + 2) (rejection r) r))) \/
  (rejected accepts r = false /\
   step accepts (table, c) i r =
     ((upsert table (courseData r)).1, count c (upsert table (courseData r)).2)).
Proof.
  unfold rejected, rejection, step. cbv zeta. destruct (missingFields r) as [|f fs].
  - change (0 <? length (@nil string))%nat with false. cbv iota.
    rewrite bool_decide_eq_true_2 by reflexivity.
    destruct (accepts (courseData r)); cbn [negb orb].
    + right. split; [reflexivity|]. destruct (upsert table (courseData r)). reflexivity.
    + left. split; reflexivity.
  - change (0 <? length (f :: fs))%nat with true. cbv iota.
    rewrite bool_decide_eq_false_2 by discriminate. left. split; reflexivity.
Qed.

(** The table after the loop: the rows that are not rejected are
    upserted one after the other. *)
Lemma process_table (records : list record) (table : list course) (c : counters) (i : nat) :
  (process accepts (table, c) i records).1 =
  fold_left (fun t row => (upsert t row).1) (stored accepts records) table.
Proof.
  revert table c i. induction records as [|r records IH]; intros table c i; [reflexivity|].
  cbn [process].
  destruct (step_cases table c i r) as [[Hr ->]|[Hr ->]].
  - rewrite (stored_cons_rejected _ _ Hr). apply IH.
  - rewrite (stored_cons_kept _ _ Hr). cbn [fold_left]. apply IH.
Qed.

(** The counters after the loop. *)
Lemma process_counters (records : list record) (table : list course) (c : counters) (i : nat) :
  let st := process accepts (table, c) i records in
  inserted st.2 + updated st.2 = inserted c + updated c + length (stored accepts records) /\
  failed st.2 = failed c + length (failures accepts i records) /\
  failedRows st.2 = failedRows c ++ failures accepts i records /\
  length st.1 + inserted c = length table + inserted st.2.
Proof.
  revert table c i. induction records as [|r records IH]; intros table c i.
  - cbv zeta. cbn [process fst snd failures]. rewrite app_nil_r.
    change (length (stored accepts [])) with 0. cbn [length]. repeat split; lia.
  - cbv zeta. cbn [process failures].
    destruct (step_cases table c i r) as [[Hr ->]|[Hr ->]]; rewrite Hr.
    + rewrite (stored_cons_rejected _ _ Hr).
      specialize (IH table (fail c (Failure (i + 2) (rejection r) r)) (S i)).
      cbv zeta in IH. destruct IH as (H1 & H2 & H3 & H4).
      cbn [fail inserted updated failed failedRows] in *.
      rewrite <- app_assoc in H3.
      cbn [length app]. repeat split; try assumption; lia.
    + rewrite (stored_cons_kept _ _ Hr).
      pose proof (upsert_length table (courseData r)) as Hlen.
      specialize (IH (upsert table (courseData r)).1
                     (count c (upsert table (courseData r)).2) (S i)).
      cbv zeta in IH. destruct IH as (H1 & H2 & H3 & H4).
      destruct (upsert table (courseData r)).2;
        cbn [count inserted updated failed failedRows length app] in *;
        repeat split; try assumption; lia.
Qed.

Lemma failures_length (records : list record) (i : nat) :
  length (failures accepts i records) + length (stored accepts records) = length records.
Proof.
  revert i. induction records as [|r records IH]; intros i; [reflexivity|].
  cbn [failures]. rewrite length_app. specialize (IH (S i)).
  destruct (rejected accepts r) eqn:Hr.
  - rewrite (stored_cons_rejected _ _ Hr). cbn [length]. lia.
  - rewrite (stored_cons_kept _ _ Hr). cbn [length]. lia.
Qed.

(** Every entry of [failedRows] names the line of its record, and the
    record is a rejected one. *)
Lemma failures_lines (records : list record) (i : nat) :
  Forall (fun f => exists j, row f = i + j + 2 /\ records !! j = Some (data f) /\
                             rejected accepts (data f) = true /\
                             error f = rejection (data f))
         (failures accepts i records).
Proof.
  revert i. induction records as [|r records IH]; intros i; [constructor|].
  cbn [failures]. apply Forall_app. split.
  - destruct (rejected accepts r) eqn:Hr; [|constructor].
    constructor; [|constructor]. exists 0. cbn [row data error]. repeat split; [lia|exact Hr].
  - eapply Forall_impl; [exact (IH (S i))|]. cbv beta.
    intros f (j & H1 & H2 & H3 & H4). exists (S j). repeat split; [lia|exact H2|exact H3|exact H4].
Qed.

Lemma failures_sorted (records : list record) (i : nat) :
  StronglySorted lt (row <$> failures accepts i records) /\
  Forall (fun n => i + 2 <= n) (row <$> failures accepts i records).
Proof.
  revert i. induction records as [|r records IH]; intros i; [split; constructor|].
  cbn [failures]. rewrite fmap_app. destruct (IH (S i)) as [Hs Hall].
  assert (Hall' : Forall (fun n => i + 2 < n) (row <$> failures accepts (S i) records)).
  { eapply Forall_impl; [exact Hall|]. intros n Hn. simpl in Hn. lia. }
  destruct (rejected accepts r); cbn [app fmap list_fmap row].
  - split.
    + constructor; [exact Hs | exact Hall'].
    + constructor; [lia|]. eapply Forall_impl; [exact Hall'|]. intros n Hn. simpl in Hn. lia.
  - split; [exact Hs|]. eapply Forall_impl; [exact Hall'|]. intros n Hn. simpl in Hn. lia.
Qed.

End ProcessLoop.

(** What a completed ingestion answers with. *)
Lemma ingest_Completed (accepts : course -> bool) (expectedToken ingestToken : option string)
    (file : Ingest.upload) (table table' : list course) (resp : Ingest.response) :
  Ingest.ingest accepts expectedToken ingestToken file table = (table', Ingest.Completed resp) ->
  exists records,
    file = Ingest.Parsed records /\
    Ingest.authorised ingestToken expectedToken = true /\
    let st := Ingest.process accepts (table, Ingest.Counters 0 0 0 []) 0 records in
    table' = st.1 /\ resp = Ingest.respond (length records) st.2.
Proof.
  unfold Ingest.ingest. destruct file as [| | |records]; [discriminate|..];
    (destruct (Ingest.authorised _ _); [|discriminate]); cbn [negb]; [discriminate..|].
  destruct (Ingest.process _ _ _ _) as [t c] eqn:E. intros [= <- <-].
  exists records. split; [reflexivity|]. split; [reflexivity|].
  cbv zeta. rewrite E. split; reflexivity.
Qed.

(** X22.  The summary of an ingestion accounts for every record of the
    file: it was inserted, updated or it failed, the three counters add up
    to [total_processed], the number of records; the records that did not
    fail are those with their required fields that the store took; and the
    table grew by the number of inserted records. *)
Theorem ingestion_counts_every_record (accepts : course -> bool)
    (expectedToken ingestToken : option string) (records : list Ingest.record)
    (table table' : list course) (resp : Ingest.response) :
  Ingest.ingest accepts expectedToken ingestToken (Ingest.Parsed records) table
    = (table', Ingest.Completed resp) ->
  let c := Ingest.counts resp in
  Ingest.total_processed resp = length records /\
  Ingest.inserted c + Ingest.updated c + Ingest.failed c = Ingest.total_processed resp /\
  Ingest.inserted c + Ingest.updated c = length (stored accepts records) /\
  Ingest.failed c = length (Ingest.failedRows c) /\
  length table' = length table + Ingest.inserted c.
Proof.
  intros H. apply ingest_Completed in H as (records' & [= <-] & _ & H). cbv zeta in H.
  destruct H as [-> ->].
  destruct (process_counters accepts records table (Ingest.Counters 0 0 0 []) 0)
    as (H1 & H2 & H3 & H4).
  pose proof (failures_length accepts records 0) as Hlen.
  cbn [Ingest.respond Ingest.counts Ingest.total_processed
       Ingest.inserted Ingest.updated Ingest.failed Ingest.failedRows] in *.
  assert (H5 : length (Ingest.failedRows
                 (Ingest.process accepts (table, Ingest.Counters 0 0 0 []) 0 records).2)
               = length (failures accepts 0 records)).
  { rewrite H3. reflexivity. }
  repeat split; lia.
Qed.

Lemma ingestion_counts_every_record_witness :
  match Ingest.ingest accept_all (Some "secret") (Some "secret")
          (Ingest.Parsed sample_file) [] with
  | (_, Ingest.Completed resp) =>
      Ingest.inserted (Ingest.counts resp) + Ingest.updated (Ingest.counts resp)
        + Ingest.failed (Ingest.counts resp) = Ingest.total_processed resp
  | _ => False
  end.
Proof.
  destruct (Ingest.ingest accept_all (Some "secret") (Some "secret")
              (Ingest.Parsed sample_file) []) as [t [| | |resp]] eqn:E;
    try (vm_compute in E; discriminate).
  apply (ingestion_counts_every_record _ _ _ _ _ _ _ E).
Defined.

(** X23.  The failed rows of the summary.  [failedRows] has one entry
    for every rejected record, in the order of the file, with the line of
    the record (the header is line 1, so the record [j] is line [j + 2])
    and the record itself.  The summary carries the first ten of them, and
    no [failed_rows] at all when nothing failed. *)
Theorem failed_rows_are_reported (accepts : course -> bool)
    (expectedToken ingestToken : option string) (records : list Ingest.record)
    (table table' : list course) (resp : Ingest.response) :
  Ingest.ingest accepts expectedToken ingestToken (Ingest.Parsed records) table
    = (table', Ingest.Completed resp) ->
  let c := Ingest.counts resp in
  Ingest.failedRows c = failures accepts 0 records /\
  Forall (fun f => exists j, Ingest.row f = j + 2 /\ records !! j = Some (Ingest.data f) /\
                             rejected accepts (Ingest.data f) = true)
         (Ingest.failedRows c) /\
  StronglySorted lt (Ingest.row <$> Ingest.failedRows c) /\
  (Ingest.failed c = 0 -> Ingest.failed_rows resp = None) /\
  (0 < Ingest.failed c ->
   Ingest.failed_rows resp = Some (take 10 (Ingest.failedRows c))) /\
  (forall l, Ingest.failed_rows resp = Some l -> 1 <= length l <= 10).
Proof.
  intros H. apply ingest_Completed in H as (records' & [= <-] & _ & H). cbv zeta in H.
  destruct H as [-> ->].
  destruct (process_counters accepts records table (Ingest.Counters 0 0 0 []) 0)
    as (_ & H2 & H3 & _).
  cbn [Ingest.respond Ingest.counts Ingest.failed_rows Ingest.failed Ingest.failedRows
       app Nat.add] in *.
  set (c := (Ingest.process accepts (table, Ingest.Counters 0 0 0 []) 0 records).2) in *.
  rewrite H3, H2.
  split; [reflexivity|]. split; [|split; [apply failures_sorted|]].
  - eapply Forall_impl; [apply failures_lines|]. cbv beta.
    intros f (j & H1 & Hj & Hr & _). exists j. repeat split; [exact H1|exact Hj|exact Hr].
  - destruct (failures accepts 0 records) as [|f fs]; cbn [length].
    + split; [reflexivity|]. split; [lia|]. discriminate.
    + split; [lia|]. split; [reflexivity|]. intros l [= <-].
      pose proof (length_take fs 9) as Hl. cbn [take length] in Hl |- *. lia.
Qed.

Lemma failed_rows_are_reported_witness :
  match Ingest.ingest accept_all (Some "secret") (Some "secret")
          (Ingest.Parsed sample_file) [] with
  | (_, Ingest.Completed resp) =>
      Ingest.row <$> Ingest.failedRows (Ingest.counts resp) = [3]
  | _ => False
  end.
Proof.
  destruct (Ingest.ingest accept_all (Some "secret") (Some "secret")
              (Ingest.Parsed sample_file) []) as [t [| | |resp]] eqn:E;
    try (vm_compute in E; discriminate).
  destruct (failed_rows_are_reported _ _ _ _ _ _ _ E) as [-> _].
  vm_compute. reflexivity.
Defined.

Section LastRowWins.

Import Ingest.

Lemma latest_snoc (rows : list course) (c : course) (id : string) :
  latest (rows ++ [c]) id = if decide (course_id c = id) then Some c else latest rows id.
Proof.
  unfold latest. rewrite filter_app, filter_cons, filter_nil.
  destruct (decide (course_id c = id)); [apply last_snoc|].
  rewrite app_nil_r. reflexivity.
Qed.

Lemma latest_id (rows : list course) (id : string) (c : course) :
  latest rows id = Some c -> course_id c = id.
Proof.
  unfold latest. intros H. apply last_Some_elem_of, list_elem_of_filter in H. tauto.
Qed.

Lemma latest_elem (rows : list course) (id : string) (c : course) :
  latest rows id = Some c -> c ∈ rows.
Proof.
  unfold latest. intros H. apply last_Some_elem_of, list_elem_of_filter in H. tauto.
Qed.

Lemma latest_None (rows : list course) (id : string) :
  latest rows id = None <-> id ∉ course_id <$> rows.
Proof.
  unfold latest. rewrite last_None. split.
  - intros H Hin. apply list_elem_of_fmap in Hin as (c & -> & Hc).
    assert (Hc' : c ∈ filter (fun c0 => course_id c0 = course_id c) rows)
      by (apply list_elem_of_filter; auto).
    rewrite H in Hc'. inversion Hc'.
  - intros H. destruct (filter _ rows) as [|c l] eqn:E; [reflexivity|]. exfalso. apply H.
    assert (Hc : c ∈ filter (fun c0 => course_id c0 = id) rows) by (rewrite E; left).
    apply list_elem_of_filter in Hc as [<- Hc]. apply list_elem_of_fmap. eauto.
Qed.

Lemma fold_upsert_snoc (rows : list course) (c : course) (table : list course) :
  fold_left (fun t row => (upsert t row).1) (rows ++ [c]) table =
  (upsert (fold_left (fun t row => (upsert t row).1) rows table) c).1.
Proof. rewrite fold_left_app. reflexivity. Qed.

(** After a run of upserts the table holds, for every id, the last row
    of the run with the id, or the row it had when the run has none. *)
Lemma fold_upsert_elem (rows : list course) (table : list course) :
  NoDup (course_id <$> table) ->
  let table' := fold_left (fun t row => (upsert t row).1) rows table in
  NoDup (course_id <$> table') /\
  forall x, x ∈ table' <->
    latest rows (course_id x) = Some x \/ (x ∈ table /\ latest rows (course_id x) = None).
Proof.
  intros Hnd. induction rows as [|c rows IH] using rev_ind.
  - cbn. split; [exact Hnd|]. intros x. split; [auto|]. intros [[=]|[H _]]. exact H.
  - cbv zeta in *. rewrite fold_upsert_snoc. destruct IH as [IHnd IH].
    split; [apply upsert_NoDup, IHnd|]. intros x.
    rewrite (upsert_elem _ _ _ IHnd), IH, latest_snoc.
    destruct (decide (course_id c = course_id x)) as [E|E].
    + split.
      * intros [->|[_ Hne]]; [auto|congruence].
      * intros [[= ->]|[_ [=]]]. auto.
    + split.
      * intros [->|[H _]]; [contradiction|exact H].
      * intros H. right. split; [exact H|]. congruence.
Qed.

(** A run of upserts of ids of the table rewrites each row as the last
    row of the run with its id. *)
Lemma fold_upsert_present (rows : list course) (table : list course) :
  NoDup (course_id <$> table) ->
  (forall c, c ∈ rows -> course_id c ∈ course_id <$> table) ->
  fold_left (fun t row => (upsert t row).1) rows table =
  (fun r => default r (latest rows (course_id r))) <$> table.
Proof.
  intros Hnd. induction rows as [|c rows IH] using rev_ind; intros Hin.
  - cbn. symmetry. apply list_fmap_id.
  - rewrite fold_upsert_snoc, IH by (intros x Hx; apply Hin, elem_of_app; auto).
    assert (Hids : course_id <$> ((fun r => default r (latest rows (course_id r))) <$> table)
                   = course_id <$> table).
    { rewrite <- list_fmap_compose. apply list_fmap_ext. intros i r _. cbn.
      destruct (latest rows (course_id r)) as [x|] eqn:E; [|reflexivity].
      apply latest_id in E. exact E. }
    rewrite upsert_present.
    + rewrite <- list_fmap_compose. apply list_fmap_ext. intros i r _. cbn.
      rewrite latest_snoc.
      assert (Hid : course_id (default r (latest rows (course_id r))) = course_id r).
      { destruct (latest rows (course_id r)) as [x|] eqn:E; [|reflexivity].
        apply latest_id in E. exact E. }
      rewrite Hid.
      destruct (String.eqb_spec (course_id r) (course_id c)) as [E|E].
      * rewrite decide_True by congruence. reflexivity.
      * rewrite decide_False by congruence. reflexivity.
    + rewrite Hids. exact Hnd.
    + rewrite Hids. apply Hin, elem_of_app. right. left.
Qed.

(** A second run of the same upserts changes nothing. *)
Lemma fold_upsert_twice (rows : list course) (table : list course) :
  NoDup (course_id <$> table) ->
  let table' := fold_left (fun t row => (upsert t row).1) rows table in
  fold_left (fun t row => (upsert t row).1) rows table' = table'.
Proof.
  intros Hnd table'. destruct (fold_upsert_elem rows table Hnd) as [Hnd' Helem].
  fold table' in Hnd', Helem.
  rewrite fold_upsert_present; [|exact Hnd'|].
  - rewrite <- (list_fmap_id table') at 2. apply list_fmap_ext. intros i r Hr. cbn.
    apply list_elem_of_lookup_2, Helem in Hr as [->|[_ ->]]; reflexivity.
  - intros c Hc.
    destruct (latest rows (course_id c)) as [x|] eqn:E.
    + pose proof (latest_id _ _ _ E) as Hid. apply list_elem_of_fmap. exists x.
      split; [symmetry; exact Hid|]. apply Helem. left. rewrite Hid. exact E.
    + apply latest_None in E. exfalso. apply E, list_elem_of_fmap. eauto.
Qed.

End LastRowWins.

(** X24.  Ingestion keeps [course_id] a key of the table, and the last
    row of the file with an id wins: after the ingestion the table holds,
    for every id of a stored row of the file, the last stored row with the
    id, and the rows it had under the other ids. *)
Theorem last_row_of_an_id_wins (accepts : course -> bool)
    (expectedToken ingestToken : option string) (records : list Ingest.record)
    (table table' : list course) (resp : Ingest.response) :
  NoDup (course_id <$> table) ->
  Ingest.ingest accepts expectedToken ingestToken (Ingest.Parsed records) table
    = (table', Ingest.Completed resp) ->
  NoDup (course_id <$> table') /\
  forall c, c ∈ table' <->
    latest (stored accepts records) (course_id c) = Some c \/
    (c ∈ table /\ latest (stored accepts records) (course_id c) = None).
Proof.
  intros Hnd H. apply ingest_Completed in H as (records' & [= <-] & _ & H). cbv zeta in H.
  destruct H as [-> _]. rewrite process_table.
  apply fold_upsert_elem, Hnd.
Qed.

Lemma last_row_of_an_id_wins_witness :
  match Ingest.ingest accept_all (Some "secret") (Some "secret")
          (Ingest.Parsed sample_file) [] with
  | (table', _) => NoDup (course_id <$> table')
  end.
Proof.
  destruct (Ingest.ingest accept_all (Some "secret") (Some "secret")
              (Ingest.Parsed sample_file) []) as [t [| | |resp]] eqn:E;
    try (vm_compute in E; discriminate).
  apply (last_row_of_an_id_wins accept_all (Some "secret") (Some "secret")
           sample_file [] t resp);
    [apply NoDup_nil_2 | exact E].
Defined.

(** X25.  Ingesting a file a second time changes nothing: with
    [course_id] a key of the table, the second ingestion of the same
    records leaves the table as the first one left it, inserts no row, and
    reports the same failures. *)
Theorem ingestion_is_idempotent (accepts : course -> bool)
    (expected1 token1 expected2 token2 : option string) (records : list Ingest.record)
    (table table1 table2 : list course) (resp1 resp2 : Ingest.response) :
  NoDup (course_id <$> table) ->
  Ingest.ingest accepts expected1 token1 (Ingest.Parsed records) table
    = (table1, Ingest.Completed resp1) ->
  Ingest.ingest accepts expected2 token2 (Ingest.Parsed records) table1
    = (table2, Ingest.Completed resp2) ->
  table2 = table1 /\
  Ingest.inserted (Ingest.counts resp2) = 0 /\
  Ingest.updated (Ingest.counts resp2) = length (stored accepts records) /\
  Ingest.failed (Ingest.counts resp2) = Ingest.failed (Ingest.counts resp1) /\
  Ingest.failed_rows resp2 = Ingest.failed_rows resp1.
Proof.
  intros Hnd H1 H2.
  apply ingest_Completed in H1 as (? & [= <-] & _ & H1). cbv zeta in H1.
  apply ingest_Completed in H2 as (? & [= <-] & _ & H2). cbv zeta in H2.
  destruct H1 as [-> ->], H2 as [-> ->].
  assert (Htable : (Ingest.process accepts
                      ((Ingest.process accepts (table, Ingest.Counters 0 0 0 []) 0 records).1,
                       Ingest.Counters 0 0 0 []) 0 records).1
                   = (Ingest.process accepts (table, Ingest.Counters 0 0 0 []) 0 records).1).
  { rewrite !process_table. apply fold_upsert_twice, Hnd. }
  destruct (process_counters accepts records table (Ingest.Counters 0 0 0 []) 0)
    as (_ & F1 & R1 & _).
  destruct (process_counters accepts records
              (Ingest.process accepts (table, Ingest.Counters 0 0 0 []) 0 records).1
              (Ingest.Counters 0 0 0 []) 0) as (C2 & F2 & R2 & L2).
  rewrite Htable in L2.
  cbn [Ingest.respond Ingest.counts Ingest.failed_rows Ingest.inserted Ingest.updated
       Ingest.failed Ingest.failedRows app Nat.add] in *.
  split; [exact Htable|]. split; [lia|]. split; [lia|]. split; [lia|].
  rewrite F1, F2, R1, R2. reflexivity.
Qed.

Lemma ingestion_is_idempotent_witness :
  match Ingest.ingest accept_all (Some "secret") (Some "secret")
          (Ingest.Parsed sample_file) [] with
  | (table1, _) =>
      match Ingest.ingest accept_all (Some "secret") (Some "secret")
              (Ingest.Parsed sample_file) table1 with
      | (table2, _) => table2 = table1
      end
  end.
Proof.
  destruct (Ingest.ingest accept_all (Some "secret") (Some "secret")
              (Ingest.Parsed sample_file) []) as [t1 [| | |resp1]] eqn:E1;
    try (vm_compute in E1; discriminate).
  destruct (Ingest.ingest accept_all (Some "secret") (Some "secret")
              (Ingest.Parsed sample_file) t1) as [t2 [| | |resp2]] eqn:E2;
    try (unfold Ingest.ingest in E2; cbn [Ingest.authorised] in E2;
         rewrite bool_decide_eq_true_2 in E2 by reflexivity; cbn [negb] in E2;
         destruct (Ingest.process _ _ _ _); discriminate).
  apply (ingestion_is_idempotent accept_all (Some "secret") (Some "secret")
           (Some "secret") (Some "secret") sample_file [] t1 t2 resp1 resp2);
    [apply NoDup_nil_2 | exact E1 | exact E2].
Defined.

(** X26.  Who may ingest.  An upload that the middleware refuses is
    answered [500] whatever the token.  Any other request is let in only
    when it carries a token that is not empty and is the expected one,
    and is answered [401] otherwise; so when no token is expected, every
    such request is answered [401].  Only a completed ingestion changes
    the table: a refused upload, a refused token, a request without a
    file and a file that cannot be read leave it as it is. *)
Theorem only_the_expected_token_ingests (accepts : course -> bool)
    (expectedToken ingestToken : option string) (file : Ingest.upload)
    (table table' : list course) (a : Ingest.answer) :
  Ingest.ingest accepts expectedToken ingestToken file table = (table', a) ->
  (file = Ingest.Refused -> a = Ingest.Failed) /\
  (a = Ingest.Unauthorized <->
   file <> Ingest.Refused /\
   ~ exists token, token <> "" /\ ingestToken = Some token /\ expectedToken = Some token) /\
  (expectedToken = None -> file <> Ingest.Refused -> a = Ingest.Unauthorized) /\
  ((forall resp, a <> Ingest.Completed resp) -> table' = table).
Proof.
  unfold Ingest.ingest.
  assert (Hauth : Ingest.authorised ingestToken expectedToken = true <->
                  exists token, token <> "" /\ ingestToken = Some token /\
                                expectedToken = Some token).
  { unfold Ingest.authorised. destruct ingestToken as [[|c t]|].
    - split; [discriminate|]. intros (token & Hne & [= <-] & _). contradiction.
    - rewrite bool_decide_eq_true. split.
      + intros ->. exists (String c t). repeat split. discriminate.
      + intros (token & _ & [= <-] & ->). reflexivity.
    - split; [discriminate|]. intros (token & _ & [=] & _). }
  destruct file as [| | |records].
  { intros [= <- <-]. split; [reflexivity|]. split; [|split; [|reflexivity]].
    - split; [discriminate|]. intros [H _]. contradiction.
    - intros _ H. contradiction. }
  all: destruct (Ingest.authorised ingestToken expectedToken) eqn:E; cbn [negb];
    [assert (Hex : exists token, token <> "" /\ ingestToken = Some token /\
                                 expectedToken = Some token) by (apply Hauth; reflexivity)|].
  all: try (intros [= <- <-]; split; [discriminate|]; split; [|split; [|reflexivity]];
            [split; [discriminate | intros [_ H]; contradiction]
            |intros ->; destruct Hex as (? & _ & _ & [=])]).
  all: try (intros [= <- <-]; split; [discriminate|]; split; [|split; [|reflexivity]];
            [split; [intros _; split; [discriminate|]; intros H; apply Hauth in H; discriminate
                    |reflexivity]
            |reflexivity]).
  destruct (Ingest.process _ _ _ _) as [t c]. intros [= <- <-].
  split; [discriminate|]. split; [|split].
  - split; [discriminate | intros [_ H]; contradiction].
  - intros ->. destruct Hex as (? & _ & _ & [=]).
  - intros H. exfalso. apply (H _ eq_refl).
Qed.

Lemma only_the_expected_token_ingests_witness :
  Ingest.ingest accept_all None (Some "secret") (Ingest.Parsed sample_file) sample_table
  = (sample_table, Ingest.Unauthorized).
Proof.
  destruct (Ingest.ingest accept_all None (Some "secret") (Ingest.Parsed sample_file)
              sample_table) as [t a] eqn:E.
  destruct (only_the_expected_token_ingests _ _ _ _ _ _ _ E) as (_ & _ & H1 & H2).
  rewrite (H1 eq_refl ltac:(discriminate)) in *. rewrite H2 by discriminate. reflexivity.
Defined.

(** ** The pages *)

Section CompareList.

Import CompareProvider.

Lemma handle_invariant (compareList : list string) (e : event) :
  NoDup compareList /\ length compareList <= 5 ->
  NoDup (handle compareList e) /\ length (handle compareList e) <= 5.
Proof.
  intros [Hnd Hlen]. destruct e as [id|id|]; cbn [handle].
  - unfold addToCompare.
    destruct (Js.array_includes compareList id) eqn:Ein; cbn [negb andb fst]; [auto|].
    destruct (length compareList <? 5)%nat eqn:E5; cbn [fst]; [|auto].
    apply array_includes_false in Ein. apply Nat.ltb_lt in E5. split.
    + apply NoDup_app. split; [exact Hnd|]. split; [|apply NoDup_singleton].
      intros x Hx Hx'. apply list_elem_of_singleton in Hx'. subst. contradiction.
    + rewrite length_app. cbn [length]. lia.
  - unfold removeFromCompare. split; [apply NoDup_filter, Hnd|].
    pose proof (length_filter (fun x => x <> id) compareList). lia.
  - split; [constructor|cbn; lia].
Qed.

Lemma after_invariant (events : list event) :
  NoDup (after events) /\ length (after events) <= 5.
Proof.
  unfold after. induction events as [|e events IH] using rev_ind.
  - split; [constructor|cbn; lia].
  - rewrite fold_left_app. cbn [fold_left]. apply handle_invariant, IH.
Qed.

Lemma after_snoc (events : list event) (e : event) :
  after (events ++ [e]) = handle (after events) e.
Proof. unfold after. rewrite fold_left_app. reflexivity. Qed.

(** A set made of a list without duplicates is the list. *)
Lemma new_Set_NoDup (l : list string) : NoDup l -> Compare.new_Set l = l.
Proof.
  induction l as [|x l IH] using rev_ind; [reflexivity|].
  intros Hnd. apply NoDup_app in Hnd as (Hl & Hx & _).
  rewrite new_Set_snoc, (IH Hl). unfold Compare.Set_add.
  destruct (Js.array_includes l x) eqn:E; [|reflexivity].
  apply array_includes_spec in E. exfalso. apply (Hx x E). left.
Qed.

End CompareList.

(** X27.  The comparison list of the application never holds an id
    twice and never more than five ids, whatever the user adds, removes
    or clears.  Adding an id succeeds exactly when the id is not in the
    list and the list has fewer than five ids, and puts it last; an id
    that is removed is not in the list any more. *)
Theorem compare_list_is_a_bounded_set (events : list CompareProvider.event)
    (courseId : string) :
  let compareList := CompareProvider.after events in
  NoDup compareList /\ length compareList <= 5 /\
  (CompareProvider.maxReached compareList = true <-> length compareList = 5) /\
  ((CompareProvider.addToCompare compareList courseId).2 = true <->
   (courseId ∉ compareList) /\ length compareList < 5) /\
  (CompareProvider.addToCompare compareList courseId).1 =
    (if (CompareProvider.addToCompare compareList courseId).2
     then compareList ++ [courseId] else compareList) /\
  CompareProvider.isInCompare
    (CompareProvider.after (events ++ [CompareProvider.Remove courseId])) courseId = false /\
  CompareProvider.after (events ++ [CompareProvider.Clear]) = [].
Proof.
  intros compareList. destruct (after_invariant events) as [Hnd Hlen].
  fold compareList in Hnd, Hlen.
  split; [exact Hnd|]. split; [exact Hlen|]. split; [|split; [|split; [|split]]].
  - unfold CompareProvider.maxReached. rewrite Nat.leb_le. lia.
  - unfold CompareProvider.addToCompare.
    destruct (Js.array_includes compareList courseId) eqn:Ein; cbn [negb andb snd].
    + apply array_includes_spec in Ein. split; [discriminate|]. tauto.
    + apply array_includes_false in Ein.
      destruct (length compareList <? 5)%nat eqn:E5; cbn [snd].
      * apply Nat.ltb_lt in E5. tauto.
      * apply Nat.ltb_ge in E5. split; [discriminate|]. lia.
  - unfold CompareProvider.addToCompare. destruct (_ && _); reflexivity.
  - rewrite after_snoc. fold compareList. cbn [CompareProvider.handle].
    unfold CompareProvider.isInCompare, CompareProvider.removeFromCompare.
    apply array_includes_false. intros H. apply list_elem_of_filter in H as [H _].
    contradiction.
  - rewrite after_snoc. reflexivity.
Qed.

Lemma compare_list_is_a_bounded_set_witness :
  (CompareProvider.addToCompare ["a"; "b"] "c").2 = true.
Proof.
  apply (compare_list_is_a_bounded_set
           [CompareProvider.Add "a"; CompareProvider.Add "b"] "c").
  split; [|cbn; lia]. apply (bool_decide_unpack _). vm_compute. exact I.
Defined.

(** X28.  The comparison list against the comparison route.  The page
    sends nothing for an empty list.  For a list of ids that an address
    carries unchanged, the route reads the ids of the list back; a list
    of one to four ids is not refused, and every id of the list is
    counted as requested in the answer; a full list, of five ids, is
    refused as too many: the list lets in one id more than the route
    takes. *)
Theorem compare_list_meets_the_route (events : list CompareProvider.event)
    (table : list course) :
  let compareList := CompareProvider.after events in
  Forall plain_id compareList ->
  match ComparePage.fetchComparisonData compareList with
  | None => compareList = []
  | Some ids =>
      Compare.parse_ids ids = compareList /\
      (length compareList <= 4 ->
       (forall e, Compare.compare table (Some ids) <> BadRequest e) /\
       (forall resp, Compare.compare table (Some ids) = Ok resp ->
          Compare.requested_count (Compare.meta resp) = length compareList)) /\
      (length compareList = 5 ->
       Compare.compare table (Some ids) = BadRequest "Too many course IDs")
  end.
Proof.
  intros compareList Hplain. destruct (after_invariant events) as [Hnd Hlen].
  fold compareList in Hnd, Hlen.
  assert (Hclean : Forall clean_id compareList).
  { eapply Forall_impl; [exact Hplain | apply plain_id_clean]. }
  destruct compareList as [|x xs] eqn:El; [reflexivity|].
  unfold ComparePage.fetchComparisonData.
  pose proof (parse_ids_join (x :: xs) Hclean) as Hparse.
  assert (Hne : Js.join "," (x :: xs) <> "").
  { apply join_cons_nonempty. apply Forall_cons in Hclean as [(Hx & _) _]. exact Hx. }
  split; [exact Hparse|].
  destruct (compare_replies table (Js.join "," (x :: xs)) Hne)
    as [[Hp Hc]|[[Hp Hc]|[Hp [resp Hc]]]]; rewrite Hparse in Hp.
  - discriminate.
  - split; [intros H; lia | intros _; exact Hc].
  - split; [|intros H; lia]. intros _. rewrite Hc. split; [discriminate|].
    intros resp' [= <-].
    apply compare_Ok in Hc as (_ & _ & _ & -> & _). cbn [Compare.requested_count].
    rewrite Hparse, new_Set_NoDup by exact Hnd. reflexivity.
Qed.

Lemma compare_list_meets_the_route_witness :
  Compare.compare sample_table (Some "1,2,3,4,5x") = BadRequest "Too many course IDs".
Proof.
  pose proof (compare_list_meets_the_route
    [CompareProvider.Add "1"; CompareProvider.Add "2"; CompareProvider.Add "3";
     CompareProvider.Add "4"; CompareProvider.Add "5x"; CompareProvider.Add "6"]
    sample_table ltac:(repeat constructor; discriminate)) as H.
  apply H. reflexivity.
Defined.

Lemma trim_nonempty (s : string) : Js.trim s <> "" -> s <> "".
Proof. intros H ->. apply H. reflexivity. Qed.

(** X29.  The ask page against the ask route.  The page posts nothing
    for a blank query.  What it posts is never refused as a missing
    question; the route reads the page size 10 and, for a page from 1 on,
    the page of the request; and trimming the query on the page changes
    nothing: the route answers as it would to the query as typed. *)
Theorem ask_page_is_never_refused (db : store) (query : string) (page : Z) :
  (AskAIPage.handleSubmit query page = None <-> Js.trim query = "") /\
  forall b, AskAIPage.handleSubmit query page = Some b ->
    AskAIPage.question b <> "" /\
    (forall e, AskAIPage.post db b <> BadRequest e) /\
    AskRoute.perPage (AskAIPage.per_page b) = Js.of_Z 10 /\
    AskRoute.pageNum (AskAIPage.page b) = Js.of_Z (Z.max 1 page) /\
    AskAIPage.post db b =
      AskRoute.ask db (Some query) (AskRoute.JNumber page) (AskRoute.JNumber 10).
Proof.
  unfold AskAIPage.handleSubmit.
  destruct (String.eqb_spec (Js.trim query) "") as [E|E].
  - split; [tauto|]. discriminate.
  - split; [split; [discriminate|contradiction]|]. intros b [= <-].
    cbn [AskAIPage.question AskAIPage.per_page AskAIPage.page]. unfold AskAIPage.post.
    cbn [AskAIPage.question AskAIPage.per_page AskAIPage.page].
    pose proof (trim_nonempty query E) as Hq.
    assert (Hask : forall text, text <> "" ->
              AskRoute.ask db (Some text) (AskRoute.JNumber page) (AskRoute.JNumber 10) =
              match AskQuery.executeFilteredQuery db (Ask.parseNaturalLanguageQuery text)
                      (AskRoute.pageNum (AskRoute.JNumber page))
                      (AskRoute.perPage (AskRoute.JNumber 10)) with
              | Some result => Ok result
              | None => ServerError
              end).
    { intros text Ht. unfold AskRoute.ask. destruct text; [contradiction|reflexivity]. }
    split; [exact E|]. split; [|split; [|split]].
    + intros e. rewrite (Hask _ E). destruct (AskQuery.executeFilteredQuery _ _ _ _); discriminate.
    + rewrite perPage_number. reflexivity.
    + apply pageNum_number.
    + rewrite (Hask _ E), (Hask _ Hq).
      rewrite (extractor_reads_lowered (Js.trim query) query); [reflexivity|].
      rewrite <- trim_toLowerCase, trim_idem. reflexivity.
Qed.

Lemma ask_page_is_never_refused_witness :
  AskRoute.pageNum (AskRoute.JNumber 3) = Js.of_Z (Z.max 1 3).
Proof.
  destruct (ask_page_is_never_refused (sample_store 0) "  python  " 3) as [_ H].
  destruct (H (AskAIPage.Body "python" (AskRoute.JNumber 3) (AskRoute.JNumber 10)) eq_refl)
    as (_ & _ & _ & Hp & _).
  exact Hp.
Defined.

Section SearchFilters.

Import SearchPage.

Lemma applied_spec (value : string) : applied value = true <-> Js.trim value <> "".
Proof.
  unfold applied. destruct (String.eqb_spec (Js.trim value) "") as [E|E].
  - rewrite andb_false_r. split; [discriminate|contradiction].
  - rewrite andb_true_r. pose proof (trim_nonempty value E) as Hv.
    destruct (String.eqb_spec value ""); [contradiction|]. tauto.
Qed.

Lemma hasFiltersApplied_false (filtersObj : list (string * string)) :
  hasFiltersApplied filtersObj = false <->
  filter (fun entry => applied entry.2 = true) filtersObj = [].
Proof.
  unfold hasFiltersApplied. induction filtersObj as [|[k v] f IH]; [tauto|].
  cbn [existsb snd]. rewrite filter_cons. cbn [snd].
  destruct (applied v) eqn:E.
  - rewrite decide_True by reflexivity. split; discriminate.
  - rewrite decide_False by discriminate. cbn [orb]. exact IH.
Qed.

Lemma applied_filter (filters : list (string * string)) :
  filter (fun entry => applied entry.2 = true) filters
    = filter (fun entry => Js.trim entry.2 <> "") filters.
Proof. apply list_filter_iff. intros [k v]. apply applied_spec. Qed.

Lemma param_name_of_component (key : string) :
  key ∈ Filters.initialFilters.*1 -> param_name key = key /\ key ∈ courses_parameters.
Proof.
  intros Hk. cbn in Hk. rewrite !elem_of_cons, elem_of_nil in Hk.
  destruct Hk as [->|[->|[->|[->|[->|[->|[->|[->|[->|[->|[->|[->|[->|[]]]]]]]]]]]]]];
    (split; [reflexivity|apply (bool_decide_unpack _); vm_compute; exact I]).
Qed.

Lemma renamed_component_entries (entries : list (string * string)) :
  entries.*1 ⊆ Filters.initialFilters.*1 ->
  (fun entry => (param_name entry.1, entry.2)) <$> entries = entries /\
  entries.*1 ⊆ courses_parameters.
Proof.
  induction entries as [|[k v] entries IH]; intros Hkeys.
  - split; [reflexivity|]. intros k Hk. inversion Hk.
  - rewrite fmap_cons in Hkeys.
    assert (Hk : k ∈ Filters.initialFilters.*1) by (apply Hkeys; left).
    destruct (param_name_of_component k Hk) as [Hname Hparam].
    destruct IH as [IH1 IH2]; [intros x Hx; apply Hkeys; right; exact Hx|].
    split.
    + rewrite fmap_cons, IH1. cbn [fst snd]. rewrite Hname. reflexivity.
    + rewrite fmap_cons. intros x Hx. apply elem_of_cons in Hx as [->|Hx]; [exact Hparam|].
      apply IH2, Hx.
Qed.

Lemma handleFilterChange_entries (filters : list (string * string)) (key value : string) :
  key ∈ filters.*1 ->
  (Filters.handleFilterChange filters key value).*1 = filters.*1 /\
  (key, value) ∈ Filters.handleFilterChange filters key value /\
  (forall k v, k <> key ->
     (k, v) ∈ Filters.handleFilterChange filters key value <-> (k, v) ∈ filters).
Proof.
  induction filters as [|[k0 v0] f IH]; [intros H; inversion H|].
  cbn [Filters.handleFilterChange]. rewrite fmap_cons. cbn [fst]. intros H.
  destruct (String.eqb_spec k0 key) as [E|E].
  - subst k0. split; [reflexivity|]. split; [left|].
    intros k v Hk. rewrite !elem_of_cons. split; (intros [[= -> ->]|Hin]; [contradiction|auto]).
  - apply elem_of_cons in H as [H|H]; [congruence|].
    destruct (IH H) as (IH1 & IH2 & IH3).
    split; [rewrite fmap_cons; cbn [fst]; f_equal; exact IH1|].
    split; [right; exact IH2|].
    intros k v Hk. rewrite !elem_of_cons, (IH3 k v Hk). reflexivity.
Qed.

End SearchFilters.

(** X30.  What the search page sends to the courses route.  The query
    holds every filter of the state whose value is not blank, with its
    value, in the order of the state and under the name [param_name]
    gives its key, and then the page and the page size 10; a blank filter
    is not sent.  For the keys of the filter component the names are the
    keys themselves, all of them parameters that the route reads: the
    query is the entries of the state that are not blank, followed by the
    pagination.  No filter is applied exactly when every value is blank,
    as after [Clear All].  A change of a filter sets the value of its key
    and leaves the other entries and the keys as they are, and a change
    of page keeps the page between 1 and the number of pages. *)
Theorem search_page_sends_applied_filters (filters : list (string * string)) (page : Z) :
  let sent := filter (fun entry => Js.trim entry.2 <> "") filters in
  SearchPage.buildQueryParams filters page
    = ((fun entry => (SearchPage.param_name entry.1, entry.2)) <$> sent)
        ++ page_entries page /\
  (filters.*1 ⊆ Filters.initialFilters.*1 ->
   SearchPage.buildQueryParams filters page = sent ++ page_entries page /\
   (SearchPage.buildQueryParams filters page).*1 ⊆ courses_parameters) /\
  (SearchPage.hasFiltersApplied filters = false <-> sent = []) /\
  SearchPage.hasFiltersApplied (Filters.clearFilters filters) = false /\
  (forall key value, key ∈ filters.*1 ->
     (Filters.handleFilterChange filters key value).*1 = filters.*1 /\
     (key, value) ∈ Filters.handleFilterChange filters key value /\
     (forall k v, k <> key ->
        (k, v) ∈ Filters.handleFilterChange filters key value <-> (k, v) ∈ filters)) /\
  (forall currentPage totalPages,
     (1 <= currentPage <= totalPages)%Z ->
     (1 <= SearchPage.handlePageChange currentPage totalPages page <= totalPages)%Z).
Proof.
  intros sent.
  assert (Hbuild : SearchPage.buildQueryParams filters page
            = ((fun entry => (SearchPage.param_name entry.1, entry.2)) <$> sent)
                ++ page_entries page).
  { unfold SearchPage.buildQueryParams, sent. rewrite applied_filter. reflexivity. }
  split; [exact Hbuild|]. split; [|split; [|split; [|split]]].
  - intros Hkeys.
    assert (Hsent : sent.*1 ⊆ Filters.initialFilters.*1).
    { intros k Hk. apply Hkeys. apply list_elem_of_fmap in Hk as ([k' v] & -> & Hin).
      apply list_elem_of_filter in Hin as [_ Hin]. apply list_elem_of_fmap. eauto. }
    destruct (renamed_component_entries sent Hsent) as [Hsame Hparams].
    rewrite Hbuild, Hsame. split; [reflexivity|].
    rewrite fmap_app. intros k Hk. apply elem_of_app in Hk as [Hk|Hk]; [apply Hparams, Hk|].
    cbn in Hk. rewrite !elem_of_cons, elem_of_nil in Hk.
    destruct Hk as [->|[->|[]]]; apply (bool_decide_unpack _); vm_compute; exact I.
  - rewrite hasFiltersApplied_false, applied_filter. reflexivity.
  - clear sent Hbuild. unfold SearchPage.hasFiltersApplied, Filters.clearFilters.
    induction filters as [|[k v] f IH]; [reflexivity|]. cbn [map existsb snd]. exact IH.
  - intros key value. apply handleFilterChange_entries.
  - intros currentPage totalPages H. unfold SearchPage.handlePageChange.
    destruct ((1 <=? page)%Z && (page <=? totalPages)%Z) eqn:E; [|exact H].
    apply andb_prop in E as [E1 E2]. lia.
Qed.

Lemma search_page_sends_applied_filters_witness :
  SearchPage.buildQueryParams
    (Filters.handleFilterChange (Filters.handleFilterChange Filters.initialFilters "level" "UG")
       "min_fee" " ") 2
  = [("level", "UG"); ("page", "2"); ("per_page", "10")].
Proof.
  apply (search_page_sends_applied_filters
           (Filters.handleFilterChange
              (Filters.handleFilterChange Filters.initialFilters "level" "UG") "min_fee" " ") 2).
  intros k Hk. exact Hk.
Defined.
